(** * The vendor merge engine of [scripts/merge-all-vendors.py]

    A shallow embedding of [normalize_vendor] and [merge_vendors] and the
    properties of the merge: ownership of domains, identifiers, premium
    precedence, re-merging and post-processing.  The rest of the scripts
    follows: [load_vendors], [load_categories] and [main] of the merge
    script, and the importers [import-duckduckgo.py] and
    [import-disconnect.py] that produce its secondary inputs.

    Modelling conventions.
    - A vendor is a Python dict loaded from JSON.  The eight keys the engine
      reads ([id], [domains], [name], [company], [category],
      [gdpr_compliant], [risk_score], [tier]) are record fields with the
      types of the data model; every other key lives in the finite map
      [extra].  [raw_vendor] is a dict in which any key may be absent;
      [vendor] is the same dict after [normalize_vendor] has filled the
      required keys (only [tier] may still be absent).  [json_vendor] is
      the dict before any typing and [normalize_json] the normalizer with
      the exceptions it raises on values of the wrong type; on the typed
      records the two normalizers agree.
    - The records of the three input lists are distinct objects, as produced
      by [json.load]; the in-place mutation of a record is a functional
      update of the entry that holds it.
    - [vendors_by_id] is an insertion-ordered dict (association list with
      distinct keys); [domain_to_id] is only ever looked up and is a [gmap].
    - Subscripting a dict with an absent key raises [KeyError]: the passes
      run in the [option] monad and [None] is that exception.
    - Strings are byte strings; [str.lower] is modelled on ASCII letters,
      which is what domain names consist of, and string order is the
      lexicographic order on character codes.  Statements about the
      lower-casing itself or about free text (the company names that
      [sanitize_id] turns into ids) carry the hypothesis [is_ascii].
    - A JSON file is missing, unparsable or parsed; a parsed document is
      typed by the shape the scripts expect of it (a vendor database, a
      Tracker Radar domain file, the Disconnect service list), every key
      optional where the script reads it with [get].  Printing is left out,
      and the time stamp of [main] is an argument.
    - Floats are not modelled.  The comparisons of [import-duckduckgo.py]
      on prevalence and cookie values are a parameter [gt], and its risk
      score is counted in half points. *)

From Stdlib Require Import ZArith String Ascii List.
From stdpp Require Import gmap strings list fin_maps sorting.

Local Open Scope Z_scope.
Set Warnings "-register-all".

(** ** Python values carried as passengers *)

Inductive pyval : Type :=
  | PNone
  | PBool (b : bool)
  | PInt (z : Z)
  | PFloat (literal : string)
  | PStr (s : string)
  | PList (items : list pyval)
  | PDict (items : list (string * pyval)).

(** ** Vendor records *)

Record raw_vendor : Type := RawVendor {
  r_id : option string;
  r_domains : option (list string);
  r_name : option string;
  r_company : option string;
  r_category : option string;
  r_gdpr_compliant : option bool;
  r_risk_score : option Z;
  r_tier : option string;
  r_extra : gmap string pyval
}.

Record vendor : Type := Vendor {
  v_id : string;
  v_domains : list string;
  v_name : string;
  v_company : string;
  v_category : string;
  v_gdpr_compliant : bool;
  v_risk_score : Z;
  v_tier : option string;
  v_extra : gmap string pyval
}.

Definition set_id (i : string) (v : vendor) : vendor :=
  Vendor i (v_domains v) (v_name v) (v_company v) (v_category v)
         (v_gdpr_compliant v) (v_risk_score v) (v_tier v) (v_extra v).

Definition set_domains (ds : list string) (v : vendor) : vendor :=
  Vendor (v_id v) ds (v_name v) (v_company v) (v_category v)
         (v_gdpr_compliant v) (v_risk_score v) (v_tier v) (v_extra v).

Definition set_tier (t : option string) (v : vendor) : vendor :=
  Vendor (v_id v) (v_domains v) (v_name v) (v_company v) (v_category v)
         (v_gdpr_compliant v) (v_risk_score v) t (v_extra v).

Definition set_extra (e : gmap string pyval) (v : vendor) : vendor :=
  Vendor (v_id v) (v_domains v) (v_name v) (v_company v) (v_category v)
         (v_gdpr_compliant v) (v_risk_score v) (v_tier v) e.

(** A normalized record read back as an input dict: every key is present. *)
Definition as_input (v : vendor) : raw_vendor :=
  RawVendor (Some (v_id v)) (Some (v_domains v)) (Some (v_name v))
            (Some (v_company v)) (Some (v_category v))
            (Some (v_gdpr_compliant v)) (Some (v_risk_score v))
            (v_tier v) (v_extra v).

(** ** Strings: [str.lower] and truthiness *)

Definition is_upper (c : ascii) : bool :=
  (65 <=? Z.of_N (N_of_ascii c)) && (Z.of_N (N_of_ascii c) <=? 90).

Definition lower_char (c : ascii) : ascii :=
  if is_upper c then ascii_of_N (N_of_ascii c + 32) else c.

Fixpoint lower (s : string) : string :=
  match s with
  | EmptyString => EmptyString
  | String c s' => String (lower_char c) (lower s')
  end.

Fixpoint has_upper (s : string) : bool :=
  match s with
  | EmptyString => false
  | String c s' => is_upper c || has_upper s'
  end.

(** [if d] on a string: the empty string is the falsy one. *)
Definition truthy (s : string) : bool :=
  match s with EmptyString => false | _ => true end.

(** ** The normalizer *)

Definition VALID_CATEGORIES : list string :=
  [ "analytics"; "advertising"; "social"; "cdn"; "payments"; "chat";
    "heatmaps"; "ab_testing"; "error_tracking"; "tag_manager"; "consent";
    "video"; "fonts"; "security"; "push"; "forms"; "referral"; "booking";
    "maps"; "web3"; "b2b_intelligence"; "email_marketing"; "other" ].

Definition clamp_risk (z : Z) : Z := Z.max 1 (Z.min 10 z).

Definition valid_category (c : string) : string :=
  if bool_decide (c ∈ VALID_CATEGORIES) then c else "other".

Definition lower_domains (ds : list string) : list string :=
  lower <$> filter (λ d, truthy d = true) ds.

Definition normalize_vendor (r : raw_vendor) : vendor :=
  let i := default "unknown" (r_id r) in
  {| v_id := i;
     v_domains := lower_domains (default [] (r_domains r));
     v_name := default i (r_name r);
     v_company := default "Unknown" (r_company r);
     v_category := valid_category (default "other" (r_category r));
     v_gdpr_compliant := default false (r_gdpr_compliant r);
     v_risk_score := clamp_risk (default 5 (r_risk_score r));
     v_tier := r_tier r;
     v_extra := r_extra r |}.

(** ** The normalizer on untyped dicts *)

(** The exceptions the scripts can end with. *)
Inductive error : Type :=
  | JSONDecodeError
  | AttributeError
  | KeyError
  | TypeError.

(** A string of ASCII characters.  On such strings the byte-wise functions
    of this file ([lower], [String.length], [sanitize_id] below) are
    Python's, which work on code points and lower-case every cased letter. *)
Definition is_ascii (s : string) : bool :=
  forallb (λ c, (nat_of_ascii c <? 128)%nat) (list_ascii_of_string s).

(** A vendor dict as [json.load] gives it: each of the keys that
    [normalize_vendor] reads may be absent or hold any JSON value. *)
Record json_vendor : Type := JsonVendor {
  j_id : option pyval;
  j_domains : option pyval;
  j_name : option pyval;
  j_company : option pyval;
  j_category : option pyval;
  j_gdpr_compliant : option pyval;
  j_risk_score : option pyval;
  j_tier : option pyval;
  j_extra : gmap string pyval
}.

(** A record with the types of the data model, as such a dict. *)
Definition json_of (r : raw_vendor) : json_vendor :=
  JsonVendor (PStr <$> r_id r)
             ((λ ds, PList (PStr <$> ds)) <$> r_domains r)
             (PStr <$> r_name r) (PStr <$> r_company r)
             (PStr <$> r_category r) (PBool <$> r_gdpr_compliant r)
             (PInt <$> r_risk_score r) (PStr <$> r_tier r) (r_extra r).

Section floats.

(** Floats are not modelled: Python's [x < n] and [x > n] for a float [x]
    and an int [n], and the truth value of a float, are parameters, and
    what is proved holds for every choice of them. *)
Variable float_lt : string → Z → bool.
Variable float_gt : string → Z → bool.
Variable float_truthy : string → bool.

(** [a < n] for the int [n]; only numbers can be compared with an int. *)
Definition lt_int (a : pyval) (n : Z) : error + bool :=
  match a with
  | PInt z => inr (z <? n)
  | PBool b => inr ((if b then 1 else 0) <? n)
  | PFloat x => inr (float_lt x n)
  | _ => inl TypeError
  end.

(** [a > n] for the int [n]. *)
Definition gt_int (a : pyval) (n : Z) : error + bool :=
  match a with
  | PInt z => inr (n <? z)
  | PBool b => inr (n <? (if b then 1 else 0))
  | PFloat x => inr (float_gt x n)
  | _ => inl TypeError
  end.

(** Line 77, [max(1, min(10, x))]: [min(10, x)] is [x] when [x < 10] and 10
    otherwise, [max(1, m)] is [m] when [m > 1] and 1 otherwise. *)
Definition clamp_json (x : pyval) : error + pyval :=
  match lt_int x 10 with
  | inl e => inl e
  | inr below =>
      let m := if below then x else PInt 10 in
      match gt_int m 1 with
      | inl e => inl e
      | inr above => inr (if above then m else PInt 1)
      end
  end.

(** Lines 80-81, [vendor['category'] not in VALID_CATEGORIES]: the test
    hashes the value, so a list or a dict raises [TypeError]; a value that
    is not a string is in no case a member. *)
Definition category_json (c : pyval) : error + pyval :=
  match c with
  | PList _ | PDict _ => inl TypeError
  | PStr s => inr (PStr (valid_category s))
  | _ => inr (PStr "other")
  end.

(** [if d] *)
Definition truthy_json (d : pyval) : bool :=
  match d with
  | PNone => false
  | PBool b => b
  | PInt z => negb (z =? 0)
  | PFloat x => float_truthy x
  | PStr s => truthy s
  | PList l => match l with [] => false | _ => true end
  | PDict l => match l with [] => false | _ => true end
  end.

(** [d.lower()]: only a string has the method. *)
Definition lower_json (d : pyval) : error + pyval :=
  match d with
  | PStr s => inr (PStr (lower s))
  | _ => inl AttributeError
  end.

(** [for d in x]: a list gives its items, a string its characters, a dict
    its keys; no other JSON value can be iterated. *)
Definition iter_json (x : pyval) : error + list pyval :=
  match x with
  | PList l => inr l
  | PStr s => inr ((λ c, PStr (String c EmptyString))
                     <$> list_ascii_of_string s)
  | PDict items => inr ((λ kv, PStr kv.1) <$> items)
  | _ => inl TypeError
  end.

(** Line 84, [[d.lower() for d in ... if d]], entry by entry. *)
Fixpoint lower_each (l : list pyval) : error + list pyval :=
  match l with
  | [] => inr []
  | d :: l' =>
      if truthy_json d then
        match lower_json d with
        | inl e => inl e
        | inr d' =>
            match lower_each l' with
            | inl e => inl e
            | inr ds => inr (d' :: ds)
            end
        end
      else lower_each l'
  end.

(** [normalize_vendor] of lines 65-86 on such a dict, with the exception it
    may raise: the clamp comes first, then the category, then the
    domains. *)
Definition normalize_json (j : json_vendor) : error + json_vendor :=
  let i := default (PStr "unknown") (j_id j) in
  let domains := default (PList []) (j_domains j) in
  let name := default i (j_name j) in
  let company := default (PStr "Unknown") (j_company j) in
  let category := default (PStr "other") (j_category j) in
  let gdpr_compliant := default (PBool false) (j_gdpr_compliant j) in
  let risk_score := default (PInt 5) (j_risk_score j) in
  match clamp_json risk_score with
  | inl e => inl e
  | inr risk_score =>
  match category_json category with
  | inl e => inl e
  | inr category =>
  match iter_json domains with
  | inl e => inl e
  | inr items =>
  match lower_each items with
  | inl e => inl e
  | inr domains =>
      inr (JsonVendor (Some i) (Some (PList domains)) (Some name)
             (Some company) (Some category) (Some gdpr_compliant)
             (Some risk_score) (j_tier j) (j_extra j))
  end end end end.

End floats.

(** ** Dicts in insertion order *)

Section dict.
Context {V : Type}.

Fixpoint dict_get (k : string) (d : list (string * V)) : option V :=
  match d with
  | [] => None
  | (k', x) :: d' => if bool_decide (k' = k) then Some x else dict_get k d'
  end.

(** [d[k] = x]: an existing key keeps its position, a new one goes last. *)
Fixpoint dict_set (k : string) (x : V) (d : list (string * V))
  : list (string * V) :=
  match d with
  | [] => [(k, x)]
  | (k', y) :: d' =>
      if bool_decide (k' = k) then (k, x) :: d' else (k', y) :: dict_set k x d'
  end.

Definition dict_has (k : string) (d : list (string * V)) : bool :=
  bool_decide (is_Some (dict_get k d)).

Definition dict_values (d : list (string * V)) : list V := snd <$> d.
Definition dict_keys (d : list (string * V)) : list string := fst <$> d.
End dict.

(** ** The merge state *)

Record merge_state : Type := MergeState {
  vendors_by_id : list (string * vendor);
  domain_to_id : gmap string string
}.

Definition empty_state : merge_state := MergeState [] ∅.

(** [for d in ds: domain_to_id[d] = vid] *)
Definition register (ds : list string) (vid : string)
    (idx : gmap string string) : gmap string string :=
  foldl (λ m d, <[d := vid]> m) idx ds.

(** [sorted(list(set(a) | set(b)))] *)
Definition sorted_union (a b : list string) : list string :=
  merge_sort String.le (remove_dups (a ++ b)).

(** [set(a) - set(b)], as the list of the entries of [a] that are not in [b] *)
Definition difference (a b : list string) : list string :=
  filter (λ d, d ∉ b) a.

(** The tier marking at the head of [merge_vendors]. *)
Definition mark_premium (r : raw_vendor) : raw_vendor :=
  RawVendor (r_id r) (r_domains r) (r_name r) (r_company r) (r_category r)
            (r_gdpr_compliant r) (r_risk_score r) (Some "premium") (r_extra r).

Definition default_tier (r : raw_vendor) : raw_vendor :=
  RawVendor (r_id r) (r_domains r) (r_name r) (r_company r) (r_category r)
            (r_gdpr_compliant r) (r_risk_score r)
            (Some (default "standard" (r_tier r))) (r_extra r).

(** *** Pass 1: index the premium vendors *)

Definition premium_step (st : merge_state) (r : raw_vendor) : merge_state :=
  let v := normalize_vendor r in
  let vid := v_id v in
  {| vendors_by_id := dict_set vid v (vendors_by_id st);
     domain_to_id := register (v_domains v) vid (domain_to_id st) |}.

(** *** The scans *)

(** The first domain owned by a record of tier premium; [vendors_by_id[..]]
    may raise. *)
Fixpoint find_premium (st : merge_state) (ds : list string)
  : option (option string) :=
  match ds with
  | [] => Some None
  | d :: ds' =>
      match domain_to_id st !! d with
      | Some existing_id =>
          existing ← dict_get existing_id (vendors_by_id st);
          if bool_decide (v_tier existing = Some "premium")
          then Some (Some existing_id)
          else find_premium st ds'
      | None => find_premium st ds'
      end
  end.

(** The owner of the first owned domain. *)
Fixpoint find_owner (idx : gmap string string) (ds : list string)
  : option string :=
  match ds with
  | [] => None
  | d :: ds' =>
      match idx !! d with
      | Some existing_id => Some existing_id
      | None => find_owner idx ds'
      end
  end.

(** [if matched_id:] holds for an id other than [None] and [""]. *)
Definition matched (m : option string) : option string :=
  match m with
  | Some i => if truthy i then Some i else None
  | None => None
  end.

(** *** The three ways a candidate lands *)

(** Lines 132-141 and 185-193: only the domains that are new to the owner
    are added and registered. *)
Definition absorb_new (st : merge_state) (m : string) (v : vendor)
  : option merge_state :=
  existing ← dict_get m (vendors_by_id st);
  let new_domains := difference (v_domains v) (v_domains existing) in
  Some (match new_domains with
        | [] => st
        | _ =>
          {| vendors_by_id :=
               dict_set m
                 (set_domains (sorted_union (v_domains existing) new_domains)
                    existing)
                 (vendors_by_id st);
             domain_to_id := register new_domains m (domain_to_id st) |}
        end).

(** Lines 150-157: the union replaces the owner's list and every domain of
    the candidate is registered again. *)
Definition absorb_all (st : merge_state) (m : string) (v : vendor)
  : option merge_state :=
  existing ← dict_get m (vendors_by_id st);
  Some {| vendors_by_id :=
            dict_set m
              (set_domains (sorted_union (v_domains existing) (v_domains v))
                 existing)
              (vendors_by_id st);
          domain_to_id := register (v_domains v) m (domain_to_id st) |}.

(** Lines 159-168 and 194-203: a new vendor, renamed when its id is taken. *)
Definition insert_new (suffix : string) (st : merge_state) (v : vendor)
  : merge_state :=
  let vid := v_id v in
  let '(vid, v) :=
    if dict_has vid (vendors_by_id st)
    then (vid +:+ suffix, set_id (vid +:+ suffix) v)
    else (vid, v) in
  {| vendors_by_id := dict_set vid v (vendors_by_id st);
     domain_to_id := register (v_domains v) vid (domain_to_id st) |}.

(** *** Pass 2 and pass 3 *)

Definition ddg_step (st : merge_state) (r : raw_vendor)
  : option merge_state :=
  let v := normalize_vendor r in
  matched_premium_id ← find_premium st (v_domains v);
  match matched matched_premium_id with
  | Some m => absorb_new st m v
  | None =>
      match matched (find_owner (domain_to_id st) (v_domains v)) with
      | Some m => absorb_all st m v
      | None => Some (insert_new "-ddg" st v)
      end
  end.

Definition disconnect_step (st : merge_state) (r : raw_vendor)
  : option merge_state :=
  let v := normalize_vendor r in
  match matched (find_owner (domain_to_id st) (v_domains v)) with
  | Some m => absorb_new st m v
  | None => Some (insert_new "-dc" st v)
  end.

Fixpoint run_pass (step : merge_state → raw_vendor → option merge_state)
    (st : merge_state) (rs : list raw_vendor) : option merge_state :=
  match rs with
  | [] => Some st
  | r :: rs' => st' ← step st r; run_pass step st' rs'
  end.

(** *** Post-processing *)

Definition cleanup_fields : list string :=
  [ "source"; "prevalence"; "fingerprinting"; "cookies"; "sites";
    "disconnect_category"; "website" ].

(** The [metadata] dict of the clean-up loop, in the order it is filled. *)
Definition import_metadata (e : gmap string pyval) : list (string * pyval) :=
  omap (λ field, (λ x, (field, x)) <$> e !! field) cleanup_fields.

Definition pop_fields (e : gmap string pyval) : gmap string pyval :=
  foldr delete e cleanup_fields.

Definition strip_import_fields (v : vendor) : vendor :=
  let metadata := import_metadata (v_extra v) in
  let e := pop_fields (v_extra v) in
  set_extra (match metadata with
             | [] => e
             | _ => <["_import_metadata" := PDict metadata]> e
             end) v.

(** [result.sort(key=lambda v: v['id'])]: a stable sort on the id. *)
Fixpoint insert_by_id (v : vendor) (l : list vendor) : list vendor :=
  match l with
  | [] => [v]
  | w :: l' =>
      if String.leb (v_id v) (v_id w) then v :: w :: l'
      else w :: insert_by_id v l'
  end.

Definition sort_by_id (l : list vendor) : list vendor :=
  foldr insert_by_id [] l.

(** ** [merge_vendors] *)

Definition premium_pass (premium : list raw_vendor) : merge_state :=
  foldl premium_step empty_state (mark_premium <$> premium).

Definition finish (st : merge_state) : list vendor :=
  sort_by_id (strip_import_fields <$> dict_values (vendors_by_id st)).

Definition merge_state_of (premium duckduckgo disconnect : list raw_vendor)
  : option merge_state :=
  st ← run_pass ddg_step (premium_pass premium) (default_tier <$> duckduckgo);
  run_pass disconnect_step st (default_tier <$> disconnect).

Definition merge_vendors (premium duckduckgo disconnect : list raw_vendor)
  : option (list vendor) :=
  finish <$> merge_state_of premium duckduckgo disconnect.

(** ** Sample records *)

Definition rec (i : string) (ds : list string) : raw_vendor :=
  RawVendor (Some i) (Some ds) None None None None None None ∅.

Global Arguments register : simpl never.
Global Arguments sorted_union : simpl never.
Global Arguments difference : simpl never.
Global Arguments pop_fields : simpl never.
Global Arguments import_metadata : simpl never.

(** ** Predicates of the statements *)

(** A domain string as the engine stores it: lower-case and not empty. *)
Definition domain_ok (d : string) : Prop :=
  has_upper d = false ∧ truthy d = true.

(** The order of [sort_by_id]. *)
Definition id_le (v w : vendor) : Prop := String.le (v_id v) (v_id w).

(** *** The normalizer in the words of the data model *)

(** [s'] is [s] with the letters A to Z moved to a to z and every other
    character as it is. *)
Definition lowercase_of (s s' : string) : Prop :=
  Forall2 (λ c c',
             nat_of_ascii c'
             = if bool_decide (65 ≤ nat_of_ascii c ≤ 90)%nat
               then (nat_of_ascii c + 32)%nat else nat_of_ascii c)
          (list_ascii_of_string s) (list_ascii_of_string s').

(** No letter A to Z is left. *)
Definition no_capital (s : string) : Prop :=
  Forall (λ c, ¬ (65 ≤ nat_of_ascii c ≤ 90)%nat) (list_ascii_of_string s).

(** *** How a candidate lands in the state *)

(** Every step of the three passes changes the state in one of five ways;
    the invariants below are proved by cases on this relation. *)
Inductive lands (suffix : string) (st : merge_state) (v : vendor)
  : merge_state → Prop :=
  | lands_unchanged :
      lands suffix st v st
  | lands_grow m e b :
      dict_get m (vendors_by_id st) = Some e →
      b ⊆ v_domains v →
      lands suffix st v
        (MergeState
           (dict_set m (set_domains (sorted_union (v_domains e) b) e)
              (vendors_by_id st))
           (register b m (domain_to_id st)))
  | lands_indexed :
      suffix = "" →
      lands suffix st v
        (MergeState (dict_set (v_id v) v (vendors_by_id st))
                    (register (v_domains v) (v_id v) (domain_to_id st)))
  | lands_fresh :
      v_id v ∉ dict_keys (vendors_by_id st) →
      lands suffix st v
        (MergeState (dict_set (v_id v) v (vendors_by_id st))
                    (register (v_domains v) (v_id v) (domain_to_id st)))
  | lands_renamed :
      v_id v ∈ dict_keys (vendors_by_id st) →
      lands suffix st v
        (MergeState
           (dict_set (v_id v +:+ suffix) (set_id (v_id v +:+ suffix) v)
              (vendors_by_id st))
           (register (v_domains v) (v_id v +:+ suffix) (domain_to_id st))).

(** *** Well-formed states *)

Record wf (st : merge_state) : Prop := {
  wf_nodup : NoDup (dict_keys (vendors_by_id st));
  wf_key : ∀ k v, (k, v) ∈ vendors_by_id st → v_id v = k;
  wf_idx : ∀ d i,
    domain_to_id st !! d = Some i → i ∈ dict_keys (vendors_by_id st)
}.

(** A property of records that holds of every stored record. *)
Definition all_records (G : vendor → Prop) (st : merge_state) : Prop :=
  ∀ k v, (k, v) ∈ vendors_by_id st → G v.

(** *** Premium records *)


Definition same_description (n e : vendor) : Prop :=
  v_id e = v_id n ∧ v_name e = v_name n ∧ v_company e = v_company n
  ∧ v_category e = v_category n ∧ v_risk_score e = v_risk_score n
  ∧ v_gdpr_compliant e = v_gdpr_compliant n ∧ v_tier e = v_tier n.

(** The record [n] is still stored under its id, with its description and
    at least its domains. *)
Definition kept (n : vendor) (st : merge_state) : Prop :=
  ∃ e, dict_get (v_id n) (vendors_by_id st) = Some e
       ∧ same_description n e ∧ v_domains n ⊆ v_domains e.

(** What the normalizer leaves alone. *)
Definition normal (v : vendor) : Prop :=
  Forall domain_ok (v_domains v)
  ∧ 1 ≤ v_risk_score v ≤ 10
  ∧ v_category v ∈ VALID_CATEGORIES.

(** *** Unique ownership of domains *)

(** Every domain of a stored record is indexed to that record. *)
Definition owns_its_domains (st : merge_state) : Prop :=
  ∀ k v d, (k, v) ∈ vendors_by_id st → d ∈ v_domains v →
           domain_to_id st !! d = Some k.

Definition owners_truthy (st : merge_state) : Prop :=
  ∀ d i, domain_to_id st !! d = Some i → truthy i = true.

(** No domain of [ds] is indexed to an id other than [k]. *)
Definition owned_only_by (idx : gmap string string) (ds : list string)
    (k : string) : bool :=
  forallb (λ d, match idx !! d with
                | Some i => bool_decide (i = k)
                | None => true
                end) ds.

(** The owned domains of [ds] have one owner. *)
Definition single_owner (idx : gmap string string) (ds : list string) : bool :=
  match find_owner idx ds with
  | Some m => owned_only_by idx ds m
  | None => true
  end.

(** No premium record lists a domain of an earlier premium record with
    another id. *)
Fixpoint premium_disjoint (st : merge_state) (rs : list raw_vendor) : bool :=
  match rs with
  | [] => true
  | r :: rs' =>
      let v := normalize_vendor r in
      owned_only_by (domain_to_id st) (v_domains v) (v_id v)
      && premium_disjoint (premium_step st r) rs'
  end.

(** No candidate of the pass straddles two owners when it is processed. *)
Fixpoint no_straddling (step : merge_state → raw_vendor → option merge_state)
    (st : merge_state) (rs : list raw_vendor) : bool :=
  match rs with
  | [] => true
  | r :: rs' =>
      single_owner (domain_to_id st) (v_domains (normalize_vendor r))
      && match step st r with
         | Some st' => no_straddling step st' rs'
         | None => true
         end
  end.

Definition well_separated (premium duckduckgo disconnect : list raw_vendor)
  : bool :=
  premium_disjoint empty_state (mark_premium <$> premium)
  && no_straddling ddg_step (premium_pass premium) (default_tier <$> duckduckgo)
  && match run_pass ddg_step (premium_pass premium)
             (default_tier <$> duckduckgo) with
     | Some st => no_straddling disconnect_step st (default_tier <$> disconnect)
     | None => true
     end.

Definition separated (st : merge_state) : Prop :=
  owns_its_domains st ∧ owners_truthy st.


(** *** Where the output comes from *)

(** The id order of the output, strictly. *)
Definition id_lt (v w : vendor) : Prop :=
  String.ltb (v_id v) (v_id w) = true.


(** The ids of a list of input records. *)
Definition ids_of (rs : list raw_vendor) : list string :=
  (λ r, v_id (normalize_vendor r)) <$> rs.

(** Every domain of the records of [Q] is listed by a stored record, and
    every key of the table is the id of a record of [Q]. *)
Definition covers (Q : list raw_vendor) (st : merge_state) : Prop :=
  (∀ k, k ∈ dict_keys (vendors_by_id st) →
        k ∈ (λ r, v_id (normalize_vendor r)) <$> Q)
  ∧ (∀ r d, r ∈ Q → d ∈ v_domains (normalize_vendor r) →
            ∃ k v, dict_get k (vendors_by_id st) = Some v ∧ d ∈ v_domains v).


(** ** The data directory and [main] *)

(** A category of the catalog: a dict that may lack its [id]. *)
Record category : Type := Category {
  c_id : option string;
  c_rest : gmap string pyval
}.

(** The [VendorDatabase] wrapper, as a JSON object that may lack any key. *)
Record database : Type := Database {
  db_version : option string;
  db_last_updated : option string;
  db_vendors : option (list raw_vendor);
  db_categories : option (list category)
}.

(** What [json.load] can return: an object, an array of vendor records, or
    any other value (a string, a number, [true], [false], [null]). *)
Inductive document : Type :=
  | DObject (db : database)
  | DList (vendors : list raw_vendor)
  | DOther.

Inductive file : Type :=
  | Missing
  | Unparsable
  | Parsed (d : document).

Record data_dir : Type := DataDir {
  vendors_json : file;
  vendors_duckduckgo_json : file;
  vendors_disconnect_json : file;
  vendors_backup_json : file;
  core_dir_exists : bool;
  core_vendors_json : file
}.

Definition NEW_CATEGORIES : list category :=
  [ Category (Some "email_marketing")
      (<["name" := PStr "Email Marketing"]>
         (<["description" :=
              PStr "Email tracking pixels, open tracking, and email marketing platforms"]>
            (<["risk_level" := PStr "medium"]> ∅))) ].

Definition load_vendors (f : file) : error + list raw_vendor :=
  match f with
  | Missing => inr []
  | Unparsable => inl JSONDecodeError
  | Parsed (DObject db) =>
      match db_vendors db with
      | Some vendors => inr vendors
      | None => inr []
      end
  | Parsed (DList vendors) => inr vendors
  | Parsed DOther => inr []
  end.

(** [data.get('categories', [])]: only a dict has [get]. *)
Definition load_categories (f : file) : error + list category :=
  match f with
  | Missing => inr []
  | Unparsable => inl JSONDecodeError
  | Parsed (DObject db) => inr (default [] (db_categories db))
  | Parsed (DList _) => inl AttributeError
  | Parsed DOther => inl AttributeError
  end.

(** [{c['id'] for c in existing_categories}] *)
Fixpoint category_ids (cs : list category) : error + list string :=
  match cs with
  | [] => inr []
  | c :: cs' =>
      match c_id c with
      | None => inl KeyError
      | Some i =>
          match category_ids cs' with
          | inl e => inl e
          | inr ids => inr (i :: ids)
          end
      end
  end.

(** The loop of lines 299-302 over the new categories. *)
Fixpoint append_new (existing_cat_ids : list string) (new_cats : list category)
    (existing_categories : list category) : error + list category :=
  match new_cats with
  | [] => inr existing_categories
  | new_cat :: new_cats' =>
      match c_id new_cat with
      | None => inl KeyError
      | Some i =>
          append_new existing_cat_ids new_cats'
            (if bool_decide (i ∈ existing_cat_ids) then existing_categories
             else existing_categories ++ [new_cat])
      end
  end.

(** Lines 297-302: the ids are collected once, before the loop. *)
Definition add_new_categories (existing : list category)
  : error + list category :=
  match category_ids existing with
  | inl e => inl e
  | inr existing_cat_ids => append_new existing_cat_ids NEW_CATEGORIES existing
  end.

Definition set_backup (f : file) (dir : data_dir) : data_dir :=
  DataDir (vendors_json dir) (vendors_duckduckgo_json dir)
          (vendors_disconnect_json dir) f (core_dir_exists dir)
          (core_vendors_json dir).

Definition set_vendors_json (f : file) (dir : data_dir) : data_dir :=
  DataDir f (vendors_duckduckgo_json dir) (vendors_disconnect_json dir)
          (vendors_backup_json dir) (core_dir_exists dir)
          (core_vendors_json dir).

Definition set_core_vendors_json (f : file) (dir : data_dir) : data_dir :=
  DataDir (vendors_json dir) (vendors_duckduckgo_json dir)
          (vendors_disconnect_json dir) (vendors_backup_json dir)
          (core_dir_exists dir) f.

(** The document [main] writes. *)
Definition vendor_db (now : string) (merged : list vendor)
    (categories : list category) : file :=
  Parsed (DObject (Database (Some "3.0.0") (Some now)
                            (Some (as_input <$> merged)) (Some categories))).

(** [main], without its printing: the directory it leaves and the exception
    it ends with, if any; [now] is the time stamp. *)
Definition main (dir : data_dir) (now : string) : data_dir * option error :=
  match load_vendors (vendors_json dir) with
  | inl e => (dir, Some e)
  | inr premium =>
  match load_vendors (vendors_duckduckgo_json dir) with
  | inl e => (dir, Some e)
  | inr duckduckgo =>
  match load_vendors (vendors_disconnect_json dir) with
  | inl e => (dir, Some e)
  | inr disconnect =>
      let dir :=
        match vendors_json dir with
        | Missing => dir
        | original => set_backup original dir
        end in
      match merge_vendors premium duckduckgo disconnect with
      | None => (dir, Some KeyError)
      | Some merged =>
      match load_categories (vendors_json dir) with
      | inl e => (dir, Some e)
      | inr existing_categories =>
      match add_new_categories existing_categories with
      | inl e => (dir, Some e)
      | inr categories =>
          let output := vendor_db now merged categories in
          let dir := set_vendors_json output dir in
          (if core_dir_exists dir then set_core_vendors_json output dir
           else dir, None)
      end end end
  end end end.

(** The risk distribution of lines 268-279, as the four counts critical,
    high, medium, low. *)
Definition count_risk (risk_dist : nat * nat * nat * nat) (v : vendor)
  : nat * nat * nat * nat :=
  let '(critical, high, medium, low) := risk_dist in
  let score := v_risk_score v in
  if bool_decide (8 ≤ score) then (S critical, high, medium, low)
  else if bool_decide (6 ≤ score) then (critical, S high, medium, low)
  else if bool_decide (4 ≤ score) then (critical, high, S medium, low)
  else (critical, high, medium, S low).

Definition risk_dist (merged : list vendor) : nat * nat * nat * nat :=
  foldl count_risk (0, 0, 0, 0)%nat merged.

(** The number of records with a score from [a] to [b]. *)
Definition scored (a b : Z) (l : list vendor) : nat :=
  length (filter (λ v, a ≤ v_risk_score v ≤ b) l).

Definition is_object (d : document) : bool :=
  match d with DObject _ => true | _ => false end.

Definition readable (f : file) : bool :=
  match f with Unparsable => false | _ => true end.

(** The exception [main] ends with, if any. *)
Definition outcome (dir : data_dir) (now : string) : option error :=
  snd (main dir now).

(** The directory a run without exception leaves. *)
Definition written (dir : data_dir) (output : file) : data_dir :=
  DataDir output (vendors_duckduckgo_json dir) (vendors_disconnect_json dir)
          match vendors_json dir with
          | Missing => vendors_backup_json dir
          | original => original
          end
          (core_dir_exists dir)
          (if core_dir_exists dir then output else core_vendors_json dir).


(** ** The importers *)

(** *** [sanitize_id], the same in both importers *)

(** [re.sub] replaces per character and [len] counts characters; on the
    bytes of a string that is the same for ASCII strings, which is what
    domain names are and what the statements about company names assume. *)

Definition is_id_char (c : ascii) : bool :=
  let n := Z.of_N (N_of_ascii c) in
  ((97 <=? n) && (n <=? 122)) || ((48 <=? n) && (n <=? 57)) || (n =? 45).

Definition is_dash (c : ascii) : bool := Z.of_N (N_of_ascii c) =? 45.

(** [re.sub(r'[^a-z0-9-]', '-', s)] *)
Fixpoint sub_non_id (s : string) : string :=
  match s with
  | EmptyString => EmptyString
  | String c s' => String (if is_id_char c then c else "-"%char) (sub_non_id s')
  end.

Fixpoint lstrip_dash (s : string) : string :=
  match s with
  | EmptyString => EmptyString
  | String c s' => if is_dash c then lstrip_dash s' else s
  end.

Fixpoint rstrip_dash (s : string) : string :=
  match s with
  | EmptyString => EmptyString
  | String c s' =>
      match rstrip_dash s' with
      | EmptyString => if is_dash c then EmptyString else String c EmptyString
      | rest => String c rest
      end
  end.

(** [s.strip('-')] *)
Definition strip_dash (s : string) : string := rstrip_dash (lstrip_dash s).

Definition sanitize_id (name : string) : string :=
  strip_dash (sub_non_id (lower name)).

Fixpoint chars (s : string) : list ascii :=
  match s with
  | EmptyString => []
  | String c s' => c :: chars s'
  end.

Definition is_digit (c : ascii) : bool :=
  let n := Z.of_N (N_of_ascii c) in (48 <=? n) && (n <=? 57).

Fixpoint skip_digits (s : string) : string :=
  match s with
  | EmptyString => EmptyString
  | String c s' => if is_digit c then skip_digits s' else s
  end.

(** [\d+] followed by what [k] matches *)
Definition digits_then (k : string → bool) (s : string) : bool :=
  match s with
  | EmptyString => false
  | String c s' => is_digit c && k (skip_digits s')
  end.

(** [\.] followed by what [k] matches *)
Definition dot_then (k : string → bool) (s : string) : bool :=
  match s with
  | String "."%char s' => k s'
  | _ => false
  end.

(** [$]: the end of the string, or a newline that ends it *)
Definition at_end (s : string) : bool :=
  match s with
  | EmptyString => true
  | String "010"%char EmptyString => true
  | _ => false
  end.

(** [re.match(r'^\d+\.\d+\.\d+\.\d+$', s)] *)
Definition is_ip_address (s : string) : bool :=
  digits_then (dot_then (digits_then (dot_then (digits_then
    (dot_then (digits_then at_end)))))) s.

Definition starts_with_underscore (s : string) : bool :=
  match s with
  | String "_"%char _ => true
  | _ => false
  end.

(** [vendor['domains'] = ds] on an input dict *)
Definition set_r_domains (ds : list string) (r : raw_vendor) : raw_vendor :=
  RawVendor (r_id r) (Some ds) (r_name r) (r_company r) (r_category r)
            (r_gdpr_compliant r) (r_risk_score r) (r_tier r) (r_extra r).

(** The loops of the importers: the body may raise, which ends the loop. *)
Fixpoint for_each {A S : Type} (body : S → A → option S) (l : list A)
    (s : S) : option S :=
  match l with
  | [] => Some s
  | a :: l' => s' ← body s a; for_each body l' s'
  end.

(** *** [import-duckduckgo.py] *)

Module DuckDuckGo.

Definition CATEGORY_MAP : list (string * string) :=
  [ ("Advertising", "advertising");
    ("Ad Fraud", "advertising");
    ("Ad Motivated Tracking", "advertising");
    ("Analytics", "analytics");
    ("Audience Measurement", "analytics");
    ("Session Replay", "heatmaps");
    ("Online Payment", "payments");
    ("SSO", "security");
    ("Federated Login", "security");
    ("Badge", "social");
    ("Social - Comment", "social");
    ("Social - Share", "social");
    ("Social Network", "social");
    ("Third-Party Analytics Marketing", "analytics");
    ("Content Delivery", "cdn");
    ("CDN", "cdn");
    ("Embedded Content", "video");
    ("Non-Tracking", "other");
    ("Unknown High Risk Behavior", "other");
    ("Obscure Ownership", "other");
    ("Fingerprinting", "security");
    ("Action Pixels", "advertising");
    ("Consent Management", "consent");
    ("Customer Interaction", "chat");
    ("Tag Manager", "tag_manager");
    ("Email", "email_marketing");
    ("Performance", "analytics");
    ("Malware", "security");
    ("Pornvertising", "advertising") ].

Fixpoint map_category (categories : list string) : string :=
  match categories with
  | [] => "other"
  | cat :: categories' =>
      match dict_get cat CATEGORY_MAP with
      | Some c => c
      | None => map_category categories'
      end
  end.

(** The input of [calculate_risk_score]. *)
Record tracker : Type := Tracker {
  t_prevalence : option pyval;
  t_fingerprinting : option Z;
  t_cookies : option pyval;
  t_categories : option (list string)
}.

Definition high_risk_cats : list string :=
  [ "Advertising"; "Ad Motivated Tracking"; "Ad Fraud"; "Session Replay";
    "Fingerprinting" ].

(** [int(round(score))] for a score given in half points: Python rounds a
    half to the even neighbour. *)
Definition round_half_even (halves : Z) : Z :=
  let q := halves / 2 in
  if Z.even halves then q else if Z.even q then q else q + 1.

Section numbers.

(** Python's [>] on two JSON numbers.  Floats are not modelled; what is
    proved holds for every outcome of these comparisons. *)
Variable gt : pyval → pyval → bool.

(** The score is kept in half points: it starts at 5.0 and grows by 0.5, 1
    or 2 and by the integer [fingerprinting]. *)
Definition calculate_risk_score (t : tracker) : Z :=
  let score := 10 in
  let prevalence := default (PInt 0) (t_prevalence t) in
  let score :=
    if gt prevalence (PFloat "0.4") then score + 4
    else if gt prevalence (PFloat "0.2") then score + 2
    else if gt prevalence (PFloat "0.1") then score + 1
    else score in
  let fingerprinting := default 0 (t_fingerprinting t) in
  let score := score + 2 * fingerprinting in
  let cookies := default (PInt 0) (t_cookies t) in
  let score :=
    if gt cookies (PFloat "0.8") then score + 2
    else if gt cookies (PFloat "0.5") then score + 1
    else score in
  let categories := default [] (t_categories t) in
  let score :=
    if existsb (λ cat, bool_decide (cat ∈ high_risk_cats)) categories
    then score + 2 else score in
  Z.min (round_half_even score) 10.

(** The JSON of one domain file, every key optional. *)
Record owner : Type := Owner {
  o_name : option string;
  o_display_name : option string;
  o_privacy_policy : option string
}.

Record resource : Type := Resource { res_cookies : option pyval }.

Record radar_domain : Type := RadarDomain {
  d_domain : option string;
  d_owner : option owner;
  d_categories : option (list string);
  d_subdomains : option (list string);
  d_resources : option (list resource);
  d_prevalence : option pyval;
  d_fingerprinting : option Z;
  d_sites : option pyval
}.

(** The dict that [parse_duckduckgo_domain] builds. *)
Definition vendor_of (domain : string) (domains : list string)
    (name company category : string) (risk_score : Z)
    (prevalence cookies sites : pyval) (fingerprinting : Z)
    (privacy_policy : string) : raw_vendor :=
  let extra : gmap string pyval :=
    <["source" := PStr "duckduckgo-tracker-radar"]>
      (<["prevalence" := prevalence]>
         (<["fingerprinting" := PInt fingerprinting]>
            (<["cookies" := cookies]> (<["sites" := sites]> ∅)))) in
  RawVendor (Some (sanitize_id domain)) (Some domains) (Some name)
            (Some company) (Some category) (Some false) (Some risk_score)
            (Some "standard")
            (if truthy privacy_policy
             then <["privacy_policy" := PStr privacy_policy]> extra
             else extra).

(** [parse_duckduckgo_domain]; [contents] is [None] when the file cannot be
    read or is not JSON, [stem] is the file name without its suffix. *)
Definition parse_duckduckgo_domain (stem : string)
    (contents : option radar_domain) : option raw_vendor :=
  match contents with
  | None => None
  | Some data =>
      let domain := default stem (d_domain data) in
      if is_ip_address domain then None
      else if starts_with_underscore domain
              || (String.length domain <? 4)%nat then None
      else
        let owner := default (Owner None None None) (d_owner data) in
        let company := default "Unknown" (o_name owner) in
        let display_name := default company (o_display_name owner) in
        let privacy_policy := default "" (o_privacy_policy owner) in
        let categories := default [] (d_categories data) in
        let primary_category := map_category categories in
        let domains :=
          domain :: ((λ sub, sub +:+ "." +:+ domain)
                       <$> filter (λ sub, truthy sub = true)
                             (default [] (d_subdomains data))) in
        let max_cookies :=
          foldl (λ max_cookies resource,
                   let c := default (PInt 0) (res_cookies resource) in
                   if gt c max_cookies then c else max_cookies)
                (PInt 0) (default [] (d_resources data)) in
        let prevalence := default (PInt 0) (d_prevalence data) in
        let fingerprinting := default 0 (d_fingerprinting data) in
        let risk_score :=
          calculate_risk_score
            (Tracker (Some prevalence) (Some fingerprinting)
                     (Some max_cookies) (Some categories)) in
        Some (vendor_of domain (sorted_union domains [])
                (if bool_decide (display_name = "Unknown") then domain
                 else display_name)
                company primary_category risk_score prevalence max_cookies
                (default (PInt 0) (d_sites data)) fingerprinting
                privacy_policy)
  end.

(** [v.get('prevalence', 0)] *)
Definition prevalence_of (r : raw_vendor) : pyval :=
  default (PInt 0) (r_extra r !! "prevalence").

(** One round of the loop of [import_duckduckgo_tracker_radar] for a parsed
    vendor; [None] is a [KeyError] or [IndexError]. *)
Definition dedupe_step (vendors_by_domain : list (string * raw_vendor))
    (vendor : raw_vendor) : option (list (string * raw_vendor)) :=
  domains ← r_domains vendor;
  domain ← head domains;
  match dict_get domain vendors_by_domain with
  | None => Some (dict_set domain vendor vendors_by_domain)
  | Some existing =>
      existing_domains ← r_domains existing;
      let all_domains := sorted_union existing_domains domains in
      if gt (prevalence_of vendor) (prevalence_of existing)
      then Some (dict_set domain (set_r_domains all_domains vendor)
                   vendors_by_domain)
      else Some (dict_set domain (set_r_domains all_domains existing)
                   vendors_by_domain)
  end.

Fixpoint dedupe (vendors_by_domain : list (string * raw_vendor))
    (all_files : list (string * option radar_domain))
  : option (list (string * raw_vendor)) :=
  match all_files with
  | [] => Some vendors_by_domain
  | (stem, contents) :: all_files' =>
      match parse_duckduckgo_domain stem contents with
      | None => dedupe vendors_by_domain all_files'
      | Some vendor =>
          vendors_by_domain' ← dedupe_step vendors_by_domain vendor;
          dedupe vendors_by_domain' all_files'
      end
  end.

(** [import_duckduckgo_tracker_radar] on the domain files of all country
    folders, in the order they are listed; [None] for the argument when the
    [domains] folder does not exist. *)
Definition import_duckduckgo_tracker_radar
    (all_files : option (list (string * option radar_domain)))
  : option (list raw_vendor) :=
  match all_files with
  | None => Some []
  | Some all_files => dict_values <$> dedupe [] all_files
  end.

End numbers.

End DuckDuckGo.

(** *** [import-disconnect.py] *)

Module Disconnect.

Definition CATEGORY_MAP : list (string * string) :=
  [ ("Advertising", "advertising");
    ("Analytics", "analytics");
    ("Social", "social");
    ("Content", "cdn");
    ("Email", "email_marketing");
    ("EmailAggressive", "email_marketing");
    ("FingerprintingInvasive", "security");
    ("FingerprintingGeneral", "security");
    ("Anti-fraud", "security");
    ("ConsentManagers", "consent");
    ("Cryptomining", "other") ].

Definition RISK_BY_CATEGORY : list (string * Z) :=
  [ ("Advertising", 6);
    ("Analytics", 4);
    ("Social", 5);
    ("Content", 2);
    ("Email", 4);
    ("EmailAggressive", 5);
    ("FingerprintingInvasive", 8);
    ("FingerprintingGeneral", 6);
    ("Anti-fraud", 3);
    ("ConsentManagers", 1);
    ("Cryptomining", 9) ].

(** [isinstance(d, str) and '.' in d and len(d) > 3] *)
Definition is_domain (d : pyval) : option string :=
  match d with
  | PStr s =>
      if bool_decide ("."%char ∈ chars s) && (3 <? String.length s)%nat
      then Some s else None
  | _ => None
  end.

(** The domains that one value of a company's dict contributes. *)
Definition domains_of (value : pyval) : list string :=
  match value with
  | PList l => lower <$> omap is_domain l
  | _ => []
  end.

(** The loop over [company_data.items()]: the domains and the website. *)
Definition scan (company_data : list (string * pyval))
  : list string * string :=
  foldl (λ acc kv,
           (acc.1 ++ domains_of kv.2,
            if String.prefix "http" kv.1 then kv.1 else acc.2))
        ([], "") company_data.

(** The dict stored for a company that is seen for the first time. *)
Definition vendor_of (vendor_id : string) (domains : list string)
    (company_name etalon_category : string) (risk_score : Z)
    (category_name website : string) : raw_vendor :=
  let extra : gmap string pyval :=
    <["source" := PStr "disconnect"]>
      (<["disconnect_category" := PStr category_name]> ∅) in
  RawVendor (Some vendor_id) (Some domains) (Some company_name)
            (Some company_name) (Some etalon_category) (Some false)
            (Some risk_score) (Some "standard")
            (if truthy website then <["website" := PStr website]> extra
             else extra).

(** The body of [for company_name, company_data in entry.items()]; [None]
    is a [KeyError]. *)
Definition company_step (category_name etalon_category : string)
    (risk_score : Z) (vendors : list (string * raw_vendor))
    (company : string * list (string * pyval))
  : option (list (string * raw_vendor)) :=
  let company_name := company.1 in
  let company_data := company.2 in
  let vendor_id := sanitize_id company_name in
  if negb (truthy vendor_id) || (String.length vendor_id <? 2)%nat
  then Some vendors
  else
    let domains := (scan company_data).1 in
    let website := (scan company_data).2 in
    match domains with
    | [] => Some vendors
    | _ :: _ =>
        let domains := sorted_union domains [] in
        if dict_has vendor_id vendors then
          existing ← dict_get vendor_id vendors;
          existing_domains ← r_domains existing;
          Some (dict_set vendor_id
                  (set_r_domains (sorted_union existing_domains domains)
                     existing)
                  vendors)
        else
          Some (dict_set vendor_id
                  (vendor_of vendor_id domains company_name etalon_category
                     risk_score category_name website)
                  vendors)
    end.

(** The body of [for category_name, entries in ...items()]. *)
Definition category_step (vendors : list (string * raw_vendor))
    (category : string * list (list (string * list (string * pyval))))
  : option (list (string * raw_vendor)) :=
  let category_name := category.1 in
  let etalon_category := default "other" (dict_get category_name CATEGORY_MAP) in
  let risk_score := default 5 (dict_get category_name RISK_BY_CATEGORY) in
  for_each (λ vendors entry,
              for_each (company_step category_name etalon_category risk_score)
                       entry vendors)
           category.2 vendors.

(** The JSON object of [services.json]: its [categories] key, when it is
    there, maps a category name to a list of objects, each of which maps
    company names to objects. *)
Record services : Type := Services {
  s_categories
    : option (list (string * list (list (string * list (string * pyval)))))
}.

(** [parse_disconnect_services]; the argument is [None] when the file does
    not exist. *)
Definition parse_disconnect_services (file : option services)
  : option (list raw_vendor) :=
  match file with
  | None => Some []
  | Some data =>
      dict_values <$> for_each category_step (default [] (s_categories data)) []
  end.

End Disconnect.

(** *** Predicates of the statements about [sanitize_id] *)

Definition starts_with_dash (s : string) : bool :=
  match s with
  | EmptyString => false
  | String c _ => is_dash c
  end.

Fixpoint ends_with_dash (s : string) : bool :=
  match s with
  | EmptyString => false
  | String c EmptyString => is_dash c
  | String _ s' => ends_with_dash s'
  end.

(** *** Predicates of the statements about the DuckDuckGo import *)

(** What [parse_duckduckgo_domain] promises about the dict it returns. *)
Definition radar_vendor (domain : string) (v : raw_vendor) : Prop :=
  ∃ ds c score,
    r_id v = Some (sanitize_id domain)
    ∧ r_domains v = Some ds
    ∧ domain ∈ ds
    ∧ StronglySorted String.le ds
    ∧ NoDup ds
    ∧ r_category v = Some c ∧ c ∈ VALID_CATEGORIES
    ∧ r_risk_score v = Some score ∧ score ≤ 10
    ∧ r_tier v = Some "standard"
    ∧ r_gdpr_compliant v = Some false
    ∧ is_Some (r_name v) ∧ is_Some (r_company v).

(** The vendors that the files of the list parse to. *)
Definition parsed (gt : pyval → pyval → bool)
    (all_files : list (string * option DuckDuckGo.radar_domain))
    (v : raw_vendor) : Prop :=
  ∃ stem contents, (stem, contents) ∈ all_files
    ∧ DuckDuckGo.parse_duckduckgo_domain gt stem contents = Some v.

(** A record of the table is a parsed vendor whose domain list has grown; it
    is stored under the first entry of its sorted list. *)
Definition stored (P : raw_vendor → Prop) (k : string) (v : raw_vendor)
  : Prop :=
  ∃ v0 ds, P v0 ∧ v = set_r_domains ds v0
    ∧ default [] (r_domains v0) ⊆ ds
    ∧ head ds = Some k
    ∧ StronglySorted String.le ds ∧ NoDup ds.

Definition keyed (P : raw_vendor → Prop)
    (vendors_by_domain : list (string * raw_vendor)) : Prop :=
  ∀ k v, dict_get k vendors_by_domain = Some v → stored P k v.

Definition lists (vendors_by_domain : list (string * raw_vendor))
    (d : string) : Prop :=
  ∃ k v ds, dict_get k vendors_by_domain = Some v
            ∧ r_domains v = Some ds ∧ d ∈ ds.

(** Every domain of the table is a domain of a vendor in [P]. *)
Definition sourced (P : raw_vendor → Prop)
    (vendors_by_domain : list (string * raw_vendor)) : Prop :=
  ∀ d, lists vendors_by_domain d →
    ∃ v0, P v0 ∧ d ∈ default [] (r_domains v0).

(** *** Predicates of the statements about the importers *)

Definition valid_id (i : string) : Prop :=
  truthy i = true ∧ (2 ≤ String.length i)%nat.

(** A company of [services.json] with the category it is filed under. *)
Definition company_of
    (categories : list (string * list (list (string * list (string * pyval)))))
    (category_name company_name : string)
    (company_data : list (string * pyval)) : Prop :=
  ∃ entries entry,
    (category_name, entries) ∈ categories ∧ entry ∈ entries
    ∧ (company_name, company_data) ∈ entry.

(** The file offers the domain [d] for the vendor id [i]: a company whose
    name gives the id [i] has a list with a string that passes the filter
    and whose lower-case form is [d]. *)
Definition offered
    (categories : list (string * list (list (string * list (string * pyval)))))
    (i d : string) : Prop :=
  ∃ category_name company_name company_data key l s,
    company_of categories category_name company_name company_data
    ∧ sanitize_id company_name = i
    ∧ (key, PList l) ∈ company_data ∧ PStr s ∈ l
    ∧ "."%char ∈ chars s ∧ (3 < String.length s)%nat ∧ d = lower s.

(** What [parse_disconnect_services] promises about the record it stores
    under the id [k]; [Q] tells where its domains come from. *)
Definition disconnect_record (Q : string → string → Prop) (k : string)
    (v : raw_vendor) : Prop :=
  ∃ ds name c score e,
    v = RawVendor (Some k) (Some ds) (Some name) (Some name) (Some c)
                  (Some false) (Some score) (Some "standard") e
    ∧ sanitize_id name = k ∧ valid_id k
    ∧ ds ≠ [] ∧ StronglySorted String.le ds ∧ NoDup ds
    ∧ Forall domain_ok ds ∧ (∀ d, d ∈ ds → Q k d)
    ∧ c ∈ VALID_CATEGORIES ∧ 1 ≤ score ≤ 9.

(** Every company name of the file and every string of its lists is
    ASCII. *)
Definition ascii_value (x : pyval) : bool :=
  match x with
  | PList l =>
      forallb (λ d, match d with PStr s => is_ascii s | _ => true end) l
  | _ => true
  end.

Definition ascii_services
    (categories : list (string * list (list (string * list (string * pyval)))))
  : bool :=
  forallb
    (λ category,
       forallb
         (λ entry,
            forallb (λ company,
                       is_ascii company.1
                       && forallb (λ kv, ascii_value kv.2) company.2)
                    entry)
         category.2)
    categories.

(** The record stored under [i] lists the domain [d]. *)
Definition lists_for (vendors : list (string * raw_vendor)) (i d : string)
  : Prop :=
  ∃ v ds, dict_get i vendors = Some v ∧ r_domains v = Some ds ∧ d ∈ ds.

Definition table_ok (Q : string → string → Prop)
    (vendors : list (string * raw_vendor)) : Prop :=
  NoDup (dict_keys vendors)
  ∧ ∀ k v, dict_get k vendors = Some v → disconnect_record Q k v.

Definition grows (vendors vendors' : list (string * raw_vendor)) : Prop :=
  ∀ i d, lists_for vendors i d → lists_for vendors' i d.

(** The domains of a company with a usable id are listed under that id. *)
Definition covered (vendors : list (string * raw_vendor))
    (company : string * list (string * pyval)) : Prop :=
  valid_id (sanitize_id company.1) →
  ∀ d, d ∈ (Disconnect.scan company.2).1 →
       lists_for vendors (sanitize_id company.1) d.

(** A small [services.json]: one company filed under two categories, the
    second time under its sanitized name. *)
Definition acme_services : Disconnect.services :=
  Disconnect.Services
    (Some [ ("Advertising",
             [ [ ("Acme Ads",
                  [ ("http://www.acme.com/",
                     PList [PStr "Acme.com"; PStr "ads.acme.com"; PStr "x.y";
                            PInt 7]) ]) ] ]);
            ("Analytics",
             [ [ ("acme-ads",
                  [ ("https://acme.io/", PList [PStr "acme.io"]);
                    ("performance", PStr "true") ]) ] ]) ]).

Definition acme_record : raw_vendor :=
  Disconnect.vendor_of "acme-ads" ["acme.com"; "acme.io"; "ads.acme.com"]
    "Acme Ads" "advertising" 6 "Advertising" "http://www.acme.com/".

(** * Properties *)

(** The first scenario of the specification. *)
Example acme_scenario :
  merge_vendors [rec "acme" ["acme.com"]]
                [rec "acme-track" ["acme.com"; "t.acme.com"]]
                [rec "acme-track" ["acme.com"]]
  = Some [Vendor "acme" ["acme.com"; "t.acme.com"] "acme" "Unknown" "other"
                 false 5 (Some "premium") ∅].
Proof. by vm_compute. Qed.

(** The second one: two records with the id "foo" and disjoint domains. *)
Example rename_scenario :
  merge_vendors [] [rec "foo" ["a.com"]] [rec "foo" ["b.com"]]
  = Some [Vendor "foo" ["a.com"] "foo" "Unknown" "other" false 5
                 (Some "standard") ∅;
          Vendor "foo-dc" ["b.com"] "foo" "Unknown" "other" false 5
                 (Some "standard") ∅].
Proof. by vm_compute. Qed.

(** ** Lower-casing *)

Lemma lower_char_not_upper c : is_upper (lower_char c) = false.
Proof.
  destruct c as [[] [] [] [] [] [] [] []]; vm_compute; reflexivity.
Qed.

Lemma has_upper_lower s : has_upper (lower s) = false.
Proof.
  induction s as [|c s IH]; simpl; [done|].
  by rewrite lower_char_not_upper, IH.
Qed.

Lemma lower_fixed s : has_upper s = false → lower s = s.
Proof.
  induction s as [|c s IH]; simpl; [done|].
  intros [Hc Hs]%orb_false_elim. unfold lower_char. rewrite Hc.
  by rewrite IH.
Qed.

Lemma lower_idemp s : lower (lower s) = lower s.
Proof. apply lower_fixed, has_upper_lower. Qed.

Lemma truthy_lower s : truthy (lower s) = truthy s.
Proof. by destruct s. Qed.

Lemma lower_domains_ok ds : Forall domain_ok (lower_domains ds).
Proof.
  unfold lower_domains. apply Forall_forall.
  intros d (d0 & -> & [Hd _]%list_elem_of_filter)%list_elem_of_fmap. split.
  - apply has_upper_lower.
  - by rewrite truthy_lower.
Qed.

Lemma lower_domains_fixed ds : Forall domain_ok ds → lower_domains ds = ds.
Proof.
  unfold lower_domains. induction 1 as [|d ds [Hu Ht] _ IH]; [done|].
  rewrite filter_cons_True by done. rewrite fmap_cons.
  by rewrite lower_fixed, IH.
Qed.

Lemma lower_domains_app a b :
  lower_domains (a ++ b) = lower_domains a ++ lower_domains b.
Proof. unfold lower_domains. by rewrite filter_app, fmap_app. Qed.

(** ** Dict lemmas *)

Section dict_facts.
Context {V : Type}.
Implicit Types (d : list (string * V)) (k : string) (x : V).

Lemma dict_get_set_eq k x d : dict_get k (dict_set k x d) = Some x.
Proof.
  induction d as [|[k' y] d IH]; simpl.
  - by rewrite bool_decide_eq_true_2.
  - case_bool_decide; simpl.
    + by rewrite bool_decide_eq_true_2.
    + by rewrite bool_decide_eq_false_2.
Qed.

Lemma dict_get_set_ne k k' x d :
  k ≠ k' → dict_get k' (dict_set k x d) = dict_get k' d.
Proof.
  intros Hne. induction d as [|[k'' y] d IH]; simpl.
  - by rewrite bool_decide_eq_false_2.
  - case_bool_decide; simpl.
    + subst. by rewrite !bool_decide_eq_false_2.
    + case_bool_decide; [done|apply IH].
Qed.

Lemma dict_get_elem_of k x d : dict_get k d = Some x → (k, x) ∈ d.
Proof.
  induction d as [|[k' y] d IH]; simpl; [done|].
  case_bool_decide.
  - intros [= ->]. subst. apply list_elem_of_here.
  - intros. apply list_elem_of_further. auto.
Qed.

Lemma dict_get_None k d : dict_get k d = None ↔ k ∉ dict_keys d.
Proof.
  unfold dict_keys. induction d as [|[k' y] d IH]; simpl.
  - split; [intros _; apply not_elem_of_nil|done].
  - rewrite not_elem_of_cons. case_bool_decide as Hk.
    + split; [done|]. intros [Hne _]. by destruct Hne.
    + rewrite IH. split; [|by intros [_ ?]].
      intros ?. split; [congruence|done].
Qed.

Lemma dict_get_is_Some k d : is_Some (dict_get k d) ↔ k ∈ dict_keys d.
Proof.
  rewrite <-not_eq_None_Some, dict_get_None.
  destruct (decide (k ∈ dict_keys d)); naive_solver.
Qed.

Lemma dict_has_true k d : dict_has k d = true ↔ k ∈ dict_keys d.
Proof. unfold dict_has. by rewrite bool_decide_eq_true, dict_get_is_Some. Qed.

Lemma dict_has_false k d : dict_has k d = false ↔ k ∉ dict_keys d.
Proof.
  unfold dict_has. by rewrite bool_decide_eq_false, dict_get_is_Some.
Qed.

Lemma elem_of_dict_get k x d :
  NoDup (dict_keys d) → (k, x) ∈ d → dict_get k d = Some x.
Proof.
  unfold dict_keys. induction d as [|[k' y] d IH]; simpl.
  - intros _ []%elem_of_nil.
  - intros [Hk Hd]%NoDup_cons [[= -> ->]|Hin]%elem_of_cons.
    + by rewrite bool_decide_eq_true_2.
    + rewrite bool_decide_eq_false_2; [by apply IH|].
      intros ->. apply Hk. by apply (list_elem_of_fmap_2 fst) in Hin.
Qed.

Lemma dict_set_new k x d : k ∉ dict_keys d → dict_set k x d = d ++ [(k, x)].
Proof.
  unfold dict_keys. induction d as [|[k' y] d IH]; simpl; [done|].
  intros [Hne Hd]%not_elem_of_cons.
  rewrite bool_decide_eq_false_2 by done. f_equal. by apply IH.
Qed.

Lemma dict_keys_set_old k x d :
  k ∈ dict_keys d → dict_keys (dict_set k x d) = dict_keys d.
Proof.
  unfold dict_keys. induction d as [|[k' y] d IH]; simpl.
  - intros []%elem_of_nil.
  - case_bool_decide; simpl; [by subst|].
    intros [->|Hin]%elem_of_cons; [done|]. f_equal. by apply IH.
Qed.

Lemma dict_keys_set k x d :
  dict_keys (dict_set k x d) =
  if dict_has k d then dict_keys d else dict_keys d ++ [k].
Proof.
  destruct (dict_has k d) eqn:Hk.
  - apply dict_keys_set_old. by apply dict_has_true.
  - apply dict_has_false in Hk. rewrite dict_set_new by done.
    unfold dict_keys. by rewrite fmap_app.
Qed.

Lemma dict_set_NoDup k x d :
  NoDup (dict_keys d) → NoDup (dict_keys (dict_set k x d)).
Proof.
  intros Hd. rewrite dict_keys_set. destruct (dict_has k d) eqn:Hk; [done|].
  apply dict_has_false in Hk. apply NoDup_app. split_and!; [done| |].
  - intros y Hy ->%list_elem_of_singleton. done.
  - apply NoDup_singleton.
Qed.

Lemma elem_of_dict_set k' y k x d :
  (k', y) ∈ dict_set k x d → (k', y) = (k, x) ∨ (k', y) ∈ d.
Proof.
  induction d as [|[k'' z] d IH]; simpl.
  - intros ->%list_elem_of_singleton. by left.
  - case_bool_decide.
    + intros [->|?]%elem_of_cons; [by left|].
      right. by apply list_elem_of_further.
    + intros [->|?]%elem_of_cons; [right; apply list_elem_of_here|].
      destruct IH as [?|?]; [done|by left|].
      right. by apply list_elem_of_further.
Qed.
End dict_facts.

(** ** Sorting lemmas *)

Lemma elem_of_sorted_union a b x : x ∈ sorted_union a b ↔ x ∈ a ∨ x ∈ b.
Proof.
  unfold sorted_union.
  by rewrite merge_sort_Permutation, elem_of_remove_dups, elem_of_app.
Qed.

Lemma NoDup_sorted_union a b : NoDup (sorted_union a b).
Proof.
  unfold sorted_union. rewrite merge_sort_Permutation.
  apply NoDup_remove_dups.
Qed.

Lemma Sorted_sorted_union a b : Sorted String.le (sorted_union a b).
Proof. apply (Sorted_merge_sort String.le). Qed.

Lemma sorted_union_nonempty a b : a ≠ [] → sorted_union a b ≠ [].
Proof.
  destruct a as [|x a]; [done|]. intros _ Hnil.
  assert (x ∈ sorted_union (x :: a) b) as Hx.
  { apply elem_of_sorted_union. left. apply list_elem_of_here. }
  rewrite Hnil in Hx. by apply elem_of_nil in Hx.
Qed.

Lemma insert_by_id_perm v l : insert_by_id v l ≡ₚ v :: l.
Proof.
  induction l as [|w l IH]; simpl; [done|].
  destruct (String.leb _ _); [done|].
  rewrite IH. apply Permutation_swap.
Qed.

Lemma sort_by_id_perm l : sort_by_id l ≡ₚ l.
Proof.
  induction l as [|v l IH]; simpl; [done|].
  by rewrite insert_by_id_perm, IH.
Qed.

Lemma elem_of_sort_by_id v l : v ∈ sort_by_id l ↔ v ∈ l.
Proof. by rewrite sort_by_id_perm. Qed.

Lemma insert_by_id_sorted v l :
  Sorted id_le l → Sorted id_le (insert_by_id v l).
Proof.
  induction 1 as [|w l Hl IH Hw]; simpl.
  - by repeat constructor.
  - destruct (String.leb (v_id v) (v_id w)) eqn:Hvw.
    + constructor; [by constructor|]. constructor.
      unfold id_le, String.le. by rewrite Hvw.
    + constructor; [done|].
      assert (id_le w v) as Hwv.
      { unfold id_le, String.le.
        destruct (String.leb_total (v_id v) (v_id w)) as [H|H];
          [congruence|by rewrite H]. }
      destruct Hw as [|u l Hwu]; simpl; [by constructor|].
      destruct (String.leb (v_id v) (v_id u)); by constructor.
Qed.

Lemma sort_by_id_sorted l : Sorted id_le (sort_by_id l).
Proof.
  induction l as [|v l IH]; simpl; [constructor|].
  by apply insert_by_id_sorted.
Qed.

Lemma sort_by_id_fixed l : Sorted id_le l → sort_by_id l = l.
Proof.
  induction 1 as [|v l Hl IH Hv]; simpl; [done|].
  rewrite IH. destruct Hv as [|w l Hvw]; simpl; [done|].
  unfold id_le, String.le in Hvw. by destruct (String.leb _ _).
Qed.

(** ** The domain index *)

Lemma lookup_register ds vid idx d :
  register ds vid idx !! d = if decide (d ∈ ds) then Some vid else idx !! d.
Proof.
  unfold register. revert idx. induction ds as [|d' ds IH]; intros idx; simpl.
  - destruct (decide (d ∈ [])) as [H|_]; [by apply elem_of_nil in H|done].
  - rewrite IH. destruct (decide (d ∈ ds)) as [Hd|Hd].
    + by rewrite decide_True by (by apply list_elem_of_further).
    + destruct (decide (d = d')) as [->|Hne].
      * rewrite lookup_insert_eq.
        by rewrite decide_True by apply list_elem_of_here.
      * rewrite lookup_insert_ne by done.
        rewrite decide_False; [done|].
        by intros [?|?]%elem_of_cons.
Qed.

Lemma lookup_register_Some ds vid idx d i :
  register ds vid idx !! d = Some i → i = vid ∨ idx !! d = Some i.
Proof.
  rewrite lookup_register. destruct (decide _); [|by right].
  intros [= <-]. by left.
Qed.

(** ** How a candidate lands in the state *)

Lemma difference_subseteq a b : difference a b ⊆ a.
Proof. intros x [_ ?]%list_elem_of_filter. done. Qed.

Lemma premium_step_lands st r :
  lands "" st (normalize_vendor r) (premium_step st r).
Proof. by apply lands_indexed. Qed.

Lemma absorb_new_lands suffix st m v st' :
  absorb_new st m v = Some st' → lands suffix st v st'.
Proof.
  unfold absorb_new. destruct (dict_get m (vendors_by_id st)) as [e|] eqn:He;
    simpl; [|done].
  destruct (difference (v_domains v) (v_domains e)) as [|d ds] eqn:Hd;
    intros [= <-]; [apply lands_unchanged|].
  rewrite <-Hd. apply lands_grow; [done|apply difference_subseteq].
Qed.

Lemma absorb_all_lands suffix st m v st' :
  absorb_all st m v = Some st' → lands suffix st v st'.
Proof.
  unfold absorb_all. destruct (dict_get m (vendors_by_id st)) as [e|] eqn:He;
    simpl; [|done].
  intros [= <-]. by apply lands_grow.
Qed.

Lemma insert_new_lands suffix st v : lands suffix st v (insert_new suffix st v).
Proof.
  unfold insert_new. destruct (dict_has _ _) eqn:Hk; simpl.
  - apply lands_renamed. by apply dict_has_true.
  - apply lands_fresh. by apply dict_has_false.
Qed.

Lemma ddg_step_lands st r st' :
  ddg_step st r = Some st' → lands "-ddg" st (normalize_vendor r) st'.
Proof.
  unfold ddg_step.
  destruct (find_premium st _) as [mp|]; simpl; [|done].
  destruct (matched mp); [apply absorb_new_lands|].
  destruct (matched (find_owner _ _)); [apply absorb_all_lands|].
  intros [= <-]. apply insert_new_lands.
Qed.

Lemma disconnect_step_lands st r st' :
  disconnect_step st r = Some st' → lands "-dc" st (normalize_vendor r) st'.
Proof.
  unfold disconnect_step.
  destruct (matched (find_owner _ _)); [apply absorb_new_lands|].
  intros [= <-]. apply insert_new_lands.
Qed.

(** ** Iterating a pass *)

Lemma run_pass_invariant step (I : merge_state → Prop) rs st st' :
  (∀ s r s', r ∈ rs → I s → step s r = Some s' → I s') →
  I st → run_pass step st rs = Some st' → I st'.
Proof.
  revert st. induction rs as [|r rs IH]; intros st Hstep Hst; simpl.
  - by intros [= <-].
  - destruct (step st r) as [s|] eqn:Hs; simpl; [|done].
    apply IH.
    + intros ??? Hin. apply Hstep. by apply list_elem_of_further.
    + eapply Hstep; [apply list_elem_of_here|done..].
Qed.

Lemma foldl_invariant {A} (f : merge_state → A → merge_state)
    (I : merge_state → Prop) rs st :
  (∀ s r, r ∈ rs → I s → I (f s r)) → I st → I (foldl f st rs).
Proof.
  revert st. induction rs as [|r rs IH]; intros st Hstep Hst; simpl; [done|].
  apply IH.
  - intros ?? Hin. apply Hstep. by apply list_elem_of_further.
  - apply Hstep; [apply list_elem_of_here|done].
Qed.

Lemma run_pass_app step st rs1 rs2 :
  run_pass step st (rs1 ++ rs2) =
  st' ← run_pass step st rs1; run_pass step st' rs2.
Proof.
  revert st. induction rs1 as [|r rs1 IH]; intros st; simpl; [done|].
  destruct (step st r); simpl; [apply IH|done].
Qed.

(** ** Well-formed states *)

Lemma wf_empty : wf empty_state.
Proof.
  split; simpl.
  - apply NoDup_nil_2.
  - intros ?? []%elem_of_nil.
  - intros ??. by rewrite lookup_empty.
Qed.

Lemma dict_keys_set_mono {V} k k' (x : V) d :
  k' ∈ dict_keys d → k' ∈ dict_keys (dict_set k x d).
Proof.
  rewrite dict_keys_set. destruct (dict_has k d); [done|].
  intros ?. apply elem_of_app. by left.
Qed.

Lemma dict_keys_set_own {V} k (x : V) d : k ∈ dict_keys (dict_set k x d).
Proof. apply dict_get_is_Some. rewrite dict_get_set_eq. by eexists. Qed.

Lemma wf_update st k v ds :
  wf st → v_id v = k →
  wf (MergeState (dict_set k v (vendors_by_id st))
                 (register ds k (domain_to_id st))).
Proof.
  intros [Hnd Hkey Hidx] Hv. split; simpl.
  - by apply dict_set_NoDup.
  - intros k' v' [[= -> ->]|Hin]%elem_of_dict_set; [done|by apply Hkey].
  - intros d i [->|Hi]%lookup_register_Some.
    + apply dict_keys_set_own.
    + eapply dict_keys_set_mono, Hidx, Hi.
Qed.

Lemma wf_lands suffix st v st' : wf st → lands suffix st v st' → wf st'.
Proof.
  intros Hwf. destruct 1 as [|m e b He Hb| | |]; [done|..];
    try by apply wf_update.
  apply wf_update; [done|]. simpl.
  by apply (wf_key _ Hwf), dict_get_elem_of.
Qed.

Lemma wf_premium_pass premium : wf (premium_pass premium).
Proof.
  unfold premium_pass. apply foldl_invariant; [|apply wf_empty].
  intros s r _ Hs. eapply wf_lands; [done|apply premium_step_lands].
Qed.

Lemma wf_ddg_pass st rs st' :
  wf st → run_pass ddg_step st rs = Some st' → wf st'.
Proof.
  apply run_pass_invariant. intros s r s' _ Hs Hstep.
  eapply wf_lands, ddg_step_lands; done.
Qed.

Lemma wf_disconnect_pass st rs st' :
  wf st → run_pass disconnect_step st rs = Some st' → wf st'.
Proof.
  apply run_pass_invariant. intros s r s' _ Hs Hstep.
  eapply wf_lands, disconnect_step_lands; done.
Qed.

Lemma wf_merge_state_of premium duckduckgo disconnect st :
  merge_state_of premium duckduckgo disconnect = Some st → wf st.
Proof.
  unfold merge_state_of.
  destruct (run_pass ddg_step _ _) as [st2|] eqn:H2; simpl; [|done].
  apply wf_disconnect_pass. eapply wf_ddg_pass, H2. apply wf_premium_pass.
Qed.

(** ** No step raises *)

Lemma find_owner_Some idx ds i :
  find_owner idx ds = Some i →
  ∃ l1 d l2, ds = l1 ++ d :: l2 ∧ idx !! d = Some i ∧
             Forall (λ x, idx !! x = None) l1.
Proof.
  induction ds as [|d ds IH]; simpl; [done|].
  destruct (idx !! d) as [j|] eqn:Hd.
  - intros [= ->]. by exists [], d, ds.
  - intros (l1 & d' & l2 & -> & ? & ?)%IH.
    exists (d :: l1), d', l2. split_and!; [done..|by constructor].
Qed.

Lemma find_owner_None idx ds :
  find_owner idx ds = None ↔ Forall (λ x, idx !! x = None) ds.
Proof.
  induction ds as [|d ds IH]; simpl; [by split; [constructor|]|].
  rewrite Forall_cons. destruct (idx !! d) eqn:Hd.
  - split; [done|]. by intros [? _].
  - rewrite IH. split; [by split|by intros [_ ?]].
Qed.

Lemma find_premium_total st ds : wf st → is_Some (find_premium st ds).
Proof.
  intros Hwf. induction ds as [|d ds IH]; simpl; [by eexists|].
  destruct (domain_to_id st !! d) as [i|] eqn:Hd; [|done].
  apply (wf_idx _ Hwf), dict_get_is_Some in Hd as [e ->]. simpl.
  by destruct (bool_decide _).
Qed.

Lemma find_premium_Some st ds i :
  find_premium st ds = Some (Some i) →
  ∃ d e, d ∈ ds ∧ domain_to_id st !! d = Some i ∧
         dict_get i (vendors_by_id st) = Some e ∧ v_tier e = Some "premium".
Proof.
  induction ds as [|d ds IH]; simpl; [done|].
  destruct (domain_to_id st !! d) as [j|] eqn:Hd.
  - destruct (dict_get j (vendors_by_id st)) as [e|] eqn:He; simpl; [|done].
    case_bool_decide as Ht.
    + intros [= ->]. exists d, e. split_and!; [apply list_elem_of_here|done..].
    + intros (d' & e' & ? & ?)%IH. exists d', e'.
      split; [by apply list_elem_of_further|done].
  - intros (d' & e' & ? & ?)%IH. exists d', e'.
    split; [by apply list_elem_of_further|done].
Qed.

Lemma matched_Some m i : matched m = Some i → m = Some i ∧ truthy i = true.
Proof.
  destruct m as [j|]; simpl; [|done].
  destruct (truthy j) eqn:Hj; [|done]. by intros [= ->].
Qed.

Lemma ddg_step_total st r : wf st → is_Some (ddg_step st r).
Proof.
  intros Hwf. unfold ddg_step.
  destruct (find_premium_total st (v_domains (normalize_vendor r)) Hwf)
    as [mp Hmp].
  rewrite Hmp. simpl. destruct (matched mp) as [m|] eqn:Hm.
  - apply matched_Some in Hm as [-> _].
    apply find_premium_Some in Hmp as (d & e & _ & _ & He & _).
    unfold absorb_new. rewrite He. simpl. by eexists.
  - destruct (matched (find_owner _ _)) as [m|] eqn:Hm'; [|by eexists].
    apply matched_Some in Hm' as [Ho _].
    apply find_owner_Some in Ho as (l1 & d & l2 & _ & Hd & _).
    apply (wf_idx _ Hwf), dict_get_is_Some in Hd as [e He].
    unfold absorb_all. rewrite He. simpl. by eexists.
Qed.

Lemma disconnect_step_total st r : wf st → is_Some (disconnect_step st r).
Proof.
  intros Hwf. unfold disconnect_step.
  destruct (matched (find_owner _ _)) as [m|] eqn:Hm'; [|by eexists].
  apply matched_Some in Hm' as [Ho _].
  apply find_owner_Some in Ho as (l1 & d & l2 & _ & Hd & _).
  apply (wf_idx _ Hwf), dict_get_is_Some in Hd as [e He].
  unfold absorb_new. rewrite He. simpl. by eexists.
Qed.

Lemma ddg_pass_total st rs : wf st → is_Some (run_pass ddg_step st rs).
Proof.
  revert st. induction rs as [|r rs IH]; intros st Hwf; simpl; [by eexists|].
  destruct (ddg_step_total st r Hwf) as [s Hs]. rewrite Hs. simpl.
  apply IH. eapply wf_lands, ddg_step_lands; done.
Qed.

Lemma disconnect_pass_total st rs :
  wf st → is_Some (run_pass disconnect_step st rs).
Proof.
  revert st. induction rs as [|r rs IH]; intros st Hwf; simpl; [by eexists|].
  destruct (disconnect_step_total st r Hwf) as [s Hs]. rewrite Hs. simpl.
  apply IH. eapply wf_lands, disconnect_step_lands; done.
Qed.

Lemma merge_state_of_total premium duckduckgo disconnect :
  is_Some (merge_state_of premium duckduckgo disconnect).
Proof.
  unfold merge_state_of.
  destruct (ddg_pass_total (premium_pass premium) (default_tier <$> duckduckgo))
    as [st2 H2]; [apply wf_premium_pass|].
  rewrite H2. simpl. apply disconnect_pass_total.
  eapply wf_ddg_pass, H2. apply wf_premium_pass.
Qed.

Lemma merge_vendors_total premium duckduckgo disconnect :
  is_Some (merge_vendors premium duckduckgo disconnect).
Proof.
  unfold merge_vendors.
  destruct (merge_state_of_total premium duckduckgo disconnect) as [st ->].
  by eexists.
Qed.

(** ** The normalizer *)

Lemma clamp_risk_range z : 1 ≤ clamp_risk z ≤ 10.
Proof. unfold clamp_risk. lia. Qed.

Lemma clamp_risk_fixed z : 1 ≤ z ≤ 10 → clamp_risk z = z.
Proof. unfold clamp_risk. lia. Qed.

Lemma valid_category_valid c : valid_category c ∈ VALID_CATEGORIES.
Proof.
  unfold valid_category. case_bool_decide; [done|].
  unfold VALID_CATEGORIES. set_solver.
Qed.

Lemma valid_category_fixed c : c ∈ VALID_CATEGORIES → valid_category c = c.
Proof. intros ?. unfold valid_category. by rewrite bool_decide_eq_true_2. Qed.

Example lower_example : lower "Cdn.ExAmple.COM" = "cdn.example.com".
Proof. reflexivity. Qed.

Lemma lower_char_ascii c :
  (nat_of_ascii c <? 128)%nat = true →
  (nat_of_ascii (lower_char c) <? 128)%nat = true.
Proof. destruct c as [[] [] [] [] [] [] [] []]; by vm_compute. Qed.

Lemma is_ascii_lower s : is_ascii s = true → is_ascii (lower s) = true.
Proof.
  unfold is_ascii. induction s as [|c s IH]; simpl; [done|].
  intros [Hc Hs]%andb_true_iff. apply andb_true_iff.
  split; [by apply lower_char_ascii|by apply IH].
Qed.

Lemma lower_char_code c :
  nat_of_ascii (lower_char c)
  = if bool_decide (65 ≤ nat_of_ascii c ≤ 90)%nat
    then (nat_of_ascii c + 32)%nat else nat_of_ascii c.
Proof. destruct c as [[] [] [] [] [] [] [] []]; by vm_compute. Qed.

Lemma lowercase_of_lower s : lowercase_of s (lower s).
Proof.
  unfold lowercase_of. induction s as [|c s IH]; simpl; constructor; [|done].
  apply lower_char_code.
Qed.

Lemma lower_char_no_capital c : ¬ (65 ≤ nat_of_ascii (lower_char c) ≤ 90)%nat.
Proof.
  apply (proj1 (bool_decide_eq_false _)).
  destruct c as [[] [] [] [] [] [] [] []]; by vm_compute.
Qed.

Lemma no_capital_lower s : no_capital (lower s).
Proof.
  unfold no_capital. induction s as [|c s IH]; simpl; constructor; [|done].
  apply lower_char_no_capital.
Qed.

Lemma truthy_nonempty d : truthy d = true ↔ d ≠ "".
Proof. by destruct d. Qed.

Lemma filter_truthy (ds : list string) :
  filter (λ d, truthy d = true) ds = filter (λ d, d ≠ "") ds.
Proof. apply list_filter_iff. intros d. apply truthy_nonempty. Qed.

Lemma clamp_json_int float_lt float_gt z :
  clamp_json float_lt float_gt (PInt z) = inr (PInt (clamp_risk z)).
Proof.
  unfold clamp_json, clamp_risk. simpl.
  destruct (z <? 10) eqn:Hlt; simpl.
  - apply Z.ltb_lt in Hlt. destruct (1 <? z) eqn:Hgt; simpl; do 2 f_equal.
    + apply Z.ltb_lt in Hgt. lia.
    + apply Z.ltb_ge in Hgt. lia.
  - apply Z.ltb_ge in Hlt. do 2 f_equal. lia.
Qed.

Lemma lower_each_strings float_truthy ds :
  lower_each float_truthy (PStr <$> ds) = inr (PStr <$> lower_domains ds).
Proof.
  unfold lower_domains. induction ds as [|d ds IH]; [done|].
  rewrite fmap_cons. cbn [lower_each]. rewrite IH, filter_cons.
  destruct d as [|c d].
  - cbn [truthy_json truthy]. by rewrite decide_False by done.
  - cbn [truthy_json truthy lower_json]. rewrite decide_True by done.
    by rewrite !fmap_cons.
Qed.

Lemma normalize_json_typed float_lt float_gt float_truthy r :
  normalize_json float_lt float_gt float_truthy (json_of r)
  = inr (json_of (as_input (normalize_vendor r))).
Proof.
  destruct r as [i ds n c cat g rs t e]. unfold normalize_json, json_of.
  cbn [j_id j_domains j_name j_company j_category j_gdpr_compliant
       j_risk_score j_tier j_extra r_id r_domains r_name r_company
       r_category r_gdpr_compliant r_risk_score r_tier r_extra].
  assert (default (PInt 5) (PInt <$> rs) = PInt (default 5 rs)) as ->
    by by destruct rs.
  rewrite clamp_json_int.
  assert (default (PStr "other") (PStr <$> cat)
          = PStr (default "other" cat)) as -> by by destruct cat.
  cbn [category_json].
  assert (default (PList []) ((λ l, PList (PStr <$> l)) <$> ds)
          = PList (PStr <$> default [] ds)) as -> by by destruct ds.
  cbn [iter_json]. rewrite lower_each_strings.
  by destruct i, n, c, g.
Qed.

(** C7, for the records of the data model: [normalize_vendor] of a dict
    whose present fields have the types of the data model, with domains of
    ASCII characters, raises nothing and returns the typed result.  It
    fills the missing fields with the defaults id "unknown", domains [[]],
    name = id, company "Unknown", category "other", gdpr_compliant false
    and risk_score 5; it clamps risk_score into 1..10 with max and min, so
    -3 becomes 1 and 47 becomes 10; a category outside [VALID_CATEGORIES]
    becomes "other"; the domains are the non-empty entries of the input
    list in their order, each with the letters A to Z moved to a to z and
    nothing else changed.  Tier and the other keys are left as they are. *)
Theorem normalize_vendor_spec (float_lt float_gt : string → Z → bool)
    (float_truthy : string → bool) (r : raw_vendor) :
  Forall (λ d, is_ascii d = true) (default [] (r_domains r)) →
  let v := normalize_vendor r in
  normalize_json float_lt float_gt float_truthy (json_of r)
  = inr (json_of (as_input v))
  ∧ v_id v = default "unknown" (r_id r)
  ∧ v_name v = default (v_id v) (r_name r)
  ∧ v_company v = default "Unknown" (r_company r)
  ∧ v_gdpr_compliant v = default false (r_gdpr_compliant r)
  ∧ v_risk_score v = Z.max 1 (Z.min 10 (default 5 (r_risk_score r)))
  ∧ 1 ≤ v_risk_score v ≤ 10
  ∧ v_category v =
      (if bool_decide (default "other" (r_category r) ∈ VALID_CATEGORIES)
       then default "other" (r_category r) else "other")
  ∧ v_category v ∈ VALID_CATEGORIES
  ∧ Forall2 lowercase_of
      (filter (λ d, d ≠ "") (default [] (r_domains r))) (v_domains v)
  ∧ Forall (λ d, d ≠ "" ∧ no_capital d ∧ is_ascii d = true) (v_domains v)
  ∧ v_tier v = r_tier r
  ∧ v_extra v = r_extra r
  ∧ normalize_vendor (RawVendor None None None None None None None None ∅)
    = Vendor "unknown" [] "unknown" "Unknown" "other" false 5 None ∅
  ∧ v_risk_score
      (normalize_vendor (RawVendor None None None None None None (Some (-3))
                           None ∅)) = 1
  ∧ v_risk_score
      (normalize_vendor (RawVendor None None None None None None (Some 47)
                           None ∅)) = 10
  ∧ v_domains (normalize_vendor (rec "x" ["Cdn.ExAmple.COM"; ""; "b.org"]))
    = ["cdn.example.com"; "b.org"].
Proof.
  intros Hascii v. split; [apply normalize_json_typed|].
  split_and!; try done.
  - apply clamp_risk_range.
  - apply clamp_risk_range.
  - apply valid_category_valid.
  - simpl. unfold lower_domains.
    rewrite filter_truthy.
    apply Forall2_fmap_r, Forall_Forall2_diag, Forall_forall.
    intros d _. apply lowercase_of_lower.
  - simpl. unfold lower_domains. apply Forall_fmap, Forall_forall.
    intros d [Hd Hin]%list_elem_of_filter. simpl. split_and!.
    + destruct d; [done|discriminate].
    + apply no_capital_lower.
    + pose proof (proj1 (Forall_forall _ _) Hascii d Hin) as Ha.
      by apply is_ascii_lower.
Qed.

Lemma normalize_vendor_spec_witness :
  normalize_json (λ _ _, false) (λ _ _, false) (λ _, false)
    (JsonVendor (Some (PStr "p"))
       (Some (PList [PStr "Cdn.ExAmple.COM"; PStr ""; PStr "b.org"]))
       None None (Some (PStr "tracking")) None (Some (PInt 47)) None ∅)
  = inr (JsonVendor (Some (PStr "p"))
           (Some (PList [PStr "cdn.example.com"; PStr "b.org"]))
           (Some (PStr "p")) (Some (PStr "Unknown")) (Some (PStr "other"))
           (Some (PBool false)) (Some (PInt 10)) None ∅).
Proof.
  apply (normalize_vendor_spec (λ _ _, false) (λ _ _, false) (λ _, false)
           (RawVendor (Some "p") (Some ["Cdn.ExAmple.COM"; ""; "b.org"]) None
              None (Some "tracking") None (Some 47) None ∅)).
  apply (bool_decide_unpack _). by vm_compute.
Defined.

(** [normalize_vendor] can fail: a [risk_score] that is [null] or a string
    cannot be compared with 10, a [domains] that is [null] or a number
    cannot be iterated, a category that is a list or an object cannot be
    looked up in the set, and a truthy domain entry that is not a string
    has no [lower]; falsy entries of any type are dropped. *)
Lemma normalize_vendor_can_raise :
  let normalize := normalize_json (λ _ _, false) (λ _ _, false) (λ _, false) in
  let dict domains category risk_score :=
    JsonVendor (Some (PStr "p")) domains None None category None risk_score
               None ∅ in
  normalize (dict (Some (PList [PStr "p.com"])) None (Some PNone))
  = inl TypeError
  ∧ normalize (dict (Some (PList [PStr "p.com"])) None (Some (PStr "7")))
    = inl TypeError
  ∧ normalize (dict (Some PNone) None None) = inl TypeError
  ∧ normalize (dict (Some (PInt 3)) None None) = inl TypeError
  ∧ normalize (dict None (Some (PList [PStr "cdn"])) None) = inl TypeError
  ∧ normalize (dict None (Some (PDict [("id", PStr "cdn")])) None)
    = inl TypeError
  ∧ normalize (dict (Some (PList [PStr "p.com"; PInt 5])) None None)
    = inl AttributeError
  ∧ normalize (dict (Some (PList [PStr "p.com"; PInt 0; PNone])) None None)
    = inr (JsonVendor (Some (PStr "p")) (Some (PList [PStr "p.com"]))
             (Some (PStr "p")) (Some (PStr "Unknown")) (Some (PStr "other"))
             (Some (PBool false)) (Some (PInt 5)) None ∅).
Proof. by vm_compute. Qed.

(** ** First match wins *)

Lemma find_owner_first idx l1 d l2 i :
  Forall (λ x, idx !! x = None) l1 → idx !! d = Some i →
  find_owner idx (l1 ++ d :: l2) = Some i.
Proof.
  intros Hl1 Hd. induction Hl1 as [|x l1 Hx _ IH]; simpl.
  - by rewrite Hd.
  - by rewrite Hx.
Qed.

Lemma find_premium_unowned st ds :
  Forall (λ x, domain_to_id st !! x = None) ds →
  find_premium st ds = Some None.
Proof.
  induction 1 as [|x ds Hx _ IH]; simpl; [done|]. by rewrite Hx.
Qed.

(** C6, as the code has it: normalization keeps the order of the record's
    own domain list (lower-casing, dropping empty entries, never sorting);
    the general scan returns the owner of the first domain of that list
    found in [domain_to_id] and nothing when no domain is owned; the
    Disconnect pass hands the candidate to that owner.  In the DuckDuckGo
    pass the premium scan comes first: a premium owner it finds absorbs the
    candidate when its id is not empty, and the general scan decides when
    the premium scan has found nothing or a premium owner whose id is the
    empty string, for which [if matched_premium_id:] is false. *)
Theorem first_domain_match_wins (st : merge_state) (r : raw_vendor) :
  let v := normalize_vendor r in
  let idx := domain_to_id st in
  (∀ a b, lower_domains (a ++ b) = lower_domains a ++ lower_domains b)
  ∧ v_domains v = lower_domains (default [] (r_domains r))
  ∧ match find_owner idx (v_domains v) with
    | Some i =>
        let general :=
          if truthy i then absorb_all st i v
          else Some (insert_new "-ddg" st v) in
        (∃ l1 d l2, v_domains v = l1 ++ d :: l2 ∧ idx !! d = Some i ∧
                    Forall (λ x, idx !! x = None) l1)
        ∧ disconnect_step st r =
            (if truthy i then absorb_new st i v
             else Some (insert_new "-dc" st v))
        ∧ ddg_step st r =
            match find_premium st (v_domains v) with
            | None => None
            | Some (Some p) => if truthy p then absorb_new st p v else general
            | Some None => general
            end
    | None =>
        Forall (λ x, idx !! x = None) (v_domains v)
        ∧ disconnect_step st r = Some (insert_new "-dc" st v)
        ∧ find_premium st (v_domains v) = Some None
        ∧ ddg_step st r = Some (insert_new "-ddg" st v)
    end.
Proof.
  intros v idx. split; [apply lower_domains_app|]. split; [done|].
  unfold disconnect_step, ddg_step. fold v. fold idx.
  destruct (find_owner idx (v_domains v)) as [i|] eqn:Ho.
  - cbv zeta. split; [by apply find_owner_Some|]. simpl. split.
    + by destruct (truthy i).
    + destruct (find_premium st _) as [[p|]|]; simpl;
        [|by destruct (truthy i)|done].
      destruct (truthy p); [done|]. by destruct (truthy i).
  - pose proof (proj1 (find_owner_None _ _) Ho) as Hnone.
    pose proof (find_premium_unowned st (v_domains v) Hnone) as Hp.
    split; [done|]. split; [done|]. split; [done|]. by rewrite Hp.
Qed.

(** A premium record with the empty id is found by the premium scan and
    still does not absorb the candidate: the general scan finds the same
    empty id, and the candidate is stored as a vendor of its own. *)
Example empty_premium_id_is_not_matched :
  let st := premium_pass [rec "" ["a.com"]] in
  find_premium st ["a.com"; "b.com"] = Some (Some "")
  ∧ ddg_step st (rec "v" ["a.com"; "b.com"])
    = Some (insert_new "-ddg" st (normalize_vendor (rec "v" ["a.com"; "b.com"])))
  ∧ (λ L : list vendor, (λ w, (v_id w, v_domains w)) <$> L)
      <$> merge_vendors [rec "" ["a.com"]] [rec "v" ["a.com"; "b.com"]] []
    = Some [("", ["a.com"]); ("v", ["a.com"; "b.com"])].
Proof. by vm_compute. Qed.

(** The domain list [["b.com"; "a.com"]] stays in that order, and the
    candidate is absorbed by the owner of "b.com", not by the owner of the
    least domain. *)
Lemma normalization_does_not_sort :
  let v := normalize_vendor (rec "v" ["b.com"; "a.com"]) in
  v_domains v = ["b.com"; "a.com"]
  ∧ ¬ Sorted String.le (v_domains v)
  ∧ merge_vendors []
      [rec "x" ["a.com"]; rec "y" ["b.com"]; rec "v" ["b.com"; "a.com"]] []
    = Some [Vendor "x" ["a.com"] "x" "Unknown" "other" false 5
                   (Some "standard") ∅;
            Vendor "y" ["a.com"; "b.com"] "y" "Unknown" "other" false 5
                   (Some "standard") ∅].
Proof.
  split; [done|]. split; [|by vm_compute].
  intros Hs. apply Sorted_inv in Hs as [_ Hhd].
  apply HdRel_inv in Hhd. by vm_compute in Hhd.
Qed.

(** ** Inputs on which the engine goes wrong *)

(** C1: a candidate whose domains belong to two different owners is merged
    into the first one, and "b.com" ends up in the lists of both "x" and
    "y". *)
Theorem straddling_candidate_duplicates_domain :
  merge_vendors []
    [rec "x" ["a.com"]; rec "y" ["b.com"]; rec "v" ["a.com"; "b.com"]] []
  = Some [Vendor "x" ["a.com"; "b.com"] "x" "Unknown" "other" false 5
                 (Some "standard") ∅;
          Vendor "y" ["b.com"] "y" "Unknown" "other" false 5
                 (Some "standard") ∅].
Proof. by vm_compute. Qed.

(** C2: the Disconnect pass has no premium scan.  The candidate "c" lists
    "z.com", which the premium record "p" owns, yet it is merged into the
    standard record "y" that owns its first domain, and "y" takes "z.com".
    The DuckDuckGo pass, given the same candidate, enriches "p". *)
Theorem disconnect_pass_skips_premium_check :
  merge_vendors [rec "p" ["z.com"]] [rec "y" ["a.com"]]
                [rec "c" ["a.com"; "z.com"]]
  = Some [Vendor "p" ["z.com"] "p" "Unknown" "other" false 5
                 (Some "premium") ∅;
          Vendor "y" ["a.com"; "z.com"] "y" "Unknown" "other" false 5
                 (Some "standard") ∅]
  ∧ merge_vendors [rec "p" ["z.com"]]
                  [rec "y" ["a.com"]; rec "c" ["a.com"; "z.com"]] []
    = Some [Vendor "p" ["a.com"; "z.com"] "p" "Unknown" "other" false 5
                   (Some "premium") ∅;
            Vendor "y" ["a.com"] "y" "Unknown" "other" false 5
                   (Some "standard") ∅].
Proof. by vm_compute. Qed.

(** C4: the renamed id is not checked again.  Of three DuckDuckGo records
    "foo" with disjoint domains the third is renamed to "foo-ddg" like the
    second and replaces it: the record that owned "b.com" is lost. *)
Theorem second_rename_overwrites :
  merge_vendors []
    [rec "foo" ["a.com"]; rec "foo" ["b.com"]; rec "foo" ["c.com"]] []
  = Some [Vendor "foo" ["a.com"] "foo" "Unknown" "other" false 5
                 (Some "standard") ∅;
          Vendor "foo-ddg" ["c.com"] "foo" "Unknown" "other" false 5
                 (Some "standard") ∅].
Proof. by vm_compute. Qed.

(** ** Properties shared by every stored record *)

Lemma normalize_domains_ok r : Forall domain_ok (v_domains (normalize_vendor r)).
Proof. apply lower_domains_ok. Qed.

Section record_invariant.
Variable G : vendor → Prop.
Hypothesis G_set_id : ∀ i v, G v → G (set_id i v).
Hypothesis G_grow : ∀ e b,
  G e → Forall domain_ok b →
  G (set_domains (sorted_union (v_domains e) b) e).

Lemma all_records_empty : all_records G empty_state.
Proof. intros ?? []%elem_of_nil. Qed.

Lemma all_records_set st k v ds :
  all_records G st → G v →
  all_records G (MergeState (dict_set k v (vendors_by_id st)) ds).
Proof.
  intros Hst Hv k' v' [[= -> ->]|Hin]%elem_of_dict_set; [done|].
  by eapply Hst.
Qed.

Lemma all_records_lands suffix st v st' :
  all_records G st → G v → Forall domain_ok (v_domains v) →
  lands suffix st v st' → all_records G st'.
Proof.
  intros Hst Hv Hds. destruct 1 as [|m e b He Hb| | |]; [done|..];
    apply all_records_set; auto.
  apply G_grow.
  - eapply Hst, dict_get_elem_of, He.
  - apply Forall_forall. intros d Hd.
    eapply Forall_forall in Hds; [done|]. by apply Hb.
Qed.

Lemma all_records_merge premium duckduckgo disconnect st :
  Forall (λ r, G (normalize_vendor (mark_premium r))) premium →
  Forall (λ r, G (normalize_vendor (default_tier r))) duckduckgo →
  Forall (λ r, G (normalize_vendor (default_tier r))) disconnect →
  merge_state_of premium duckduckgo disconnect = Some st →
  all_records G st.
Proof.
  intros HP HD HX. unfold merge_state_of.
  destruct (run_pass ddg_step _ _) as [st2|] eqn:H2; simpl; [|done].
  apply run_pass_invariant.
  { intros s r s' (r0 & -> & Hr)%list_elem_of_fmap Hs Hstep.
    eapply all_records_lands, disconnect_step_lands, Hstep; [done| |].
    - eapply Forall_forall in HX; done.
    - apply normalize_domains_ok. }
  revert H2. apply run_pass_invariant.
  { intros s r s' (r0 & -> & Hr)%list_elem_of_fmap Hs Hstep.
    eapply all_records_lands, ddg_step_lands, Hstep; [done| |].
    - eapply Forall_forall in HD; done.
    - apply normalize_domains_ok. }
  unfold premium_pass. apply foldl_invariant; [|apply all_records_empty].
  intros s r (r0 & -> & Hr)%list_elem_of_fmap Hs.
  eapply all_records_lands, premium_step_lands; [done| |].
  - eapply Forall_forall in HP; done.
  - apply normalize_domains_ok.
Qed.
End record_invariant.

(** ** The output list *)

Lemma elem_of_finish st v :
  v ∈ finish st ↔
  ∃ w, w ∈ dict_values (vendors_by_id st) ∧ v = strip_import_fields w.
Proof.
  unfold finish. rewrite elem_of_sort_by_id, list_elem_of_fmap.
  split; intros (w & ? & ?); by exists w.
Qed.

Lemma elem_of_dict_values {V} (x : V) d :
  x ∈ dict_values d ↔ ∃ k, (k, x) ∈ d.
Proof.
  unfold dict_values. rewrite list_elem_of_fmap. split.
  - intros ([k y] & -> & ?). by exists k.
  - intros [k ?]. by exists (k, x).
Qed.

Lemma merge_vendors_finish premium duckduckgo disconnect :
  ∃ st, merge_state_of premium duckduckgo disconnect = Some st ∧
        merge_vendors premium duckduckgo disconnect = Some (finish st).
Proof.
  destruct (merge_state_of_total premium duckduckgo disconnect) as [st Hst].
  exists st. split; [done|]. unfold merge_vendors. by rewrite Hst.
Qed.

(** ** Domain lists of the output *)

Lemma normalize_mark_premium_domains r :
  v_domains (normalize_vendor (mark_premium r)) =
  v_domains (normalize_vendor r).
Proof. done. Qed.

Lemma normalize_default_tier_domains r :
  v_domains (normalize_vendor (default_tier r)) =
  v_domains (normalize_vendor r).
Proof. done. Qed.

Lemma output_domains_invariant (G : list string → Prop)
    premium duckduckgo disconnect st :
  (∀ a b, G a → Forall domain_ok b → G (sorted_union a b)) →
  Forall (λ r, G (v_domains (normalize_vendor r)))
         (premium ++ duckduckgo ++ disconnect) →
  merge_state_of premium duckduckgo disconnect = Some st →
  ∀ v, v ∈ finish st → G (v_domains v).
Proof.
  intros HG Hin Hst v (w & [k Hw]%elem_of_dict_values & ->)%elem_of_finish.
  simpl. apply Forall_app in Hin as [HP [HD HX]%Forall_app].
  exact (all_records_merge (λ v, G (v_domains v)) (λ _ _ H, H)
           (λ e b, HG (v_domains e) b) premium duckduckgo disconnect st
           HP HD HX Hst k w Hw).
Qed.

(** C8, as the code has it: the output exists, and every domain string of
    every output record is lower-case and not empty.  An output record has
    a non-empty domain list provided every input record has a non-empty
    domain entry, and a duplicate-free one provided no input record lists
    the same lower-cased domain twice: the engine itself neither drops a
    record without domains nor removes the duplicates of a list it does
    not merge. *)
Theorem output_domain_lists (premium duckduckgo disconnect : list raw_vendor) :
  ∃ L, merge_vendors premium duckduckgo disconnect = Some L
  ∧ Forall (λ v, Forall (λ d, has_upper d = false ∧ d ≠ "") (v_domains v)) L
  ∧ (Forall (λ r, v_domains (normalize_vendor r) ≠ [])
            (premium ++ duckduckgo ++ disconnect) →
     Forall (λ v, v_domains v ≠ []) L)
  ∧ (Forall (λ r, NoDup (v_domains (normalize_vendor r)))
            (premium ++ duckduckgo ++ disconnect) →
     Forall (λ v, NoDup (v_domains v)) L).
Proof.
  destruct (merge_vendors_finish premium duckduckgo disconnect)
    as (st & Hst & ->).
  eexists. split; [done|]. split_and!.
  - apply Forall_forall. intros v Hv.
    eapply Forall_impl;
      [eapply (output_domains_invariant (Forall domain_ok)); [| |done..]|].
    + intros a b Ha Hb. apply Forall_forall. intros d.
      rewrite elem_of_sorted_union. intros [Hd|Hd].
      * eapply Forall_forall in Ha; done.
      * eapply Forall_forall in Hb; done.
    + apply Forall_forall. intros r _. apply normalize_domains_ok.
    + intros d [Hu Ht]. split; [done|]. by destruct d.
  - intros Hin. apply Forall_forall. intros v Hv.
    eapply (output_domains_invariant (λ ds, ds ≠ [])); [|done..].
    intros a b Ha _. by apply sorted_union_nonempty.
  - intros Hin. apply Forall_forall. intros v Hv.
    eapply (output_domains_invariant NoDup); [|done..].
    intros a b _ _. apply NoDup_sorted_union.
Qed.

Lemma output_domain_lists_witness :
  ∃ L, merge_vendors [rec "acme" ["acme.com"]]
                     [rec "acme-track" ["Acme.com"; "t.acme.com"]] [] = Some L
  ∧ Forall (λ v, v_domains v ≠ []) L ∧ Forall (λ v, NoDup (v_domains v)) L.
Proof.
  destruct (output_domain_lists [rec "acme" ["acme.com"]]
              [rec "acme-track" ["Acme.com"; "t.acme.com"]] [])
    as (L & HL & _ & Hne & Hnd).
  exists L. split; [done|]. split.
  - apply Hne. repeat constructor; by vm_compute.
  - apply Hnd. repeat constructor; apply (bool_decide_unpack _); by vm_compute.
Defined.

(** An input without domains is inserted as it is, and a list that is
    never merged keeps its duplicates. *)
Lemma empty_and_duplicate_domain_lists :
  merge_vendors [] [rec "x" []; rec "y" ["A.com"; "a.com"]] []
  = Some [Vendor "x" [] "x" "Unknown" "other" false 5 (Some "standard") ∅;
          Vendor "y" ["a.com"; "a.com"] "y" "Unknown" "other" false 5
                 (Some "standard") ∅].
Proof. by vm_compute. Qed.

(** ** Post-processing *)

Lemma lookup_foldr_delete (e : gmap string pyval) (l : list string) f :
  foldr delete e l !! f = if decide (f ∈ l) then None else e !! f.
Proof.
  induction l as [|k l IH]; simpl.
  - destruct (decide (f ∈ [])) as [H|_]; [by apply elem_of_nil in H|done].
  - destruct (decide (k = f)) as [->|Hne].
    + rewrite lookup_delete_eq.
      by rewrite decide_True by apply list_elem_of_here.
    + rewrite lookup_delete_ne by done. rewrite IH.
      destruct (decide (f ∈ l)) as [Hf|Hf].
      * by rewrite decide_True by (by apply list_elem_of_further).
      * rewrite decide_False; [done|]. intros [?|?]%elem_of_cons; done.
Qed.

Lemma lookup_pop_fields e f :
  pop_fields e !! f = if decide (f ∈ cleanup_fields) then None else e !! f.
Proof. apply lookup_foldr_delete. Qed.

Lemma elem_of_import_metadata e f x :
  (f, x) ∈ import_metadata e ↔ f ∈ cleanup_fields ∧ e !! f = Some x.
Proof.
  unfold import_metadata. rewrite list_elem_of_omap. split.
  - intros (k & Hk & Hf). destruct (e !! k) as [y|] eqn:Hy; [|done].
    simpl in Hf. injection Hf as -> ->. done.
  - intros [Hk Hf]. exists f. split; [done|]. by rewrite Hf.
Qed.

Lemma import_metadata_nil e :
  import_metadata e = [] ↔ Forall (λ f, e !! f = None) cleanup_fields.
Proof.
  split.
  - intros Hnil. apply Forall_forall. intros f Hf.
    destruct (e !! f) as [x|] eqn:Hx; [|done].
    assert ((f, x) ∈ import_metadata e) as Hin
      by by apply elem_of_import_metadata.
    rewrite Hnil in Hin. by apply elem_of_nil in Hin.
  - intros Hall. destruct (import_metadata e) as [|[f x] md] eqn:Hmd; [done|].
    assert ((f, x) ∈ import_metadata e) as [Hf Hx]%elem_of_import_metadata
      by (rewrite Hmd; apply list_elem_of_here).
    eapply Forall_forall in Hall; [|done]. congruence.
Qed.

Lemma metadata_key_not_cleanup : "_import_metadata" ∉ cleanup_fields.
Proof. apply (bool_decide_unpack _). by vm_compute. Qed.

Lemma lookup_strip_import_fields w f :
  v_extra (strip_import_fields w) !! f =
  if decide (f ∈ cleanup_fields) then None
  else if decide (f = "_import_metadata")
       then match import_metadata (v_extra w) with
            | [] => v_extra w !! f
            | _ :: _ => Some (PDict (import_metadata (v_extra w)))
            end
       else v_extra w !! f.
Proof.
  unfold strip_import_fields. simpl.
  destruct (decide (f ∈ cleanup_fields)) as [Hf|Hf].
  - destruct (import_metadata (v_extra w)).
    + rewrite lookup_pop_fields. by rewrite decide_True.
    + rewrite lookup_insert_ne, lookup_pop_fields.
      * by rewrite decide_True.
      * intros <-. by apply metadata_key_not_cleanup.
  - destruct (decide (f = "_import_metadata")) as [->|Hne].
    + destruct (import_metadata (v_extra w)).
      * rewrite lookup_pop_fields. by rewrite decide_False.
      * by rewrite lookup_insert_eq.
    + destruct (import_metadata (v_extra w)).
      * rewrite lookup_pop_fields. by rewrite decide_False.
      * rewrite lookup_insert_ne by done.
        rewrite lookup_pop_fields. by rewrite decide_False.
Qed.

Lemma strip_import_fields_fixed w :
  import_metadata (v_extra w) = [] → strip_import_fields w = w.
Proof.
  intros Hmd. unfold strip_import_fields. rewrite Hmd.
  assert (pop_fields (v_extra w) = v_extra w) as ->; [|by destruct w].
  apply map_eq. intros f. rewrite lookup_pop_fields.
  destruct (decide (f ∈ cleanup_fields)) as [Hf|Hf]; [|done].
  apply import_metadata_nil in Hmd. eapply Forall_forall in Hmd; done.
Qed.

(** C9, as the code has it: the output is the stored records, each passed
    through the clean-up and sorted by id.  The clean-up removes exactly the
    seven keys of [cleanup_fields] (source, prevalence, fingerprinting,
    cookies, sites, disconnect_category, website) from the top level; when
    at least one of them was present it sets [_import_metadata] to the dict
    of the ones that were present, replacing an earlier value; when none
    was present the record is left as it is, an earlier [_import_metadata]
    included.  Every other key, [privacy_policy] among them, stays at the
    top level. *)
Theorem post_processing_spec (premium duckduckgo disconnect : list raw_vendor) :
  ∃ st, merge_state_of premium duckduckgo disconnect = Some st
  ∧ merge_vendors premium duckduckgo disconnect = Some (finish st)
  ∧ (∀ v, v ∈ finish st ↔
          ∃ w, w ∈ dict_values (vendors_by_id st) ∧ v = strip_import_fields w)
  ∧ ∀ w : vendor,
      let v := strip_import_fields w in
      let md := import_metadata (v_extra w) in
      v = set_extra (v_extra v) w
      ∧ (∀ f x, (f, x) ∈ md ↔ f ∈ cleanup_fields ∧ v_extra w !! f = Some x)
      ∧ (md = [] ↔ Forall (λ f, v_extra w !! f = None) cleanup_fields)
      ∧ (∀ f, v_extra v !! f =
           if decide (f ∈ cleanup_fields) then None
           else if decide (f = "_import_metadata")
                then match md with
                     | [] => v_extra w !! f
                     | _ :: _ => Some (PDict md)
                     end
                else v_extra w !! f)
      ∧ match md with [] => v = w | _ => True end
      ∧ "privacy_policy" ∉ cleanup_fields.
Proof.
  destruct (merge_vendors_finish premium duckduckgo disconnect)
    as (st & Hst & Hm).
  exists st. split_and!; [done|done|apply elem_of_finish|].
  intros w v md. split_and!.
  - done.
  - apply elem_of_import_metadata.
  - apply import_metadata_nil.
  - apply lookup_strip_import_fields.
  - subst v md. destruct (import_metadata (v_extra w)) eqn:Hmd; [|done].
    by apply strip_import_fields_fixed.
  - apply (bool_decide_unpack _). by vm_compute.
Qed.

(** The privacy-policy URL of a DuckDuckGo record is not moved, and a
    record that arrives with [_import_metadata] keeps it although none of
    the clean-up keys is on it. *)
Lemma privacy_policy_stays_at_top_level :
  merge_vendors []
    [RawVendor (Some "x") (Some ["x.com"]) None None None None None None
       (<["source" := PStr "duckduckgo-tracker-radar"]>
          (<["privacy_policy" := PStr "https://x.com/privacy"]> ∅))]
    []
  = Some [Vendor "x" ["x.com"] "x" "Unknown" "other" false 5 (Some "standard")
            (<["_import_metadata" :=
                 PDict [("source", PStr "duckduckgo-tracker-radar")]]>
               (<["privacy_policy" := PStr "https://x.com/privacy"]> ∅))]
  ∧ merge_vendors
      [RawVendor (Some "x") (Some ["x.com"]) None None None None None None
         (<["_import_metadata" := PDict [("prevalence", PInt 3)]]> ∅)]
      [] []
    = Some [Vendor "x" ["x.com"] "x" "Unknown" "other" false 5 (Some "premium")
              (<["_import_metadata" := PDict [("prevalence", PInt 3)]]> ∅)].
Proof. by vm_compute. Qed.

(** ** Premium records *)

Lemma kept_other_key n st k v idx :
  kept n st → k ≠ v_id n →
  kept n (MergeState (dict_set k v (vendors_by_id st)) idx).
Proof.
  intros (e & He & Hd & Hs) Hne. exists e. simpl.
  by rewrite dict_get_set_ne.
Qed.

Lemma kept_stored n st idx :
  kept n (MergeState (dict_set (v_id n) n (vendors_by_id st)) idx).
Proof.
  exists n. simpl. rewrite dict_get_set_eq. by repeat split.
Qed.

Lemma kept_lands suffix st v st' n :
  suffix ≠ "" → v_id n ≠ v_id v +:+ suffix →
  kept n st → lands suffix st v st' → kept n st'.
Proof.
  intros Hsuffix Hrename Hkept.
  destruct 1 as [|m e b He Hb|Hs|Hfresh|Hold]; [done| |done|..].
  - destruct (decide (m = v_id n)) as [->|Hne];
      [|by apply kept_other_key].
    destruct Hkept as (e' & He' & Hd & Hsub).
    rewrite He in He'. injection He' as <-.
    eexists. simpl. rewrite dict_get_set_eq. split; [done|].
    split; [done|]. intros d Hd'. apply elem_of_sorted_union. left. auto.
  - apply kept_other_key; [done|]. intros Heq. apply Hfresh.
    destruct Hkept as (e & He & _). rewrite Heq.
    apply dict_get_is_Some. by eexists.
  - apply kept_other_key; [done|]. congruence.
Qed.

Lemma kept_premium_pass before r after :
  Forall (λ p, v_id (normalize_vendor p) ≠ v_id (normalize_vendor r)) after →
  kept (normalize_vendor (mark_premium r))
       (premium_pass (before ++ r :: after)).
Proof.
  intros Hafter. unfold premium_pass.
  rewrite fmap_app, foldl_app, fmap_cons. simpl.
  apply foldl_invariant.
  - intros s p (p0 & -> & Hp)%list_elem_of_fmap Hs.
    apply kept_other_key; [done|]. simpl.
    exact (proj1 (Forall_forall _ _) Hafter p0 Hp).
  - apply kept_stored.
Qed.

Lemma kept_merge_state_of premium duckduckgo disconnect st n :
  Forall (λ c, v_id n ≠ v_id (normalize_vendor c) +:+ "-ddg") duckduckgo →
  Forall (λ c, v_id n ≠ v_id (normalize_vendor c) +:+ "-dc") disconnect →
  kept n (premium_pass premium) →
  merge_state_of premium duckduckgo disconnect = Some st →
  kept n st.
Proof.
  intros HD HX Hkept. unfold merge_state_of.
  destruct (run_pass ddg_step _ _) as [st2|] eqn:H2; simpl; [|done].
  apply run_pass_invariant.
  { intros s c s' (c0 & -> & Hc)%list_elem_of_fmap Hs Hstep.
    eapply (kept_lands "-dc"), disconnect_step_lands, Hstep; [discriminate| |done].
    exact (proj1 (Forall_forall _ _) HX c0 Hc). }
  revert H2. apply run_pass_invariant; [|done].
  intros s c s' (c0 & -> & Hc)%list_elem_of_fmap Hs Hstep.
  eapply (kept_lands "-ddg"), ddg_step_lands, Hstep; [discriminate| |done].
  exact (proj1 (Forall_forall _ _) HD c0 Hc).
Qed.

(** C3, as the code has it: the premium record is compared after
    normalization.  For a record [r] of the premium list whose id no later
    record of that list has (an earlier record with the same id is replaced
    by [r]), and whose id is not the renamed id of a secondary record, the
    output contains a record with that id whose name, company, category,
    risk_score and gdpr_compliant are those of the normalized [r], whose
    tier is premium, and whose domains include every lower-cased domain of
    [r].  The other premium records may repeat ids among themselves. *)
Theorem premium_records_kept
    (before after duckduckgo disconnect : list raw_vendor) (r : raw_vendor) :
  Forall (λ p, v_id (normalize_vendor p) ≠ v_id (normalize_vendor r)) after →
  Forall (λ c, v_id (normalize_vendor r) ≠ v_id (normalize_vendor c) +:+ "-ddg")
         duckduckgo →
  Forall (λ c, v_id (normalize_vendor r) ≠ v_id (normalize_vendor c) +:+ "-dc")
         disconnect →
  let n := normalize_vendor r in
  ∃ L v, merge_vendors (before ++ r :: after) duckduckgo disconnect = Some L
  ∧ v ∈ L
  ∧ v_id v = v_id n
  ∧ v_name v = v_name n
  ∧ v_company v = v_company n
  ∧ v_category v = v_category n
  ∧ v_risk_score v = v_risk_score n
  ∧ v_gdpr_compliant v = v_gdpr_compliant n
  ∧ v_tier v = Some "premium"
  ∧ v_domains n ⊆ v_domains v.
Proof.
  intros Hafter HD HX n.
  destruct (merge_vendors_finish (before ++ r :: after) duckduckgo disconnect)
    as (st & Hst & ->).
  destruct (kept_merge_state_of (before ++ r :: after) duckduckgo disconnect
              st (normalize_vendor (mark_premium r)) HD HX
              (kept_premium_pass before r after Hafter) Hst)
    as (e & He & (? & ? & ? & ? & ? & ? & ?) & Hsub).
  exists (finish st), (strip_import_fields e). split; [done|]. split.
  { apply elem_of_finish. exists e. split; [|done].
    apply elem_of_dict_values. eexists. eapply dict_get_elem_of, He. }
  by split_and!.
Qed.

Lemma premium_records_kept_witness :
  ∃ L v, merge_vendors
           ([rec "acme" ["old.acme.com"]]
              ++ rec "acme" ["Acme.com"]
              :: [rec "p" ["p.com"]; rec "p" ["p.org"]])
           [rec "acme" ["t.acme.com"]; rec "q" ["acme.com"; "q.com"]]
           [rec "p" ["x.com"]] = Some L
  ∧ v ∈ L ∧ v_id v = "acme" ∧ v_tier v = Some "premium"
  ∧ ["acme.com"] ⊆ v_domains v.
Proof.
  destruct (premium_records_kept
              [rec "acme" ["old.acme.com"]]
              [rec "p" ["p.com"]; rec "p" ["p.org"]]
              [rec "acme" ["t.acme.com"]; rec "q" ["acme.com"; "q.com"]]
              [rec "p" ["x.com"]] (rec "acme" ["Acme.com"]))
    as (L & v & HL & Hv & Hid & _ & _ & _ & _ & _ & Ht & Hsub).
  - apply (bool_decide_unpack _). by vm_compute.
  - apply (bool_decide_unpack _). by vm_compute.
  - apply (bool_decide_unpack _). by vm_compute.
  - exists L, v. by split_and!.
Defined.

(** The risk score 47 and the category "tracking" of a premium record are
    not in the output, and neither is its domain as it was written. *)
Lemma premium_fields_are_normalized :
  let r := RawVendor (Some "p") (Some ["P.com"]) None None (Some "tracking")
                     None (Some 47) None ∅ in
  merge_vendors [r] [] []
  = Some [Vendor "p" ["p.com"] "p" "Unknown" "other" false 10
                 (Some "premium") ∅]
  ∧ r_risk_score r ≠ Some 10
  ∧ r_category r ≠ Some "other"
  ∧ "P.com" ∉ ["p.com"].
Proof.
  split; [by vm_compute|]. split; [done|]. split; [done|].
  by intros [?|[]%elem_of_nil]%elem_of_cons.
Qed.

(** ** Merging the output again *)

Lemma normalize_vendor_normal r : normal (normalize_vendor r).
Proof.
  split; [|split].
  - apply lower_domains_ok.
  - apply clamp_risk_range.
  - apply valid_category_valid.
Qed.

Lemma normalize_as_input v :
  normal v →
  normalize_vendor (mark_premium (as_input v)) = set_tier (Some "premium") v.
Proof.
  intros (Hd & Hr & Hc). destruct v as [i ds n c cat g rs t e]; simpl in *.
  unfold normalize_vendor, set_tier; simpl.
  by rewrite lower_domains_fixed, clamp_risk_fixed, valid_category_fixed.
Qed.

Lemma normal_merge_state_of premium duckduckgo disconnect st :
  merge_state_of premium duckduckgo disconnect = Some st →
  all_records normal st.
Proof.
  apply all_records_merge.
  - by intros i [].
  - intros e b (Hd & Hr & Hc) Hb. split; [|by split]. simpl.
    apply Forall_forall. intros d [?|?]%elem_of_sorted_union.
    + eapply Forall_forall in Hd; done.
    + eapply Forall_forall in Hb; done.
  - apply Forall_forall. intros. apply normalize_vendor_normal.
  - apply Forall_forall. intros. apply normalize_vendor_normal.
  - apply Forall_forall. intros. apply normalize_vendor_normal.
Qed.

Lemma strip_import_fields_idemp w :
  strip_import_fields (strip_import_fields w) = strip_import_fields w.
Proof.
  apply strip_import_fields_fixed, import_metadata_nil, Forall_forall.
  intros f Hf. rewrite lookup_strip_import_fields. by rewrite decide_True.
Qed.

Lemma strip_import_fields_set_tier t w :
  strip_import_fields (set_tier t w) = set_tier t (strip_import_fields w).
Proof. done. Qed.

Lemma wf_values_ids st :
  wf st → v_id <$> dict_values (vendors_by_id st) = dict_keys (vendors_by_id st).
Proof.
  intros Hwf. pose proof (wf_key _ Hwf) as Hkey.
  unfold dict_values, dict_keys.
  induction (vendors_by_id st) as [|[k v] d IH]; [done|].
  rewrite !fmap_cons. simpl. f_equal.
  - apply Hkey. apply list_elem_of_here.
  - apply IH. intros k' v' Hin. apply Hkey. by apply list_elem_of_further.
Qed.

Lemma finish_ids_NoDup st : wf st → NoDup (v_id <$> finish st).
Proof.
  intros Hwf. unfold finish. rewrite sort_by_id_perm, <-list_fmap_compose.
  change (v_id ∘ strip_import_fields) with v_id.
  rewrite wf_values_ids by done. apply (wf_nodup _ Hwf).
Qed.

(** The ids of the output are pairwise distinct: they are the keys of
    [vendors_by_id]. *)
Lemma output_ids_distinct premium duckduckgo disconnect :
  ∃ L, merge_vendors premium duckduckgo disconnect = Some L
       ∧ NoDup (v_id <$> L).
Proof.
  destruct (merge_vendors_finish premium duckduckgo disconnect)
    as (st & Hst & ->).
  eexists. split; [done|]. eapply finish_ids_NoDup, wf_merge_state_of, Hst.
Qed.

Lemma premium_pass_fresh rs st :
  NoDup ((λ r, v_id (normalize_vendor r)) <$> rs) →
  (∀ r, r ∈ rs → v_id (normalize_vendor r) ∉ dict_keys (vendors_by_id st)) →
  vendors_by_id (foldl premium_step st rs) =
  vendors_by_id st
  ++ ((λ r, (v_id (normalize_vendor r), normalize_vendor r)) <$> rs).
Proof.
  revert st. induction rs as [|r rs IH]; intros st Hnd Hfresh.
  - simpl. by rewrite app_nil_r.
  - rewrite fmap_cons in Hnd. apply NoDup_cons in Hnd as [Hr Hnd].
    assert (v_id (normalize_vendor r) ∉ dict_keys (vendors_by_id st)) as Hk
      by apply Hfresh, list_elem_of_here.
    simpl. rewrite IH; simpl.
    + rewrite dict_set_new by done. by rewrite <-app_assoc.
    + done.
    + intros r' Hr'. rewrite dict_set_new by done.
      unfold dict_keys. rewrite fmap_app.
      intros [Hin|Heq%list_elem_of_singleton]%elem_of_app.
      * revert Hin. by apply Hfresh, list_elem_of_further.
      * apply Hr. apply list_elem_of_fmap. exists r'.
        split; [symmetry; exact Heq|done].
Qed.

Lemma set_tier_fixed L :
  set_tier (Some "premium") <$> L = L
  ↔ Forall (λ v, v_tier v = Some "premium") L.
Proof.
  rewrite <-(list_fmap_id L) at 2. rewrite <-Forall_fmap_ext.
  apply Forall_proper; [|done]. intros [i ds n c cat g rs t e]. simpl.
  unfold set_tier. simpl. split; [by intros [= ->]|by intros ->].
Qed.

Lemma remerge_and_tiers (x : option (list vendor)) L :
  x = Some (set_tier (Some "premium") <$> L) →
  x = Some (set_tier (Some "premium") <$> L)
  ∧ (x = Some L ↔ Forall (λ v, v_tier v = Some "premium") L).
Proof.
  intros ->. split; [done|]. rewrite <-set_tier_fixed.
  split; [by intros [= ->]|by intros ->].
Qed.

(** C5, as the code has it: merging the output again, as the only premium
    input, gives the same records in the same order with every tier set
    to premium and nothing else changed; the result is the input itself
    exactly when every record of it has tier premium already. *)
Theorem remerge_sets_tier_premium
    (premium duckduckgo disconnect : list raw_vendor) :
  ∃ L, merge_vendors premium duckduckgo disconnect = Some L
  ∧ merge_vendors (as_input <$> L) [] []
    = Some (set_tier (Some "premium") <$> L)
  ∧ (merge_vendors (as_input <$> L) [] [] = Some L
     ↔ Forall (λ v, v_tier v = Some "premium") L).
Proof.
  destruct (merge_vendors_finish premium duckduckgo disconnect)
    as (st & Hst & ->).
  exists (finish st). split; [done|].
  apply remerge_and_tiers.
  pose proof (wf_merge_state_of _ _ _ _ Hst) as Hwf.
  pose proof (normal_merge_state_of _ _ _ _ Hst) as Hnormal.
  assert (Forall (λ v, strip_import_fields
                         (normalize_vendor (mark_premium (as_input v)))
                       = set_tier (Some "premium") v) (finish st)) as Hnorm.
  { apply Forall_forall.
    intros v (w & [k Hw]%elem_of_dict_values & ->)%elem_of_finish.
    rewrite normalize_as_input.
    - by rewrite strip_import_fields_set_tier, strip_import_fields_idemp.
    - destruct (Hnormal k w Hw) as (? & ? & ?). by split. }
  assert ((λ r, v_id (normalize_vendor r))
            <$> (mark_premium <$> (as_input <$> finish st))
          = v_id <$> finish st) as Hids.
  { by rewrite <-!list_fmap_compose. }
  unfold merge_vendors, merge_state_of. simpl. f_equal.
  unfold finish at 1, premium_pass.
  rewrite premium_pass_fresh;
    [|rewrite Hids; by apply finish_ids_NoDup
     |intros r _; apply not_elem_of_nil].
  change (vendors_by_id empty_state) with (@nil (string * vendor)).
  rewrite app_nil_l. unfold dict_values. rewrite <-!list_fmap_compose.
  trans (sort_by_id (set_tier (Some "premium") <$> finish st)).
  { f_equal. apply Forall_fmap_ext. exact Hnorm. }
  apply sort_by_id_fixed.
  apply (Sorted_fmap _ id_le id_le); [done|]. apply sort_by_id_sorted.
Qed.

(** A record of tier standard comes back with tier premium. *)
Lemma remerge_changes_tier :
  ∃ L, merge_vendors [] [rec "x" ["a.com"]] [] = Some L
  ∧ merge_vendors (as_input <$> L) [] [] ≠ Some L.
Proof.
  eexists. split; [by vm_compute|]. by vm_compute.
Qed.

(** ** Where domain ownership is unique *)

Lemma owned_only_by_spec idx ds k :
  owned_only_by idx ds k = true ↔
  ∀ d i, d ∈ ds → idx !! d = Some i → i = k.
Proof.
  unfold owned_only_by. rewrite forallb_forall. split.
  - intros H d i Hd%list_elem_of_In Hi. specialize (H d Hd).
    rewrite Hi in H. by apply bool_decide_eq_true in H.
  - intros H d Hd%list_elem_of_In. destruct (idx !! d) as [i|] eqn:Hi; [|done].
    apply bool_decide_eq_true. by eapply H.
Qed.

Lemma truthy_app s suffix : truthy s = true → truthy (s +:+ suffix) = true.
Proof. by destruct s. Qed.

Lemma elem_of_dict_set_other {V} k' (y : V) k x d :
  NoDup (dict_keys d) → (k', y) ∈ dict_set k x d →
  (k', y) = (k, x) ∨ ((k', y) ∈ d ∧ k' ≠ k).
Proof.
  intros Hnd Hin.
  apply elem_of_dict_get in Hin; [|by apply dict_set_NoDup].
  destruct (decide (k = k')) as [->|Hne].
  - rewrite dict_get_set_eq in Hin. injection Hin as ->. by left.
  - rewrite dict_get_set_ne in Hin by done. right.
    split; [by apply dict_get_elem_of|done].
Qed.

Lemma separated_set st k v' b :
  wf st → separated st → truthy k = true →
  (∀ d, d ∈ v_domains v' → d ∈ b ∨ domain_to_id st !! d = Some k) →
  owned_only_by (domain_to_id st) b k = true →
  separated (MergeState (dict_set k v' (vendors_by_id st))
                        (register b k (domain_to_id st))).
Proof.
  intros Hwf [Howns Htruthy] Hk Hv' Hb. split.
  - intros k1 v1 d Hin Hd. simpl in *. rewrite lookup_register.
    apply elem_of_dict_set_other in Hin; [|apply (wf_nodup _ Hwf)].
    destruct Hin as [[= -> ->]|[Hin Hne]].
    + destruct (decide (d ∈ b)); [done|].
      by destruct (Hv' d Hd).
    + pose proof (Howns _ _ _ Hin Hd) as Hidx.
      destruct (decide (d ∈ b)) as [Hdb|]; [|done].
      destruct Hne. eapply owned_only_by_spec; done.
  - intros d i [->|Hi]%lookup_register_Some; [done|]. by eapply Htruthy.
Qed.

Lemma separated_grow st m e v b :
  wf st → separated st →
  dict_get m (vendors_by_id st) = Some e →
  (∃ d, d ∈ v_domains v ∧ domain_to_id st !! d = Some m) →
  single_owner (domain_to_id st) (v_domains v) = true →
  b ⊆ v_domains v →
  separated
    (MergeState
       (dict_set m (set_domains (sorted_union (v_domains e) b) e)
          (vendors_by_id st))
       (register b m (domain_to_id st))).
Proof.
  intros Hwf Hsep He (d0 & Hd0 & Hm) Hsingle Hb.
  assert (owned_only_by (domain_to_id st) (v_domains v) m = true) as Honly.
  { unfold single_owner in Hsingle.
    destruct (find_owner _ _) as [m0|] eqn:Ho.
    - assert (m = m0) as ->; [|done].
      eapply owned_only_by_spec; done.
    - apply find_owner_None in Ho. eapply Forall_forall in Ho; [|done].
      congruence. }
  apply separated_set; [done..| | |].
  - destruct Hsep as [_ Htruthy]. by eapply Htruthy.
  - simpl. intros d [Hd|Hd]%elem_of_sorted_union; [right|by left].
    destruct Hsep as [Howns _]. eapply Howns; [|done].
    by apply dict_get_elem_of.
  - apply owned_only_by_spec. intros d i Hd Hi.
    eapply owned_only_by_spec; [done| |done]. by apply Hb.
Qed.

Lemma separated_absorb_new st m v st' :
  wf st → separated st →
  (∃ d, d ∈ v_domains v ∧ domain_to_id st !! d = Some m) →
  single_owner (domain_to_id st) (v_domains v) = true →
  absorb_new st m v = Some st' → separated st'.
Proof.
  intros Hwf Hsep Hm Hsingle. unfold absorb_new.
  destruct (dict_get m (vendors_by_id st)) as [e|] eqn:He; simpl; [|done].
  destruct (difference (v_domains v) (v_domains e)) as [|d ds] eqn:Hd;
    intros [= <-]; [done|].
  rewrite <-Hd. eapply separated_grow; [done..|apply difference_subseteq].
Qed.

Lemma separated_absorb_all st m v st' :
  wf st → separated st →
  (∃ d, d ∈ v_domains v ∧ domain_to_id st !! d = Some m) →
  single_owner (domain_to_id st) (v_domains v) = true →
  absorb_all st m v = Some st' → separated st'.
Proof.
  intros Hwf Hsep Hm Hsingle. unfold absorb_all.
  destruct (dict_get m (vendors_by_id st)) as [e|] eqn:He; simpl; [|done].
  intros [= <-]. by eapply separated_grow.
Qed.

Lemma separated_insert_new suffix st v :
  wf st → separated st → truthy (v_id v) = true →
  find_owner (domain_to_id st) (v_domains v) = None →
  separated (insert_new suffix st v).
Proof.
  intros Hwf Hsep Hid Hnone%find_owner_None. unfold insert_new.
  assert (∀ k, owned_only_by (domain_to_id st) (v_domains v) k = true) as Hk.
  { intros k. apply owned_only_by_spec. intros d i Hd Hi.
    eapply Forall_forall in Hnone; [|done]. congruence. }
  destruct (dict_has _ _); simpl; apply separated_set; auto.
  by apply truthy_app.
Qed.

Lemma matched_None_separated st ds :
  separated st → matched (find_owner (domain_to_id st) ds) = None →
  find_owner (domain_to_id st) ds = None.
Proof.
  intros [_ Htruthy]. destruct (find_owner _ _) as [i|] eqn:Ho; [|done].
  apply find_owner_Some in Ho as (l1 & d & l2 & _ & Hd & _).
  simpl. by rewrite (Htruthy _ _ Hd).
Qed.

Lemma separated_ddg_step st r st' :
  wf st → separated st → truthy (v_id (normalize_vendor r)) = true →
  single_owner (domain_to_id st) (v_domains (normalize_vendor r)) = true →
  ddg_step st r = Some st' → separated st'.
Proof.
  intros Hwf Hsep Hid Hsingle. unfold ddg_step.
  destruct (find_premium st _) as [mp|] eqn:Hmp; simpl; [|done].
  destruct (matched mp) as [m|] eqn:Hm.
  { apply matched_Some in Hm as [-> _].
    apply find_premium_Some in Hmp as (d & e & Hd & Hi & _).
    apply separated_absorb_new; eauto. }
  destruct (matched (find_owner _ _)) as [m|] eqn:Hm'.
  { apply matched_Some in Hm' as [Ho _].
    apply find_owner_Some in Ho as (l1 & d & l2 & Hds & Hd & _).
    apply separated_absorb_all; [done..| |done].
    assert (d ∈ l1 ++ d :: l2) as Hin
      by (apply elem_of_app; right; apply list_elem_of_here).
    rewrite <-Hds in Hin. exists d. split; [exact Hin|done]. }
  intros [= <-]. apply separated_insert_new; [done..|].
  by apply matched_None_separated.
Qed.

Lemma separated_disconnect_step st r st' :
  wf st → separated st → truthy (v_id (normalize_vendor r)) = true →
  single_owner (domain_to_id st) (v_domains (normalize_vendor r)) = true →
  disconnect_step st r = Some st' → separated st'.
Proof.
  intros Hwf Hsep Hid Hsingle. unfold disconnect_step.
  destruct (matched (find_owner _ _)) as [m|] eqn:Hm'.
  { apply matched_Some in Hm' as [Ho _].
    apply find_owner_Some in Ho as (l1 & d & l2 & Hds & Hd & _).
    apply separated_absorb_new; [done..| |done].
    assert (d ∈ l1 ++ d :: l2) as Hin
      by (apply elem_of_app; right; apply list_elem_of_here).
    rewrite <-Hds in Hin. exists d. split; [exact Hin|done]. }
  intros [= <-]. apply separated_insert_new; [done..|].
  by apply matched_None_separated.
Qed.

Lemma separated_run_pass step suffix rs st st' :
  (∀ s r s', step s r = Some s' → lands suffix s (normalize_vendor r) s') →
  (∀ s r s', wf s → separated s → truthy (v_id (normalize_vendor r)) = true →
     single_owner (domain_to_id s) (v_domains (normalize_vendor r)) = true →
     step s r = Some s' → separated s') →
  Forall (λ r, truthy (v_id (normalize_vendor r)) = true) rs →
  no_straddling step st rs = true →
  wf st → separated st → run_pass step st rs = Some st' → separated st'.
Proof.
  intros Hlands Hstep Hids. revert st.
  induction Hids as [|r rs Hr _ IH]; intros st Hmon Hwf Hsep; simpl.
  - by intros [= <-].
  - simpl in Hmon. apply andb_true_iff in Hmon as [Hsingle Hmon].
    destruct (step st r) as [s|] eqn:Hs; simpl; [|done].
    apply IH; [done| |].
    + eapply wf_lands, Hlands; done.
    + eapply Hstep; done.
Qed.

Lemma separated_premium_pass rs st :
  Forall (λ r, truthy (v_id (normalize_vendor r)) = true) rs →
  premium_disjoint st rs = true →
  wf st → separated st → separated (foldl premium_step st rs).
Proof.
  intros Hids. revert st.
  induction Hids as [|r rs Hr _ IH]; intros st Hmon Hwf Hsep; simpl; [done|].
  simpl in Hmon. apply andb_true_iff in Hmon as [Honly Hmon].
  apply IH; [done| |].
  - eapply wf_lands, premium_step_lands. done.
  - apply separated_set; auto.
Qed.

Lemma separated_empty : separated empty_state.
Proof.
  split.
  - intros ??? []%elem_of_nil.
  - intros ??. simpl. by rewrite lookup_empty.
Qed.

(** X7: When no premium record repeats a domain of another one, no candidate
    straddles two owners and no id is empty, every domain of the output is
    in one record. *)
Theorem domains_unique_when_well_separated
    (premium duckduckgo disconnect : list raw_vendor) :
  Forall (λ r, truthy (v_id (normalize_vendor r)) = true)
         (premium ++ duckduckgo ++ disconnect) →
  well_separated premium duckduckgo disconnect = true →
  ∃ L, merge_vendors premium duckduckgo disconnect = Some L
  ∧ ∀ v w d, v ∈ L → w ∈ L → d ∈ v_domains v → d ∈ v_domains w → v = w.
Proof.
  intros [HP [HD HX]%Forall_app]%Forall_app Hsep.
  destruct (merge_vendors_finish premium duckduckgo disconnect)
    as (st & Hst & ->).
  exists (finish st). split; [done|].
  pose proof (wf_merge_state_of _ _ _ _ Hst) as Hwf.
  assert (separated st) as [Howns _].
  { unfold well_separated in Hsep. unfold merge_state_of in Hst.
    apply andb_true_iff in Hsep as [[H1 H2]%andb_true_iff H3].
    destruct (run_pass ddg_step _ _) as [st2|] eqn:Hst2; simpl in Hst; [|done].
    assert (separated (premium_pass premium)) as Hsep1.
    { apply separated_premium_pass;
        [|done|apply wf_empty|apply separated_empty].
      apply Forall_fmap. eapply Forall_impl; [exact HP|]. done. }
    assert (separated st2) as Hsep2.
    { eapply (separated_run_pass ddg_step "-ddg"); [| | |done| |done|done].
      - apply ddg_step_lands.
      - apply separated_ddg_step.
      - apply Forall_fmap. eapply Forall_impl; [exact HD|]. done.
      - apply wf_premium_pass. }
    eapply (separated_run_pass disconnect_step "-dc"); [| | |done| |done|done].
    - apply disconnect_step_lands.
    - apply separated_disconnect_step.
    - apply Forall_fmap. eapply Forall_impl; [exact HX|]. done.
    - eapply wf_ddg_pass, Hst2. apply wf_premium_pass. }
  intros v w d (v0 & [k1 Hv0]%elem_of_dict_values & ->)%elem_of_finish
    (w0 & [k2 Hw0]%elem_of_dict_values & ->)%elem_of_finish Hdv Hdw.
  simpl in Hdv, Hdw.
  pose proof (Howns _ _ _ Hv0 Hdv) as H1.
  pose proof (Howns _ _ _ Hw0 Hdw) as H2.
  rewrite H1 in H2. injection H2 as <-.
  apply elem_of_dict_get in Hv0, Hw0; try apply (wf_nodup _ Hwf).
  congruence.
Qed.

Example well_separated_inputs :
  well_separated [rec "acme" ["acme.com"]]
                 [rec "acme-track" ["acme.com"; "t.acme.com"]]
                 [rec "acme-track" ["acme.com"]] = true
  ∧ well_separated []
      [rec "x" ["a.com"]; rec "y" ["b.com"]; rec "v" ["a.com"; "b.com"]] []
    = false.
Proof. by vm_compute. Qed.

(** ** A secondary record that calls itself premium *)







(** ** Reading the files *)

Lemma load_vendors_inl f e :
  load_vendors f = inl e → f = Unparsable ∧ e = JSONDecodeError.
Proof.
  destruct f as [| |[db| |]]; simpl; try done.
  - by intros [= <-].
  - by destruct (db_vendors db).
Qed.

Lemma load_vendors_readable f :
  readable f = true → ∃ vendors, load_vendors f = inr vendors.
Proof.
  intros Hf. destruct (load_vendors f) as [e|vs] eqn:Hl; [|by eexists].
  apply load_vendors_inl in Hl as [-> _]. done.
Qed.

(** ** The engine as a whole *)

(** X1: The three passes subscript [vendors_by_id] with ids read from
    [domain_to_id]; none of these raises, since every id of the index is a
    key of the table, and every record is stored under its own id. *)
Theorem merge_never_raises (premium duckduckgo disconnect : list raw_vendor) :
  ∃ st, merge_state_of premium duckduckgo disconnect = Some st
  ∧ merge_vendors premium duckduckgo disconnect = Some (finish st)
  ∧ (∀ d i, domain_to_id st !! d = Some i →
            is_Some (dict_get i (vendors_by_id st)))
  ∧ (∀ k v, dict_get k (vendors_by_id st) = Some v → v_id v = k).
Proof.
  destruct (merge_vendors_finish premium duckduckgo disconnect)
    as (st & Hst & Hm).
  pose proof (wf_merge_state_of _ _ _ _ Hst) as Hwf.
  exists st. split_and!; [done..| |].
  - intros d i Hi. eapply dict_get_is_Some, wf_idx; done.
  - intros k v Hk. eapply wf_key, dict_get_elem_of; done.
Qed.

Lemma leb_neq_ltb s1 s2 :
  String.leb s1 s2 = true → s1 ≠ s2 → String.ltb s1 s2 = true.
Proof.
  unfold String.leb, String.ltb.
  destruct (String.compare s1 s2) eqn:Hc; [|done..].
  by apply String.compare_eq_iff in Hc.
Qed.

Global Instance id_le_trans : Transitive id_le.
Proof. intros u v w. unfold id_le. apply transitivity. Qed.

Lemma strictly_sorted l :
  Sorted id_le l → NoDup (v_id <$> l) → StronglySorted id_lt l.
Proof.
  intros Hs. apply Sorted_StronglySorted in Hs; [|apply _].
  induction Hs as [|v l Hl IH Hv].
  - constructor.
  - rewrite fmap_cons. intros [Hnotin Hnd]%NoDup_cons.
    constructor; [by apply IH|].
    apply Forall_forall. intros w Hw. apply leb_neq_ltb.
    + eapply Forall_forall in Hv; [|done]. unfold id_le, String.le in Hv.
      by apply Is_true_true.
    + intros Heq. apply Hnotin. rewrite Heq.
      apply list_elem_of_fmap. by exists w.
Qed.

(** X2: The output is in strictly ascending order of id: no two records have
    the same id, whatever ids the inputs had. *)
Theorem output_strictly_sorted (premium duckduckgo disconnect : list raw_vendor) :
  ∃ L, merge_vendors premium duckduckgo disconnect = Some L
       ∧ StronglySorted id_lt L.
Proof.
  destruct (merge_vendors_finish premium duckduckgo disconnect)
    as (st & Hst & ->).
  eexists. split; [done|]. apply strictly_sorted.
  - apply sort_by_id_sorted.
  - eapply finish_ids_NoDup, wf_merge_state_of, Hst.
Qed.

Lemma dict_set_length {V} k (x : V) d :
  (length (dict_set k x d) ≤ S (length d))%nat.
Proof.
  induction d as [|[k' y] d IH]; simpl; [lia|].
  case_bool_decide; simpl; lia.
Qed.

Lemma lands_length suffix st v st' :
  lands suffix st v st' →
  (length (vendors_by_id st') ≤ S (length (vendors_by_id st)))%nat.
Proof. destruct 1; simpl; try apply dict_set_length. lia. Qed.

Lemma run_pass_length step suffix rs st st' :
  (∀ s r s', step s r = Some s' → lands suffix s (normalize_vendor r) s') →
  run_pass step st rs = Some st' →
  (length (vendors_by_id st')
   ≤ length (vendors_by_id st) + length rs)%nat.
Proof.
  intros Hlands. revert st. induction rs as [|r rs IH]; intros st; simpl.
  - intros [= <-]. lia.
  - destruct (step st r) as [s|] eqn:Hs; simpl; [|done].
    intros Hrun%IH. apply Hlands, lands_length in Hs. lia.
Qed.

Lemma premium_pass_length rs st :
  (length (vendors_by_id (foldl premium_step st rs))
   ≤ length (vendors_by_id st) + length rs)%nat.
Proof.
  revert st. induction rs as [|r rs IH]; intros st; simpl; [lia|].
  etrans; [apply IH|].
  pose proof (lands_length _ _ _ _ (premium_step_lands st r)). simpl in *. lia.
Qed.

Lemma finish_length st : length (finish st) = length (vendors_by_id st).
Proof.
  unfold finish, dict_values.
  by rewrite sort_by_id_perm, !length_fmap.
Qed.

(** X3: A step adds at most one record and none is ever removed from the
    table, so the output has at most as many records as the inputs. *)
Theorem output_count_bound (premium duckduckgo disconnect : list raw_vendor) :
  ∃ L, merge_vendors premium duckduckgo disconnect = Some L
       ∧ (length L ≤ length premium + length duckduckgo + length disconnect)%nat.
Proof.
  destruct (merge_vendors_finish premium duckduckgo disconnect)
    as (st & Hst & ->).
  eexists. split; [done|]. rewrite finish_length.
  unfold merge_state_of in Hst.
  destruct (run_pass ddg_step _ _) as [st2|] eqn:H2; simpl in Hst; [|done].
  apply (run_pass_length _ "-dc") in Hst; [|apply disconnect_step_lands].
  apply (run_pass_length _ "-ddg") in H2; [|apply ddg_step_lands].
  pose proof (premium_pass_length (mark_premium <$> premium) empty_state) as H1.
  unfold premium_pass in H2. rewrite !length_fmap in *. simpl in H1. lia.
Qed.

(** ** Where the output comes from *)

Lemma stored_domains_lands (Dp : string → Prop) suffix st v st' :
  all_records (λ w, Forall Dp (v_domains w)) st →
  Forall Dp (v_domains v) →
  lands suffix st v st' →
  all_records (λ w, Forall Dp (v_domains w)) st'.
Proof.
  intros Hst Hv. destruct 1 as [|m e b He Hb| | |]; [done|..];
    apply all_records_set; auto.
  simpl. apply Forall_forall. intros d [Hd|Hd]%elem_of_sorted_union.
  - apply dict_get_elem_of in He. apply Hst in He.
    eapply Forall_forall in He; done.
  - eapply Forall_forall in Hv; [done|]. by apply Hb.
Qed.

(** X4: The engine invents no domain: every domain of an output record is a
    lower-cased domain of some input record. *)
Theorem output_domains_come_from_inputs
    (premium duckduckgo disconnect : list raw_vendor) :
  ∃ L, merge_vendors premium duckduckgo disconnect = Some L
  ∧ ∀ v d, v ∈ L → d ∈ v_domains v →
      ∃ r, r ∈ premium ++ duckduckgo ++ disconnect
           ∧ d ∈ v_domains (normalize_vendor r).
Proof.
  destruct (merge_vendors_finish premium duckduckgo disconnect)
    as (st & Hst & ->).
  eexists. split; [done|].
  set (Dp := λ d, ∃ r, r ∈ premium ++ duckduckgo ++ disconnect
                       ∧ d ∈ v_domains (normalize_vendor r)).
  assert (∀ r, r ∈ premium ++ duckduckgo ++ disconnect →
               Forall Dp (v_domains (normalize_vendor r))) as Hin.
  { intros r Hr. apply Forall_forall. intros d Hd. by exists r. }
  assert (all_records (λ w, Forall Dp (v_domains w)) st) as Hall.
  { unfold merge_state_of in Hst.
    destruct (run_pass ddg_step _ _) as [st2|] eqn:H2; simpl in Hst; [|done].
    revert Hst. apply run_pass_invariant.
    { intros s r s' (r0 & -> & Hr)%list_elem_of_fmap Hs Hstep.
      eapply stored_domains_lands, disconnect_step_lands, Hstep; [done|].
      apply (Hin r0). rewrite !elem_of_app. auto. }
    revert H2. apply run_pass_invariant.
    { intros s r s' (r0 & -> & Hr)%list_elem_of_fmap Hs Hstep.
      eapply stored_domains_lands, ddg_step_lands, Hstep; [done|].
      apply (Hin r0). rewrite !elem_of_app. auto. }
    unfold premium_pass. apply foldl_invariant; [|by intros ?? []%elem_of_nil].
    intros s r (r0 & -> & Hr)%list_elem_of_fmap Hs.
    eapply stored_domains_lands, premium_step_lands; [done|].
    apply (Hin r0). rewrite !elem_of_app. auto. }
  intros v d (w & [k Hw]%elem_of_dict_values & ->)%elem_of_finish Hd.
  simpl in Hd. apply Hall in Hw. eapply Forall_forall in Hw; done.
Qed.


(** X6: Normalizing twice is normalizing once. *)
Theorem normalize_vendor_idempotent (r : raw_vendor) :
  normalize_vendor (as_input (normalize_vendor r)) = normalize_vendor r.
Proof.
  unfold normalize_vendor at 1. simpl.
  rewrite lower_domains_fixed by apply lower_domains_ok.
  rewrite clamp_risk_fixed by apply clamp_risk_range.
  rewrite valid_category_fixed by apply valid_category_valid.
  done.
Qed.

Lemma domains_unique_when_well_separated_witness :
  ∃ L, merge_vendors [rec "acme" ["acme.com"]]
                     [rec "acme-track" ["acme.com"; "t.acme.com"];
                      rec "other" ["other.com"]]
                     [rec "acme-track" ["acme.com"]] = Some L
  ∧ ∀ v w d, v ∈ L → w ∈ L → d ∈ v_domains v → d ∈ v_domains w → v = w.
Proof.
  apply (domains_unique_when_well_separated
           [rec "acme" ["acme.com"]]
           [rec "acme-track" ["acme.com"; "t.acme.com"];
            rec "other" ["other.com"]]
           [rec "acme-track" ["acme.com"]]).
  - repeat constructor.
  - by vm_compute.
Defined.

(** X8: With no secondary source and distinct premium ids, the merge is the
    normalizer and the clean-up applied to each premium record, sorted by
    id: one output record for each premium record. *)
Theorem premium_only_merge (premium : list raw_vendor) :
  NoDup ((λ r, v_id (normalize_vendor r)) <$> premium) →
  ∃ L, merge_vendors premium [] [] = Some L
  ∧ L = sort_by_id
          ((λ r, strip_import_fields (normalize_vendor (mark_premium r)))
             <$> premium)
  ∧ length L = length premium.
Proof.
  intros Hnd. eexists. split_and!; [|done|].
  - unfold merge_vendors, merge_state_of. simpl. f_equal.
    unfold finish, premium_pass. rewrite premium_pass_fresh.
    + change (vendors_by_id empty_state) with (@nil (string * vendor)).
      rewrite app_nil_l. unfold dict_values.
      by rewrite <-!list_fmap_compose.
    + by rewrite <-list_fmap_compose.
    + intros r _. apply not_elem_of_nil.
  - by rewrite sort_by_id_perm, length_fmap.
Qed.

Lemma premium_only_merge_witness :
  ∃ L, merge_vendors [rec "p" ["P.com"]; rec "acme" ["acme.com"]] [] []
       = Some L
  ∧ length L = 2%nat.
Proof.
  destruct (premium_only_merge [rec "p" ["P.com"]; rec "acme" ["acme.com"]])
    as (L & HL & _ & Hlen).
  - apply (bool_decide_unpack _). by vm_compute.
  - by exists L.
Defined.

(** ** No domain is lost when the ids are distinct *)

Lemma difference_nil a b : difference a b = [] → a ⊆ b.
Proof.
  unfold difference. intros Hnil d Hd.
  destruct (decide (d ∈ b)) as [|Hnot]; [done|].
  assert (d ∈ filter (λ d, d ∉ b) a) as Hin by by apply list_elem_of_filter.
  rewrite Hnil in Hin. by apply elem_of_nil in Hin.
Qed.

Lemma elem_of_difference_or a b d : d ∈ a → d ∈ b ∨ d ∈ difference a b.
Proof.
  intros Hd. destruct (decide (d ∈ b)); [by left|right].
  by apply list_elem_of_filter.
Qed.

Lemma covers_grow Q st r m e ds idx :
  covers Q st →
  dict_get m (vendors_by_id st) = Some e →
  v_domains e ⊆ ds →
  v_domains (normalize_vendor r) ⊆ ds →
  covers (Q ++ [r])
    (MergeState (dict_set m (set_domains ds e) (vendors_by_id st)) idx).
Proof.
  intros [Hkeys Hcov] He Hsub Hr. split; simpl.
  - intros k Hk. rewrite dict_keys_set_old in Hk
      by (apply dict_get_is_Some; by eexists).
    rewrite fmap_app. apply elem_of_app. left. by apply Hkeys.
  - assert (∀ d, (∃ k v, dict_get k (vendors_by_id st) = Some v
                         ∧ d ∈ v_domains v) →
              ∃ k v, dict_get k (dict_set m (set_domains ds e)
                                   (vendors_by_id st)) = Some v
                     ∧ d ∈ v_domains v) as Hold.
    { intros d (k & v & Hk & Hd). destruct (decide (m = k)) as [->|Hne].
      - eexists k, _. rewrite dict_get_set_eq. split; [done|]. simpl.
        apply Hsub. congruence.
      - exists k, v. by rewrite dict_get_set_ne. }
    intros r' d [Hr'|Hx%list_elem_of_singleton]%elem_of_app Hd; subst.
    + apply Hold. by eapply Hcov.
    + eexists m, _. rewrite dict_get_set_eq. split; [done|]. simpl.
      by apply Hr.
Qed.

Lemma covers_same Q st r m e :
  covers Q st →
  dict_get m (vendors_by_id st) = Some e →
  v_domains (normalize_vendor r) ⊆ v_domains e →
  covers (Q ++ [r]) st.
Proof.
  intros [Hkeys Hcov] He Hr. split.
  - intros k Hk. rewrite fmap_app. apply elem_of_app. left. by apply Hkeys.
  - intros r' d [Hr'|Hx%list_elem_of_singleton]%elem_of_app Hd; subst.
    + by eapply Hcov.
    + exists m, e. split; [done|]. by apply Hr.
Qed.

Lemma covers_insert Q st r v idx :
  covers Q st →
  v_id v = v_id (normalize_vendor r) →
  v_domains v = v_domains (normalize_vendor r) →
  v_id v ∉ dict_keys (vendors_by_id st) →
  covers (Q ++ [r])
    (MergeState (dict_set (v_id v) v (vendors_by_id st)) idx).
Proof.
  intros [Hkeys Hcov] Hid Hds Hfresh. split; simpl.
  - intros k. rewrite dict_set_new by done. unfold dict_keys.
    rewrite !fmap_app. simpl. rewrite !elem_of_app.
    intros [Hk|Hk]; [left; by apply Hkeys|right].
    apply list_elem_of_singleton in Hk. subst k.
    apply list_elem_of_singleton. done.
  - intros r' d [Hr'|Hx%list_elem_of_singleton]%elem_of_app Hd; subst.
    + destruct (Hcov _ _ Hr' Hd) as (k & w & Hk & Hw).
      exists k, w. split; [|done]. rewrite dict_get_set_ne; [done|].
      intros <-. apply Hfresh. apply dict_get_is_Some. by eexists.
    + exists (v_id v), v. rewrite dict_get_set_eq. split; [done|].
      by rewrite Hds.
Qed.

Lemma covers_absorb_new Q st r m st' :
  covers Q st → absorb_new st m (normalize_vendor r) = Some st' →
  covers (Q ++ [r]) st'.
Proof.
  intros Hc. unfold absorb_new.
  destruct (dict_get m (vendors_by_id st)) as [e|] eqn:He; simpl; [|done].
  destruct (difference _ _) as [|d ds] eqn:Hd; intros [= <-].
  - eapply covers_same; [done..|]. by apply difference_nil.
  - rewrite <-Hd. apply covers_grow; [done..| |].
    + intros x Hx. apply elem_of_sorted_union. by left.
    + intros x Hx. apply elem_of_sorted_union.
      by apply elem_of_difference_or.
Qed.

Lemma covers_absorb_all Q st r m st' :
  covers Q st → absorb_all st m (normalize_vendor r) = Some st' →
  covers (Q ++ [r]) st'.
Proof.
  intros Hc. unfold absorb_all.
  destruct (dict_get m (vendors_by_id st)) as [e|] eqn:He; simpl; [|done].
  intros [= <-]. apply covers_grow; [done..| |].
  - intros x Hx. apply elem_of_sorted_union. by left.
  - intros x Hx. apply elem_of_sorted_union. by right.
Qed.

Lemma covers_insert_new suffix Q st r :
  covers Q st →
  v_id (normalize_vendor r) ∉ (λ r, v_id (normalize_vendor r)) <$> Q →
  covers (Q ++ [r]) (insert_new suffix st (normalize_vendor r)).
Proof.
  intros Hc Hfresh. unfold insert_new.
  assert (v_id (normalize_vendor r) ∉ dict_keys (vendors_by_id st)) as Hk.
  { intros Hk. apply Hfresh. by apply Hc. }
  rewrite (proj2 (dict_has_false _ _)) by done.
  by apply covers_insert.
Qed.

Lemma covers_ddg_step Q st r st' :
  covers Q st →
  v_id (normalize_vendor r) ∉ (λ r, v_id (normalize_vendor r)) <$> Q →
  ddg_step st r = Some st' → covers (Q ++ [r]) st'.
Proof.
  intros Hc Hfresh. unfold ddg_step.
  destruct (find_premium st _) as [mp|]; simpl; [|done].
  destruct (matched mp); [by apply covers_absorb_new|].
  destruct (matched (find_owner _ _)); [by apply covers_absorb_all|].
  intros [= <-]. by apply covers_insert_new.
Qed.

Lemma covers_disconnect_step Q st r st' :
  covers Q st →
  v_id (normalize_vendor r) ∉ (λ r, v_id (normalize_vendor r)) <$> Q →
  disconnect_step st r = Some st' → covers (Q ++ [r]) st'.
Proof.
  intros Hc Hfresh. unfold disconnect_step.
  destruct (matched (find_owner _ _)); [by apply covers_absorb_new|].
  intros [= <-]. by apply covers_insert_new.
Qed.

Lemma covers_premium_step Q st r :
  covers Q st →
  v_id (normalize_vendor r) ∉ (λ r, v_id (normalize_vendor r)) <$> Q →
  covers (Q ++ [r]) (premium_step st r).
Proof.
  intros Hc Hfresh. unfold premium_step. apply covers_insert; [done..|].
  intros Hk. apply Hfresh. by apply Hc.
Qed.

Lemma covers_run_pass step rs Q st st' :
  (∀ Q s r s', covers Q s → v_id (normalize_vendor r) ∉ ids_of Q →
               step s r = Some s' → covers (Q ++ [r]) s') →
  NoDup (ids_of (Q ++ rs)) → covers Q st →
  run_pass step st rs = Some st' → covers (Q ++ rs) st'.
Proof.
  intros Hstep. revert Q st.
  induction rs as [|r rs IH]; intros Q st Hnd Hc; simpl.
  - intros [= <-]. by rewrite app_nil_r.
  - destruct (step st r) as [s|] eqn:Hs; simpl; [|done].
    rewrite cons_middle, app_assoc in Hnd |- *. apply IH; [done|].
    eapply Hstep; [done| |done].
    unfold ids_of in Hnd. rewrite !fmap_app in Hnd.
    apply NoDup_app in Hnd as [Hnd _].
    apply NoDup_app in Hnd as (_ & Hnotin & _).
    intros Hin. eapply Hnotin; [done|]. apply list_elem_of_here.
Qed.

Lemma covers_foldl rs Q st :
  NoDup (ids_of (Q ++ rs)) → covers Q st →
  covers (Q ++ rs) (foldl premium_step st rs).
Proof.
  revert Q st. induction rs as [|r rs IH]; intros Q st Hnd Hc; simpl.
  - by rewrite app_nil_r.
  - rewrite cons_middle, app_assoc in Hnd |- *. apply IH; [done|].
    apply covers_premium_step; [done|].
    unfold ids_of in Hnd. rewrite !fmap_app in Hnd.
    apply NoDup_app in Hnd as [Hnd _].
    apply NoDup_app in Hnd as (_ & Hnotin & _).
    intros Hin. eapply Hnotin; [done|]. apply list_elem_of_here.
Qed.

(** X9: When the ids of all input records are pairwise distinct, no record is
    renamed or replaced, and every lower-cased domain of every input record
    is in the domain list of some output record. *)
Theorem no_domain_lost_with_distinct_ids
    (premium duckduckgo disconnect : list raw_vendor) :
  NoDup ((λ r, v_id (normalize_vendor r))
           <$> premium ++ duckduckgo ++ disconnect) →
  ∃ L, merge_vendors premium duckduckgo disconnect = Some L
  ∧ ∀ r d, r ∈ premium ++ duckduckgo ++ disconnect →
           d ∈ v_domains (normalize_vendor r) →
           ∃ v, v ∈ L ∧ d ∈ v_domains v.
Proof.
  intros Hnd.
  destruct (merge_vendors_finish premium duckduckgo disconnect)
    as (st & Hst & ->).
  eexists. split; [done|].
  set (P := mark_premium <$> premium).
  set (D := default_tier <$> duckduckgo).
  set (X := default_tier <$> disconnect).
  assert (NoDup (ids_of (([] ++ P) ++ D ++ X))) as Hnd'.
  { unfold ids_of, P, D, X. simpl.
    rewrite !fmap_app, <-!list_fmap_compose.
    by rewrite !fmap_app in Hnd. }
  assert (covers ((([] ++ P) ++ D) ++ X) st) as [_ Hcov].
  { unfold merge_state_of in Hst. fold D X in Hst.
    destruct (run_pass ddg_step _ D) as [st2|] eqn:H2; simpl in Hst; [|done].
    eapply (covers_run_pass disconnect_step); [| | |done].
    - intros. by eapply covers_disconnect_step.
    - by rewrite <-app_assoc.
    - eapply (covers_run_pass ddg_step); [| | |done].
      + intros. by eapply covers_ddg_step.
      + rewrite app_assoc in Hnd'. unfold ids_of in *.
        rewrite fmap_app in Hnd'. by apply NoDup_app in Hnd' as [? _].
      + unfold premium_pass. fold P. apply covers_foldl.
        * rewrite app_assoc in Hnd'. unfold ids_of in *.
          rewrite !fmap_app in Hnd'. apply NoDup_app in Hnd' as [Hnd' _].
          rewrite fmap_app. by apply NoDup_app in Hnd' as [? _].
        * split; [by intros ? []%elem_of_nil|by intros ?? []%elem_of_nil]. }
  intros r d Hr Hd.
  assert (∃ r', r' ∈ (([] ++ P) ++ D) ++ X
                ∧ v_domains (normalize_vendor r')
                  = v_domains (normalize_vendor r)) as (r' & Hr' & Heq).
  { simpl. apply elem_of_app in Hr as [Hr|[Hr|Hr]%elem_of_app].
    - exists (mark_premium r). split; [|done]. rewrite !elem_of_app.
      left. left. by apply list_elem_of_fmap_2.
    - exists (default_tier r). split; [|done]. rewrite !elem_of_app.
      left. right. by apply list_elem_of_fmap_2.
    - exists (default_tier r). split; [|done]. rewrite !elem_of_app.
      right. by apply list_elem_of_fmap_2. }
  rewrite <-Heq in Hd. destruct (Hcov _ _ Hr' Hd) as (k & w & Hk & Hw).
  exists (strip_import_fields w). split; [|done].
  apply elem_of_finish. exists w. split; [|done].
  apply elem_of_dict_values. exists k. by apply dict_get_elem_of.
Qed.

Lemma no_domain_lost_with_distinct_ids_witness :
  ∃ L, merge_vendors [rec "acme" ["acme.com"]]
                     [rec "acme-track" ["acme.com"; "t.acme.com"]]
                     [rec "other" ["other.com"; "T.acme.com"]] = Some L
  ∧ ∃ v, v ∈ L ∧ "other.com" ∈ v_domains v.
Proof.
  destruct (no_domain_lost_with_distinct_ids
              [rec "acme" ["acme.com"]]
              [rec "acme-track" ["acme.com"; "t.acme.com"]]
              [rec "other" ["other.com"; "T.acme.com"]])
    as (L & HL & Hcov).
  - apply (bool_decide_unpack _). by vm_compute.
  - exists L. split; [done|].
    apply (Hcov (rec "other" ["other.com"; "T.acme.com"])).
    + simpl. do 2 apply list_elem_of_further. apply list_elem_of_here.
    + apply (bool_decide_unpack _). by vm_compute.
Defined.

(** ** The data directory and [main] *)

Lemma omap_c_id_cons c cs i :
  c_id c = Some i → omap c_id (c :: cs) = i :: omap c_id cs.
Proof. intros Hi. change (c :: cs) with ([c] ++ cs). rewrite omap_app.
  cbn. by rewrite Hi. Qed.

Lemma category_ids_inr cs ids :
  category_ids cs = inr ids → ids = omap c_id cs ∧ Forall (λ c, is_Some (c_id c)) cs.
Proof.
  revert ids. induction cs as [|c cs IH]; intros ids; simpl.
  - intros [= <-]. by split.
  - destruct (c_id c) as [i|] eqn:Hi; [|done].
    destruct (category_ids cs) as [e|ids'] eqn:Hcs; [done|].
    intros [= <-]. destruct (IH ids' eq_refl) as [-> Hall].
    split.
    + reflexivity.
    + constructor; [by rewrite Hi|done].
Qed.

Lemma category_ids_total cs :
  Forall (λ c, is_Some (c_id c)) cs → category_ids cs = inr (omap c_id cs).
Proof.
  induction 1 as [|c cs [i Hi] _ IH]; simpl; [done|].
  by rewrite Hi, IH.
Qed.

Lemma category_ids_inl cs e :
  category_ids cs = inl e → e = KeyError ∧ Exists (λ c, c_id c = None) cs.
Proof.
  induction cs as [|c cs IH]; simpl; [done|].
  destruct (c_id c) as [i|] eqn:Hi.
  - destruct (category_ids cs) as [e'|ids'] eqn:Hcs; [|done].
    intros [= <-]. destruct (IH eq_refl) as [-> Hex].
    split; [done|]. by apply Exists_cons_tl.
  - intros [= <-]. split; [done|]. by apply Exists_cons_hd.
Qed.

Lemma add_new_categories_cases (existing : list category) :
  match add_new_categories existing with
  | inr categories =>
      Forall (λ c, is_Some (c_id c)) existing
      ∧ categories
        = existing
          ++ (if bool_decide ("email_marketing" ∈ omap c_id existing)
              then [] else NEW_CATEGORIES)
      ∧ "email_marketing" ∈ omap c_id categories
      ∧ add_new_categories categories = inr categories
  | inl e => e = KeyError ∧ Exists (λ c, c_id c = None) existing
  end.
Proof.
  unfold add_new_categories.
  destruct (category_ids existing) as [e|ids] eqn:Hids.
  { by apply category_ids_inl. }
  apply category_ids_inr in Hids as [-> Hall]. simpl.
  split; [done|].
  case_bool_decide as Hin; simpl.
  - rewrite app_nil_r. split_and!; [done..|].
    rewrite category_ids_total by done. simpl.
    by rewrite bool_decide_eq_true_2.
  - split; [done|].
    assert ("email_marketing" ∈ omap c_id (existing ++ NEW_CATEGORIES)) as Hnew.
    { rewrite omap_app, elem_of_app. right. simpl.
      apply list_elem_of_here. }
    split; [done|].
    rewrite category_ids_total.
    + simpl. by rewrite bool_decide_eq_true_2.
    + apply Forall_app. split; [done|]. repeat constructor. by eexists.
Qed.

(** X10: The catalog only grows, and only by "email_marketing": the categories
    read from the file stay in front, in their order; "email_marketing" is
    appended unless a category has that id; adding again changes nothing.
    The one way to fail is a category without [id]. *)
Theorem category_catalog_append_only (existing : list category) :
  match add_new_categories existing with
  | inr categories =>
      Forall (λ c, is_Some (c_id c)) existing
      ∧ categories
        = existing
          ++ (if bool_decide ("email_marketing" ∈ omap c_id existing)
              then [] else NEW_CATEGORIES)
      ∧ "email_marketing" ∈ omap c_id categories
      ∧ add_new_categories categories = inr categories
  | inl e => e = KeyError ∧ Exists (λ c, c_id c = None) existing
  end.
Proof. apply add_new_categories_cases. Qed.

(** X11: [load_vendors] takes a [vendors.json] that is a bare list (or any JSON
    value that is not an object), but [load_categories] reads the same file
    with [data.get]: [main] then ends with [AttributeError], after the
    backup and before anything else is written. *)
Theorem main_fails_on_bare_list (dir : data_dir) (now : string) (d : document) :
  vendors_json dir = Parsed d →
  is_object d = false →
  readable (vendors_duckduckgo_json dir) = true →
  readable (vendors_disconnect_json dir) = true →
  (∃ premium, load_vendors (vendors_json dir) = inr premium)
  ∧ main dir now = (set_backup (Parsed d) dir, Some AttributeError).
Proof.
  intros Hv Hd H2 H3. unfold main. rewrite Hv.
  assert (∃ premium, load_vendors (Parsed d) = inr premium) as [P HP].
  { destruct d; [done|by eexists..]. }
  split; [by eexists|]. rewrite HP.
  destruct (load_vendors_readable _ H2) as [D ->].
  destruct (load_vendors_readable _ H3) as [X ->].
  destruct (merge_vendors_total P D X) as [L ->]. simpl. rewrite Hv.
  by destruct d.
Qed.

Lemma main_fails_on_bare_list_witness :
  main (DataDir (Parsed (DList [rec "acme" ["acme.com"]])) Missing Missing
                Missing false Missing) "2026-01-01T00:00:00.000Z"
  = (DataDir (Parsed (DList [rec "acme" ["acme.com"]])) Missing Missing
             (Parsed (DList [rec "acme" ["acme.com"]])) false Missing,
     Some AttributeError).
Proof.
  apply (main_fails_on_bare_list
           (DataDir (Parsed (DList [rec "acme" ["acme.com"]])) Missing Missing
                    Missing false Missing)
           "2026-01-01T00:00:00.000Z" (DList [rec "acme" ["acme.com"]]));
    reflexivity.
Defined.

Lemma main_run dir now P D X merged cats0 cats :
  load_vendors (vendors_json dir) = inr P →
  load_vendors (vendors_duckduckgo_json dir) = inr D →
  load_vendors (vendors_disconnect_json dir) = inr X →
  merge_vendors P D X = Some merged →
  load_categories (vendors_json dir) = inr cats0 →
  add_new_categories cats0 = inr cats →
  main dir now = (written dir (vendor_db now merged cats), None).
Proof.
  intros HP HD HX Hm Hc Ha. unfold main. rewrite HP, HD, HX, Hm.
  assert (load_categories
            (vendors_json match vendors_json dir with
                          | Missing => dir
                          | original => set_backup original dir
                          end) = inr cats0) as ->.
  { rewrite <-Hc. destruct (vendors_json dir) eqn:Hv; simpl; by rewrite ?Hv. }
  rewrite Ha. unfold written.
  destruct dir as [v d x b c cv]. simpl.
  by destruct v, c.
Qed.

Lemma main_ok_inv dir now :
  snd (main dir now) = None →
  ∃ P D X merged cats0 cats,
    load_vendors (vendors_json dir) = inr P
    ∧ load_vendors (vendors_duckduckgo_json dir) = inr D
    ∧ load_vendors (vendors_disconnect_json dir) = inr X
    ∧ merge_vendors P D X = Some merged
    ∧ load_categories (vendors_json dir) = inr cats0
    ∧ add_new_categories cats0 = inr cats.
Proof.
  unfold main.
  destruct (load_vendors (vendors_json dir)) as [e|P] eqn:HP; [done|].
  destruct (load_vendors (vendors_duckduckgo_json dir)) as [e|D] eqn:HD;
    [done|].
  destruct (load_vendors (vendors_disconnect_json dir)) as [e|X] eqn:HX;
    [done|].
  destruct (merge_vendors P D X) as [merged|] eqn:Hm; [|done].
  assert (load_categories
            (vendors_json match vendors_json dir with
                          | Missing => dir
                          | original => set_backup original dir
                          end)
          = load_categories (vendors_json dir)) as ->
    by (destruct (vendors_json dir) eqn:Hv; simpl; by rewrite ?Hv).
  destruct (load_categories (vendors_json dir)) as [e|cats0] eqn:Hc; [done|].
  destruct (add_new_categories cats0) as [e|cats] eqn:Ha; [done|].
  intros _. by exists P, D, X, merged, cats0, cats.
Qed.

(** X12: What [main] writes it can read again: after a run that ended without
    exception, [load_vendors] returns the merged records from the new
    [vendors.json], the catalog contains "email_marketing", the backup holds
    the previous [vendors.json], and a second run ends without exception,
    leaves the catalog as it is and backs up the first run's output. *)
Theorem main_reads_its_output (dir : data_dir) (now later : string) :
  outcome dir now = None →
  let dir1 := fst (main dir now) in
  ∃ premium duckduckgo disconnect merged categories,
    load_vendors (vendors_json dir) = inr premium
    ∧ load_vendors (vendors_duckduckgo_json dir) = inr duckduckgo
    ∧ load_vendors (vendors_disconnect_json dir) = inr disconnect
    ∧ merge_vendors premium duckduckgo disconnect = Some merged
    ∧ vendors_json dir1 = vendor_db now merged categories
    ∧ load_vendors (vendors_json dir1) = inr (as_input <$> merged)
    ∧ load_categories (vendors_json dir1) = inr categories
    ∧ "email_marketing" ∈ omap c_id categories
    ∧ vendors_backup_json dir1
      = match vendors_json dir with
        | Missing => vendors_backup_json dir
        | original => original
        end
    ∧ vendors_duckduckgo_json dir1 = vendors_duckduckgo_json dir
    ∧ vendors_disconnect_json dir1 = vendors_disconnect_json dir
    ∧ core_vendors_json dir1
      = (if core_dir_exists dir then vendors_json dir1
         else core_vendors_json dir)
    ∧ outcome dir1 later = None
    ∧ load_categories (vendors_json (fst (main dir1 later))) = inr categories
    ∧ vendors_backup_json (fst (main dir1 later)) = vendors_json dir1.
Proof.
  unfold outcome. cbv zeta.
  intros (P & D & X & merged & cats0 & cats & HP & HD & HX & Hm & Hc & Ha)
    %main_ok_inv.
  rewrite (main_run dir now P D X merged cats0 cats) by done.
  pose proof (add_new_categories_cases cats0) as Hcat. rewrite Ha in Hcat.
  destruct Hcat as (_ & _ & Hemail & Hidem).
  destruct (merge_vendors_total (as_input <$> merged) D X) as [m2 Hm2].
  exists P, D, X, merged, cats. simpl.
  rewrite (main_run _ later (as_input <$> merged) D X m2 cats cats) by done.
  by split_and!.
Qed.

Lemma main_reads_its_output_witness :
  outcome (fst (main (DataDir Missing (Parsed (DList [rec "x" ["x.com"]]))
                              Missing Missing true Missing) "t0")) "t1"
  = None.
Proof.
  edestruct (main_reads_its_output
               (DataDir Missing (Parsed (DList [rec "x" ["x.com"]]))
                        Missing Missing true Missing) "t0" "t1")
    as (P & D & X & merged & cats & H).
  - reflexivity.
  - apply H.
Defined.

(** ** The statistics of [main] *)

Lemma scored_cons a b v l :
  scored a b (v :: l)
  = (if bool_decide (a ≤ v_risk_score v ≤ b) then S (scored a b l)
     else scored a b l).
Proof.
  unfold scored. case_bool_decide.
  - by rewrite filter_cons_True.
  - by rewrite filter_cons_False.
Qed.

Lemma risk_dist_foldl l c h m lo :
  Forall (λ v, 1 ≤ v_risk_score v ≤ 10) l →
  foldl count_risk (c, h, m, lo) l
  = (c + scored 8 10 l, h + scored 6 7 l, m + scored 4 5 l,
     lo + scored 1 3 l)%nat
  ∧ (scored 8 10 l + scored 6 7 l + scored 4 5 l + scored 1 3 l = length l)%nat.
Proof.
  intros Hl. revert c h m lo.
  induction Hl as [|v l Hv _ IH]; intros c h m lo.
  - simpl. split; [|done]. unfold scored. simpl.
    rewrite !pair_equal_spec. lia.
  - rewrite !scored_cons. cbn [foldl length]. unfold count_risk at 2.
    cbv zeta.
    destruct (bool_decide (8 ≤ v_risk_score v)) eqn:H8;
      [|destruct (bool_decide (6 ≤ v_risk_score v)) eqn:H6;
        [|destruct (bool_decide (4 ≤ v_risk_score v)) eqn:H4]];
      rewrite ?bool_decide_eq_true, ?bool_decide_eq_false in *;
      match goal with
      | |- context [foldl count_risk ?acc l] =>
          match acc with
          | (?a, ?b, ?c', ?d) => destruct (IH a b c' d) as [-> Hlen]
          end
      end;
      repeat case_bool_decide; try lia;
      (split; [rewrite !pair_equal_spec; lia|lia]).
Qed.

(** X13: The four buckets of the risk distribution split the records of a
    merge: since every score of the output lies in 1..10, the bucket
    printed as "low (1-3)", which is the [else] branch, holds the scores
    1 to 3 and nothing below, and "critical (8-10)" nothing above 10. *)
Theorem risk_distribution_of_output
    (premium duckduckgo disconnect : list raw_vendor) :
  ∃ L, merge_vendors premium duckduckgo disconnect = Some L
  ∧ risk_dist L = (scored 8 10 L, scored 6 7 L, scored 4 5 L, scored 1 3 L)
  ∧ (scored 8 10 L + scored 6 7 L + scored 4 5 L + scored 1 3 L
     = length L)%nat.
Proof.
  destruct (merge_vendors_finish premium duckduckgo disconnect)
    as (st & Hst & ->).
  eexists. split; [done|].
  assert (Forall (λ v, 1 ≤ v_risk_score v ≤ 10) (finish st)) as Hrange.
  { apply Forall_forall.
    intros v (w & [k Hw]%elem_of_dict_values & ->)%elem_of_finish.
    by destruct (normal_merge_state_of _ _ _ _ Hst k w Hw) as (_ & ? & _). }
  destruct (risk_dist_foldl (finish st) 0 0 0 0 Hrange) as [Hd Hlen].
  split; [|done]. unfold risk_dist. by rewrite Hd.
Qed.

(** ** The importers' helpers *)

Lemma is_id_char_not_upper c : is_id_char c = true → is_upper c = false.
Proof. destruct c as [[] [] [] [] [] [] [] []]; by vm_compute. Qed.

Lemma is_dash_id_char c : is_dash c = true → is_id_char c = true.
Proof. destruct c as [[] [] [] [] [] [] [] []]; by vm_compute. Qed.

Lemma sub_non_id_chars s :
  Forall (λ c, is_id_char c = true) (chars (sub_non_id s)).
Proof.
  induction s as [|c s IH]; simpl; constructor; [|done].
  destruct (is_id_char c) eqn:Hc; [done|by vm_compute].
Qed.

Lemma lstrip_dash_chars s :
  Forall (λ c, is_id_char c = true) (chars s) →
  Forall (λ c, is_id_char c = true) (chars (lstrip_dash s)).
Proof.
  induction s as [|c s IH]; simpl; [done|].
  intros [Hc Hs]%Forall_cons. destruct (is_dash c); [by apply IH|].
  by constructor.
Qed.

Lemma rstrip_dash_chars s :
  Forall (λ c, is_id_char c = true) (chars s) →
  Forall (λ c, is_id_char c = true) (chars (rstrip_dash s)).
Proof.
  induction s as [|c s IH]; simpl; [done|].
  intros [Hc Hs]%Forall_cons. specialize (IH Hs).
  destruct (rstrip_dash s) as [|c' r]; [destruct (is_dash c)|]; simpl.
  - constructor.
  - by repeat constructor.
  - by constructor.
Qed.

Lemma lstrip_dash_starts s : starts_with_dash (lstrip_dash s) = false.
Proof.
  induction s as [|c s IH]; simpl; [done|].
  destruct (is_dash c) eqn:Hc; [done|]. simpl. done.
Qed.

Lemma rstrip_dash_starts s :
  starts_with_dash s = false → starts_with_dash (rstrip_dash s) = false.
Proof.
  destruct s as [|c s]; simpl; [done|]. intros Hc.
  destruct (rstrip_dash s); [by rewrite Hc|done].
Qed.

Lemma rstrip_dash_ends s : ends_with_dash (rstrip_dash s) = false.
Proof.
  induction s as [|c s IH]; simpl; [done|].
  destruct (rstrip_dash s) as [|c' r] eqn:Hr.
  - destruct (is_dash c) eqn:Hc; [done|]. simpl. done.
  - simpl in *. done.
Qed.

Lemma lstrip_dash_fixed s : starts_with_dash s = false → lstrip_dash s = s.
Proof. destruct s as [|c s]; simpl; [done|]. by intros ->. Qed.

Lemma rstrip_dash_fixed s : ends_with_dash s = false → rstrip_dash s = s.
Proof.
  induction s as [|c s IH]; simpl; [done|].
  destruct s as [|c' s'].
  - simpl. by intros ->.
  - intros Hs. rewrite IH by done. done.
Qed.

Lemma sub_non_id_fixed s :
  Forall (λ c, is_id_char c = true) (chars s) → sub_non_id s = s.
Proof.
  induction s as [|c s IH]; simpl; [done|].
  intros [-> Hs]%Forall_cons. by rewrite IH.
Qed.

Lemma lower_fixed_id s :
  Forall (λ c, is_id_char c = true) (chars s) → lower s = s.
Proof.
  intros Hs. apply lower_fixed. induction s as [|c s IH]; simpl; [done|].
  apply Forall_cons in Hs as [Hc Hs].
  by rewrite (is_id_char_not_upper c), IH.
Qed.

Lemma lower_length s : String.length (lower s) = String.length s.
Proof. induction s; simpl; congruence. Qed.

Lemma sub_non_id_length s : String.length (sub_non_id s) = String.length s.
Proof. induction s; simpl; congruence. Qed.

Lemma lstrip_dash_length s :
  (String.length (lstrip_dash s) ≤ String.length s)%nat.
Proof.
  induction s as [|c s IH]; simpl; [done|].
  destruct (is_dash c); simpl; lia.
Qed.

Lemma rstrip_dash_length s :
  (String.length (rstrip_dash s) ≤ String.length s)%nat.
Proof.
  induction s as [|c s IH]; simpl; [done|].
  destruct (rstrip_dash s); [destruct (is_dash c)|]; simpl in *; lia.
Qed.

Lemma sanitize_id_chars name :
  Forall (λ c, is_id_char c = true) (chars (sanitize_id name)).
Proof. apply rstrip_dash_chars, lstrip_dash_chars, sub_non_id_chars. Qed.

Lemma sanitize_id_starts name : starts_with_dash (sanitize_id name) = false.
Proof. apply rstrip_dash_starts, lstrip_dash_starts. Qed.

Lemma sanitize_id_ends name : ends_with_dash (sanitize_id name) = false.
Proof. apply rstrip_dash_ends. Qed.

Lemma sanitize_id_idemp name :
  sanitize_id (sanitize_id name) = sanitize_id name.
Proof.
  unfold sanitize_id at 1. unfold strip_dash.
  rewrite lower_fixed_id, sub_non_id_fixed by apply sanitize_id_chars.
  rewrite lstrip_dash_fixed by apply sanitize_id_starts.
  apply rstrip_dash_fixed, sanitize_id_ends.
Qed.

(** X14: For a name of ASCII characters, the id made by [sanitize_id]
    consists of lower-case letters, digits and dashes, neither starts nor
    ends with a dash, is no longer than the name, and is its own
    [sanitize_id]. *)
Theorem sanitize_id_shape (name : string) :
  is_ascii name = true →
  let i := sanitize_id name in
  Forall (λ c, is_id_char c = true) (chars i)
  ∧ starts_with_dash i = false
  ∧ ends_with_dash i = false
  ∧ (String.length i ≤ String.length name)%nat
  ∧ sanitize_id i = i.
Proof.
  intros _ i.
  assert (Forall (λ c, is_id_char c = true) (chars i)) as Hchars
    by apply sanitize_id_chars.
  assert (starts_with_dash i = false) as Hstart
    by apply rstrip_dash_starts, lstrip_dash_starts.
  assert (ends_with_dash i = false) as Hend by apply rstrip_dash_ends.
  split_and!; [done..| |].
  - unfold i, sanitize_id, strip_dash.
    etrans; [apply rstrip_dash_length|].
    etrans; [apply lstrip_dash_length|].
    by rewrite sub_non_id_length, lower_length.
  - unfold sanitize_id, strip_dash.
    rewrite lower_fixed_id, sub_non_id_fixed by done.
    by rewrite lstrip_dash_fixed, rstrip_dash_fixed.
Qed.

Lemma sanitize_id_shape_witness :
  sanitize_id "-Acme Ads, Inc." = "acme-ads--inc"
  ∧ (String.length (sanitize_id "-Acme Ads, Inc.")
     ≤ String.length "-Acme Ads, Inc.")%nat
  ∧ sanitize_id (sanitize_id "-Acme Ads, Inc.") = sanitize_id "-Acme Ads, Inc.".
Proof.
  destruct (sanitize_id_shape "-Acme Ads, Inc.")
    as (_ & _ & _ & Hlen & Hid); [reflexivity|].
  split; [reflexivity|]. by split.
Defined.

Lemma dict_values_valid (m : list (string * string)) k c :
  Forall (λ kv, kv.2 ∈ VALID_CATEGORIES) m →
  dict_get k m = Some c → c ∈ VALID_CATEGORIES.
Proof.
  intros Hm Hk%dict_get_elem_of. eapply Forall_forall in Hm; [|done]. done.
Qed.

Lemma ddg_category_map_valid :
  Forall (λ kv, kv.2 ∈ VALID_CATEGORIES) DuckDuckGo.CATEGORY_MAP.
Proof. apply (bool_decide_unpack _). by vm_compute. Qed.

Lemma disconnect_category_map_valid :
  Forall (λ kv, kv.2 ∈ VALID_CATEGORIES) Disconnect.CATEGORY_MAP.
Proof. apply (bool_decide_unpack _). by vm_compute. Qed.

Lemma ddg_map_category_in_valid categories :
  DuckDuckGo.map_category categories ∈ VALID_CATEGORIES.
Proof.
  induction categories as [|cat cats IH]; cbn [DuckDuckGo.map_category].
  - apply (bool_decide_unpack _). by vm_compute.
  - destruct (dict_get cat DuckDuckGo.CATEGORY_MAP) as [c|] eqn:Hc; [|done].
    eapply dict_values_valid, Hc. apply ddg_category_map_valid.
Qed.

(** X15: [map_category] answers with the category of the first DuckDuckGo
    category it knows and with "other" when it knows none; whatever the
    list, the answer is one of [VALID_CATEGORIES], so the normalizer of the
    merge keeps it. *)
Theorem ddg_map_category_valid (categories : list string) :
  let c := DuckDuckGo.map_category categories in
  c ∈ VALID_CATEGORIES
  ∧ valid_category c = c
  ∧ match list_find (λ cat, is_Some (dict_get cat DuckDuckGo.CATEGORY_MAP))
            categories with
    | Some (_, cat) => dict_get cat DuckDuckGo.CATEGORY_MAP = Some c
    | None => c = "other"
    end.
Proof.
  cbv zeta.
  pose proof (ddg_map_category_in_valid categories) as Hv.
  split_and!; [done|by apply valid_category_fixed|]. clear Hv.
  induction categories as [|cat cats IH];
    cbn [DuckDuckGo.map_category list_find]; [done|].
  destruct (dict_get cat DuckDuckGo.CATEGORY_MAP) as [c|] eqn:Hc.
  - rewrite decide_True by by eexists. done.
  - rewrite decide_False by by intros [??].
    destruct (list_find _ cats) as [[n cat']|]; simpl; done.
Qed.

Lemma round_half_even_bounds h :
  h / 2 ≤ DuckDuckGo.round_half_even h ≤ h / 2 + 1.
Proof.
  unfold DuckDuckGo.round_half_even.
  destruct (Z.even h); [lia|]. destruct (Z.even (h / 2)); lia.
Qed.

(** X16: The risk score of a tracker is never above 10, whatever the
    prevalence, cookie and fingerprinting values are.  When the
    fingerprinting level is not negative the score is never below the base
    score 5, and the clamp of the normalizer leaves it as it is. *)
Theorem ddg_risk_score_bounds (gt : pyval → pyval → bool)
    (t : DuckDuckGo.tracker) :
  let score := DuckDuckGo.calculate_risk_score gt t in
  score ≤ 10
  ∧ (0 ≤ default 0 (DuckDuckGo.t_fingerprinting t) →
     5 ≤ score ∧ clamp_risk score = score).
Proof.
  intros score.
  assert (score ≤ 10) as Hle by apply Z.le_min_r.
  split; [done|]. intros Hf.
  assert (5 ≤ score) as Hs; [|split; [done|apply clamp_risk_fixed; lia]].
  unfold score, DuckDuckGo.calculate_risk_score. cbv zeta.
  match goal with
  | |- context [DuckDuckGo.round_half_even ?x] => set (h := x)
  end.
  assert (10 ≤ h) as Hh.
  { unfold h.
    repeat match goal with |- context [if ?b then _ else _] => destruct b end;
      lia. }
  pose proof (round_half_even_bounds h) as [Hlo _].
  assert (5 ≤ h / 2) by (apply Z.div_le_lower_bound; lia).
  lia.
Qed.

(** Fingerprinting 3 and an advertising category, with no prevalence and
    no cookies: 5 + 3 + 1. *)
Lemma ddg_risk_score_bounds_witness :
  DuckDuckGo.calculate_risk_score (λ _ _, false)
    (DuckDuckGo.Tracker None (Some 3) None (Some ["Advertising"])) = 9
  ∧ clamp_risk 9 = 9.
Proof.
  destruct (ddg_risk_score_bounds (λ _ _, false)
              (DuckDuckGo.Tracker None (Some 3) None (Some ["Advertising"])))
    as [_ Hlow].
  destruct Hlow as [_ Hclamp]; [simpl; lia|].
  split; [reflexivity|exact Hclamp].
Defined.

(** ** The DuckDuckGo importer *)

Example is_ip_address_examples :
  is_ip_address "192.168.0.1" = true
  ∧ is_ip_address "1.2.3" = false
  ∧ is_ip_address "1.2.3.4.5" = false
  ∧ is_ip_address "1.2.3.example" = false.
Proof. by vm_compute. Qed.

Global Instance string_le_trans : Transitive String.le.
Proof. apply _. Qed.

Lemma StronglySorted_sorted_union a b :
  StronglySorted String.le (sorted_union a b).
Proof. apply (StronglySorted_merge_sort String.le). Qed.

Lemma parse_duckduckgo_domain_Some gt stem contents v :
  DuckDuckGo.parse_duckduckgo_domain gt stem contents = Some v →
  ∃ data, contents = Some data
    ∧ let domain := default stem (DuckDuckGo.d_domain data) in
      is_ip_address domain = false
      ∧ starts_with_underscore domain = false
      ∧ (4 ≤ String.length domain)%nat
      ∧ radar_vendor domain v.
Proof.
  unfold DuckDuckGo.parse_duckduckgo_domain.
  destruct contents as [data|]; [|done]. cbv zeta.
  set (domain := default stem (DuckDuckGo.d_domain data)).
  destruct (is_ip_address domain) eqn:Hip; [done|].
  destruct (starts_with_underscore domain) eqn:Hu; [done|].
  destruct (String.length domain <? 4)%nat eqn:Hlen; [done|].
  apply Nat.ltb_ge in Hlen. simpl. intros [= <-].
  exists data. split; [done|]. split_and!; [done..|].
  unfold radar_vendor, DuckDuckGo.vendor_of. simpl.
  eexists _, _, _. split_and!; try done.
  - apply elem_of_sorted_union. left. apply list_elem_of_here.
  - apply StronglySorted_sorted_union.
  - apply NoDup_sorted_union.
  - apply ddg_map_category_in_valid.
  - apply Z.le_min_r.
Qed.

(** X17: A parsed vendor has the identity, the domain list and the scores the
    merge relies on: its id is [sanitize_id] of the domain, its domain list
    is sorted, duplicate-free and contains the domain, so
    [vendor['domains'][0]] exists, its category is valid, its risk score is
    at most 10 and its tier is standard.  Unreadable files, IP addresses,
    names that start with an underscore and names shorter than four
    characters give no vendor. *)
Theorem parse_duckduckgo_domain_shape (gt : pyval → pyval → bool)
    (stem : string) (contents : option DuckDuckGo.radar_domain)
    (v : raw_vendor) :
  DuckDuckGo.parse_duckduckgo_domain gt stem contents = Some v →
  ∃ data, contents = Some data
    ∧ let domain := default stem (DuckDuckGo.d_domain data) in
      is_ip_address domain = false
      ∧ starts_with_underscore domain = false
      ∧ (4 ≤ String.length domain)%nat
      ∧ radar_vendor domain v
      ∧ is_Some (head (default [] (r_domains v))).
Proof.
  intros (data & -> & Hip & Hu & Hlen & Hv)%parse_duckduckgo_domain_Some.
  exists data. split; [done|]. split_and!; [done..|].
  destruct Hv as (ds & c & score & _ & -> & Hd & _). simpl.
  destruct ds; [by apply elem_of_nil in Hd|by eexists].
Qed.

Lemma parse_duckduckgo_domain_shape_witness :
  let v := DuckDuckGo.vendor_of "example.com"
             ["cdn.example.com"; "example.com"] "example.com" "Unknown"
             "analytics" 5 (PInt 0) (PInt 0) (PInt 0) 0 "" in
  radar_vendor "example.com" v
  ∧ head (default [] (r_domains v)) = Some "cdn.example.com".
Proof.
  intros v.
  destruct (parse_duckduckgo_domain_shape (λ _ _, false) "example"
              (Some (DuckDuckGo.RadarDomain (Some "example.com") None
                       (Some ["Analytics"]) (Some ["cdn"; ""]) None None
                       None None)) v)
    as (data & Hdata & _ & _ & _ & Hv & _).
  - by vm_compute.
  - injection Hdata as <-. split; [exact Hv|reflexivity].
Defined.

(** *** The loop that removes duplicates *)

Lemma head_sorted_union k a b :
  head a = Some k → head b = Some k →
  StronglySorted String.le a → StronglySorted String.le b →
  head (sorted_union a b) = Some k.
Proof.
  intros Ha Hb Hsa Hsb.
  assert (∀ l x, head l = Some k → StronglySorted String.le l → x ∈ l →
            String.le k x) as Hleast.
  { intros l x Hl Hs Hx. destruct l as [|k' l]; [done|]. injection Hl as ->.
    apply StronglySorted_inv in Hs as [_ Hall].
    apply elem_of_cons in Hx as [->|Hx]; [done|].
    exact (proj1 (Forall_forall _ _) Hall x Hx). }
  assert (k ∈ sorted_union a b) as Hk.
  { apply elem_of_sorted_union. left. destruct a; [done|].
    injection Ha as ->. apply list_elem_of_here. }
  pose proof (StronglySorted_sorted_union a b) as Hs.
  assert (∀ x, x ∈ sorted_union a b → String.le k x) as Hmin.
  { intros x [Hx|Hx]%elem_of_sorted_union; eauto. }
  destruct (sorted_union a b) as [|u U]; [by apply elem_of_nil in Hk|].
  simpl. f_equal. apply (anti_symm String.le).
  - apply StronglySorted_inv in Hs as [_ Hall].
    apply elem_of_cons in Hk as [->|Hk]; [done|].
    exact (proj1 (Forall_forall _ _) Hall k Hk).
  - apply Hmin. apply list_elem_of_here.
Qed.

Lemma set_r_domains_same r ds :
  r_domains r = Some ds → set_r_domains ds r = r.
Proof. destruct r. simpl. by intros ->. Qed.

Lemma set_r_domains_twice ds ds' r :
  set_r_domains ds (set_r_domains ds' r)
  = set_r_domains ds r.
Proof. done. Qed.

Lemma dedupe_step_ok gt (P : raw_vendor → Prop) vbd vendor domain :
  keyed P vbd → sourced P vbd → P vendor → radar_vendor domain vendor →
  ∃ vbd', DuckDuckGo.dedupe_step gt vbd vendor = Some vbd'
    ∧ keyed P vbd'
    ∧ sourced P vbd'
    ∧ (∀ d, lists vbd d → lists vbd' d)
    ∧ (∀ d, d ∈ default [] (r_domains vendor) → lists vbd' d)
    ∧ (length vbd' ≤ S (length vbd))%nat.
Proof.
  intros Hkeyed Hsrc HP (ds & c & score & _ & Hds & Hd & Hsorted & Hnd & _).
  unfold DuckDuckGo.dedupe_step. rewrite Hds. simpl.
  destruct ds as [|k ds']; [by apply elem_of_nil in Hd|]. simpl.
  set (ds := k :: ds') in *.
  assert (∀ w dsw,
            stored P k w → r_domains w = Some dsw → ds ⊆ dsw →
            (∀ x, x ∈ dsw → x ∈ ds ∨ lists vbd x) →
            (∀ e eds, dict_get k vbd = Some e →
                      r_domains e = Some eds → eds ⊆ dsw) →
            keyed P (dict_set k w vbd)
            ∧ sourced P (dict_set k w vbd)
            ∧ (∀ d, lists vbd d → lists (dict_set k w vbd) d)
            ∧ (∀ d, d ∈ ds → lists (dict_set k w vbd) d)) as Hset.
  { intros w dsw Hst Hw Hsub Hfrom Hold. split_and!.
    - intros k' v'. destruct (decide (k = k')) as [<-|Hne].
      + rewrite dict_get_set_eq. by intros [= <-].
      + rewrite dict_get_set_ne by done. apply Hkeyed.
    - intros d (k' & v' & dsv & Hk' & Hv' & Hdv).
      destruct (decide (k = k')) as [<-|Hne].
      + rewrite dict_get_set_eq in Hk'. injection Hk' as <-.
        rewrite Hw in Hv'. injection Hv' as <-.
        destruct (Hfrom d Hdv) as [Hin|Hin]; [|by apply Hsrc].
        exists vendor. rewrite Hds. done.
      + rewrite dict_get_set_ne in Hk' by done. apply Hsrc.
        by exists k', v', dsv.
    - intros d (k' & v' & dsv & Hk' & Hv' & Hdv).
      destruct (decide (k = k')) as [<-|Hne].
      + exists k, w, dsw. rewrite dict_get_set_eq. split_and!; [done..|].
        by eapply Hold.
      + exists k', v', dsv. by rewrite dict_get_set_ne.
    - intros d Hdd. exists k, w, dsw. rewrite dict_get_set_eq.
      split_and!; [done..|]. by apply Hsub. }
  destruct (dict_get k vbd) as [existing|] eqn:Hex.
  - destruct (Hkeyed _ _ Hex)
      as (v0 & eds & HP0 & Hv0 & Hsub0 & Hehead & Hes & Hend).
    assert (r_domains existing = Some eds) as Heds by by rewrite Hv0.
    rewrite Heds. simpl.
    assert (∀ w, stored P k w →
              r_domains w = Some (sorted_union eds ds) →
              keyed P (dict_set k w vbd)
              ∧ sourced P (dict_set k w vbd)
              ∧ (∀ d, lists vbd d → lists (dict_set k w vbd) d)
              ∧ (∀ d, d ∈ ds → lists (dict_set k w vbd) d)) as Hboth.
    { intros w Hst Hw. apply (Hset w (sorted_union eds ds)); [done..| | |].
      - intros x Hx. apply elem_of_sorted_union. by right.
      - intros x [Hx|Hx]%elem_of_sorted_union; [|by left].
        right. by exists k, existing, eds.
      - intros e eds' [= <-] Heds'. rewrite Heds in Heds'.
        injection Heds' as <-. intros x Hx.
        apply elem_of_sorted_union. by left. }
    assert (head (sorted_union eds ds) = Some k) as Hhead
      by by apply head_sorted_union.
    destruct (gt _ _); eexists; (split; [done|]).
    + destruct (Hboth (set_r_domains (sorted_union eds ds) vendor))
        as (? & ? & ? & ?); [|done|].
      * exists vendor, (sorted_union eds ds).
        split_and!; [done|done| |done| |].
        -- rewrite Hds. simpl. intros x Hx.
           apply elem_of_sorted_union. by right.
        -- apply StronglySorted_sorted_union.
        -- apply NoDup_sorted_union.
      * split_and!; [done..|apply dict_set_length].
    + destruct (Hboth (set_r_domains (sorted_union eds ds)
                         existing))
        as (? & ? & ? & ?); [|done|].
      * exists v0, (sorted_union eds ds).
        split_and!; [done| | |done| |].
        -- by rewrite Hv0.
        -- intros x Hx. apply elem_of_sorted_union. left. by apply Hsub0.
        -- apply StronglySorted_sorted_union.
        -- apply NoDup_sorted_union.
      * split_and!; [done..|apply dict_set_length].
  - eexists. split; [done|].
    destruct (Hset vendor ds) as (? & ? & ? & ?); [|done|done| | |].
    + exists vendor, ds. split_and!; [done| | |done..].
      * symmetry. by apply set_r_domains_same.
      * by rewrite Hds.
    + intros x Hx. by left.
    + intros e eds [=].
    + split_and!; [done..|apply dict_set_length].
Qed.

Lemma dedupe_ok gt (P : raw_vendor → Prop) files vbd :
  (∀ v, parsed gt files v → P v) →
  keyed P vbd → sourced P vbd →
  ∃ vbd', DuckDuckGo.dedupe gt vbd files = Some vbd'
    ∧ keyed P vbd'
    ∧ sourced P vbd'
    ∧ (∀ d, lists vbd d → lists vbd' d)
    ∧ (∀ v d, parsed gt files v → d ∈ default [] (r_domains v) →
              lists vbd' d)
    ∧ (length vbd' ≤ length vbd + length files)%nat.
Proof.
  revert vbd. induction files as [|[stem contents] files IH];
    intros vbd HP Hk Hs.
  - exists vbd. simpl. split_and!; [done..| |lia].
    intros v d (? & ? & []%elem_of_nil & _).
  - simpl.
    assert (∀ v, parsed gt files v → P v) as HP'.
    { intros v (s & c & Hin & Hp). apply HP. exists s, c.
      split; [by apply list_elem_of_further|done]. }
    destruct (DuckDuckGo.parse_duckduckgo_domain gt stem contents)
      as [vendor|] eqn:Hp.
    + pose proof Hp as (data & _ & _ & _ & _ & Hv)%parse_duckduckgo_domain_Some.
      assert (P vendor) as HPv.
      { apply HP. exists stem, contents. split; [apply list_elem_of_here|done]. }
      destruct (dedupe_step_ok gt P vbd vendor _ Hk Hs HPv Hv)
        as (vbd1 & -> & Hk1 & Hs1 & Hold1 & Hnew1 & Hlen1). simpl.
      destruct (IH vbd1 HP' Hk1 Hs1)
        as (vbd' & -> & Hk' & Hs' & Hold' & Hnew' & Hlen').
      exists vbd'. split_and!; [done..|auto| |lia].
      intros v d (s & c & [[= -> ->]|Hin]%elem_of_cons & Hp') Hd.
      * rewrite Hp in Hp'. injection Hp' as <-. auto.
      * apply Hnew' with v; [by exists s, c|done].
    + destruct (IH vbd HP' Hk Hs)
        as (vbd' & -> & Hk' & Hs' & Hold' & Hnew' & Hlen').
      exists vbd'. split_and!; [done..| |lia].
      intros v d (s & c & [[= -> ->]|Hin]%elem_of_cons & Hp') Hd.
      * congruence.
      * apply Hnew' with v; [by exists s, c|done].
Qed.

Lemma dedupe_step_keys gt vbd vendor vbd' :
  NoDup (dict_keys vbd) →
  DuckDuckGo.dedupe_step gt vbd vendor = Some vbd' →
  NoDup (dict_keys vbd').
Proof.
  intros Hnd. unfold DuckDuckGo.dedupe_step.
  destruct (r_domains vendor) as [ds|]; [simpl|done].
  destruct (head ds) as [k|]; [simpl|done].
  destruct (dict_get k vbd) as [existing|].
  - destruct (r_domains existing); [simpl|done].
    destruct (gt _ _); intros [= <-]; by apply dict_set_NoDup.
  - intros [= <-]. by apply dict_set_NoDup.
Qed.

Lemma dedupe_keys gt files vbd vbd' :
  NoDup (dict_keys vbd) →
  DuckDuckGo.dedupe gt vbd files = Some vbd' →
  NoDup (dict_keys vbd').
Proof.
  revert vbd. induction files as [|[stem contents] files IH]; intros vbd Hnd.
  - by intros [= <-].
  - simpl. destruct (DuckDuckGo.parse_duckduckgo_domain _ _ _); [|by apply IH].
    destruct (DuckDuckGo.dedupe_step gt vbd r) as [vbd1|] eqn:Hstep; [|done].
    simpl. apply IH. by eapply dedupe_step_keys.
Qed.

Lemma import_duckduckgo_table gt all_files :
  let files := default [] all_files in
  ∃ vbd,
    DuckDuckGo.import_duckduckgo_tracker_radar gt all_files
    = Some (dict_values vbd)
    ∧ NoDup (dict_keys vbd)
    ∧ keyed (parsed gt files) vbd
    ∧ sourced (parsed gt files) vbd
    ∧ (∀ v d, parsed gt files v → d ∈ default [] (r_domains v) →
              lists vbd d)
    ∧ (length vbd ≤ length files)%nat.
Proof.
  intros files.
  destruct (dedupe_ok gt (parsed gt files) files [])
    as (vbd & Hrun & Hk & Hs & _ & Hcov & Hlen); [done|done| |].
  { intros d (k & v & ds & [=] & _). }
  exists vbd. split_and!; [|by eapply dedupe_keys, Hrun; apply NoDup_nil|done..].
  unfold DuckDuckGo.import_duckduckgo_tracker_radar.
  destruct all_files as [fs|]; simpl in *.
  - unfold files in Hrun. simpl in Hrun. by rewrite Hrun.
  - by injection Hrun as <-.
Qed.

Lemma elem_of_table {V} (vbd : list (string * V)) (v : V) :
  NoDup (dict_keys vbd) →
  v ∈ dict_values vbd ↔ ∃ k, dict_get k vbd = Some v.
Proof.
  intros Hnd. rewrite elem_of_dict_values. split.
  - intros [k Hk]. exists k. by apply elem_of_dict_get.
  - intros [k Hk]. exists k. by apply dict_get_elem_of.
Qed.

(** X18: The import loop never stops on a [KeyError] or an [IndexError], and
    returns at most one record per file.  Every record it returns is the
    vendor parsed from one of the files with only its domain list changed:
    the new list is sorted, has no duplicates, is not empty and contains
    all the domains of that parsed vendor. *)
Theorem import_duckduckgo_records (gt : pyval → pyval → bool)
    (all_files : option (list (string * option DuckDuckGo.radar_domain))) :
  ∃ vendors,
    DuckDuckGo.import_duckduckgo_tracker_radar gt all_files = Some vendors
    ∧ (length vendors ≤ length (default [] all_files))%nat
    ∧ Forall (λ v, ∃ v0 ds,
                parsed gt (default [] all_files) v0
                ∧ v = set_r_domains ds v0
                ∧ default [] (r_domains v0) ⊆ ds
                ∧ ds ≠ []
                ∧ StronglySorted String.le ds ∧ NoDup ds) vendors.
Proof.
  destruct (import_duckduckgo_table gt all_files)
    as (vbd & Himp & Hnd & Hk & _ & _ & Hlen).
  exists (dict_values vbd). split_and!; [done| |].
  - unfold dict_values. by rewrite length_fmap.
  - apply Forall_forall. intros v [k Hv]%elem_of_table; [|done].
    destruct (Hk k v Hv) as (v0 & ds & HP & -> & Hsub & Hhead & Hs & Hn).
    exists v0, ds. split_and!; [done..| |done|done].
    by intros ->.
Qed.

(** X19: The records of the import are told apart by the first entry of their
    domain lists: no two records of the result start with the same
    domain. *)
Theorem import_duckduckgo_first_domains_distinct
    (gt : pyval → pyval → bool)
    (all_files : option (list (string * option DuckDuckGo.radar_domain)))
    (vendors : list raw_vendor) :
  DuckDuckGo.import_duckduckgo_tracker_radar gt all_files = Some vendors →
  NoDup ((λ v, head (default [] (r_domains v))) <$> vendors).
Proof.
  destruct (import_duckduckgo_table gt all_files)
    as (vbd & -> & Hnd & Hk & _). intros [= <-].
  assert (∀ k v, (k, v) ∈ vbd → head (default [] (r_domains v)) = Some k)
    as Hhead.
  { intros k v Hin%elem_of_dict_get; [|done].
    by destruct (Hk k v Hin) as (v0 & ds & _ & -> & _ & ? & _). }
  clear Hk. unfold dict_values, dict_keys in *.
  induction vbd as [|[k v] vbd IH]; [apply NoDup_nil_2|].
  rewrite !fmap_cons in *. cbn [fst snd] in *.
  apply NoDup_cons in Hnd as [Hk Hnd].
  apply NoDup_cons. split.
  - rewrite (Hhead k v) by apply list_elem_of_here.
    intros (v' & Heq & ([k' v''] & -> & Hin)%list_elem_of_fmap)%list_elem_of_fmap.
    cbn [snd] in Heq.
    rewrite (Hhead k' v'') in Heq by by apply list_elem_of_further.
    injection Heq as <-. apply Hk.
    by apply (list_elem_of_fmap_2 fst) in Hin.
  - apply IH; [done|]. intros k' v' Hin. apply Hhead.
    by apply list_elem_of_further.
Qed.

Lemma import_duckduckgo_first_domains_distinct_witness :
  NoDup [Some "cdn.example.com"; Some "tracker.net"].
Proof.
  apply (import_duckduckgo_first_domains_distinct (λ _ _, false)
           (Some [ ("example", Some (DuckDuckGo.RadarDomain
                       (Some "example.com") None None (Some ["cdn"]) None
                       None None None));
                   ("tracker", Some (DuckDuckGo.RadarDomain
                       (Some "tracker.net") None None None None None None
                       None));
                   ("example", Some (DuckDuckGo.RadarDomain
                       (Some "example.com") None None (Some ["cdn"; "www"])
                       None None None None)) ])
           [ DuckDuckGo.vendor_of "example.com"
               ["cdn.example.com"; "example.com"; "www.example.com"]
               "example.com" "Unknown" "other" 5 (PInt 0) (PInt 0) (PInt 0)
               0 "";
             DuckDuckGo.vendor_of "tracker.net" ["tracker.net"]
               "tracker.net" "Unknown" "other" 5 (PInt 0) (PInt 0) (PInt 0)
               0 "" ]).
  by vm_compute.
Defined.

(** X20: No domain is lost and none is invented: a domain is listed by a record
    of the result exactly when it is listed by the vendor parsed from one
    of the files. *)
Theorem import_duckduckgo_keeps_every_domain (gt : pyval → pyval → bool)
    (all_files : option (list (string * option DuckDuckGo.radar_domain)))
    (vendors : list raw_vendor) (d : string) :
  DuckDuckGo.import_duckduckgo_tracker_radar gt all_files = Some vendors →
  (∃ v, v ∈ vendors ∧ d ∈ default [] (r_domains v))
  ↔ (∃ v0, parsed gt (default [] all_files) v0
           ∧ d ∈ default [] (r_domains v0)).
Proof.
  destruct (import_duckduckgo_table gt all_files)
    as (vbd & -> & Hnd & Hk & Hs & Hcov & _). intros [= <-]. split.
  - intros (v & [k Hv]%elem_of_table & Hd); [|done].
    apply Hs. destruct (r_domains v) as [ds|] eqn:Hds; simpl in Hd.
    + by exists k, v, ds.
    + by apply elem_of_nil in Hd.
  - intros (v0 & HP & Hd).
    destruct (Hcov v0 d HP Hd) as (k & v & ds & Hv & Hds & Hin).
    exists v. split; [apply elem_of_table; eauto|]. by rewrite Hds.
Qed.

Lemma import_duckduckgo_keeps_every_domain_witness :
  ∃ v0, parsed (λ _ _, false)
          [ ("example", Some (DuckDuckGo.RadarDomain
               (Some "example.com") None None (Some ["cdn"]) None None None
               None)) ] v0
        ∧ "cdn.example.com" ∈ default [] (r_domains v0).
Proof.
  apply (import_duckduckgo_keeps_every_domain (λ _ _, false)
           (Some [ ("example", Some (DuckDuckGo.RadarDomain
                       (Some "example.com") None None (Some ["cdn"]) None
                       None None None)) ])
           [ DuckDuckGo.vendor_of "example.com"
               ["cdn.example.com"; "example.com"]
               "example.com" "Unknown" "other" 5 (PInt 0) (PInt 0) (PInt 0)
               0 "" ]).
  - by vm_compute.
  - eexists. split; [apply list_elem_of_here|].
    simpl. apply list_elem_of_here.
Defined.

Lemma string_length_append s1 s2 :
  String.length (s1 +:+ s2) = (String.length s1 + String.length s2)%nat.
Proof. induction s1 as [|c s1 IH]; simpl; [done|by rewrite IH]. Qed.

Lemma head_least k l x :
  head l = Some k → StronglySorted String.le l → x ∈ l → String.le k x.
Proof.
  intros Hl Hs Hx. destruct l as [|k' l]; [done|]. injection Hl as ->.
  apply StronglySorted_inv in Hs as [_ Hall].
  apply elem_of_cons in Hx as [->|Hx]; [done|].
  exact (proj1 (Forall_forall _ _) Hall x Hx).
Qed.

Lemma parse_duckduckgo_domain_valid gt stem data :
  let domain := default stem (DuckDuckGo.d_domain data) in
  is_ip_address domain = false →
  starts_with_underscore domain = false →
  (4 ≤ String.length domain)%nat →
  ∃ v, DuckDuckGo.parse_duckduckgo_domain gt stem (Some data) = Some v
    ∧ r_id v = Some (sanitize_id domain)
    ∧ r_domains v
      = Some (sorted_union
                (domain :: ((λ sub, sub +:+ "." +:+ domain)
                              <$> filter (λ sub, truthy sub = true)
                                    (default []
                                       (DuckDuckGo.d_subdomains data))))
                []).
Proof.
  intros domain Hip Hu Hlen. unfold DuckDuckGo.parse_duckduckgo_domain.
  cbv zeta. fold domain. rewrite Hip, Hu.
  apply Nat.ltb_ge in Hlen. rewrite Hlen. simpl. by eexists.
Qed.

Lemma dedupe_cons gt vbd stem contents files v :
  DuckDuckGo.parse_duckduckgo_domain gt stem contents = Some v →
  DuckDuckGo.dedupe gt vbd ((stem, contents) :: files)
  = DuckDuckGo.dedupe_step gt vbd v ≫= λ vbd', DuckDuckGo.dedupe gt vbd' files.
Proof. intros Hp. simpl. by rewrite Hp. Qed.

(** X21: Two files of the same domain are not always merged: the table is keyed
    by the first entry of the sorted domain list, not by the domain.  When
    the first file lists a subdomain whose full name sorts before the
    domain and the second file lists none, both vendors are returned, with
    the same id and both listing the domain. *)
Theorem same_domain_imported_twice (gt : pyval → pyval → bool)
    (stem1 stem2 : string) (data1 data2 : DuckDuckGo.radar_domain)
    (domain sub : string) :
  default stem1 (DuckDuckGo.d_domain data1) = domain →
  default stem2 (DuckDuckGo.d_domain data2) = domain →
  is_ip_address domain = false →
  starts_with_underscore domain = false →
  (4 ≤ String.length domain)%nat →
  sub ∈ default [] (DuckDuckGo.d_subdomains data1) →
  truthy sub = true →
  String.le (sub +:+ "." +:+ domain) domain →
  default [] (DuckDuckGo.d_subdomains data2) = [] →
  ∃ v1 v2,
    DuckDuckGo.import_duckduckgo_tracker_radar gt
      (Some [(stem1, Some data1); (stem2, Some data2)]) = Some [v1; v2]
    ∧ r_id v1 = Some (sanitize_id domain)
    ∧ r_id v2 = Some (sanitize_id domain)
    ∧ domain ∈ default [] (r_domains v1)
    ∧ domain ∈ default [] (r_domains v2).
Proof.
  intros H1 H2 Hip Hu Hlen Hsub Htruthy Hle Hnone.
  destruct (parse_duckduckgo_domain_valid gt stem1 data1)
    as (v1 & Hp1 & Hid1 & Hds1); [by rewrite H1..|].
  destruct (parse_duckduckgo_domain_valid gt stem2 data2)
    as (v2 & Hp2 & Hid2 & Hds2); [by rewrite H2..|].
  rewrite H1 in Hid1, Hds1. rewrite H2 in Hid2, Hds2. rewrite Hnone in Hds2.
  rewrite filter_nil, fmap_nil in Hds2.
  set (ds1 := sorted_union _ _) in Hds1. set (ds2 := sorted_union _ _) in Hds2.
  assert (domain ∈ ds1) as Hin1.
  { apply elem_of_sorted_union. left. apply list_elem_of_here. }
  assert ((sub +:+ "." +:+ domain) ∈ ds1) as Hsub1.
  { apply elem_of_sorted_union. left. apply list_elem_of_further.
    apply (list_elem_of_fmap_2 (λ sub, sub +:+ "." +:+ domain)).
    by apply list_elem_of_filter. }
  assert (domain ∈ ds2) as Hin2.
  { apply elem_of_sorted_union. left. apply list_elem_of_here. }
  destruct (head ds1) as [k1|] eqn:Hk1;
    [|by destruct ds1; [apply elem_of_nil in Hin1|]].
  assert (head ds2 = Some domain) as Hk2.
  { destruct ds2 as [|k2 ?] eqn:Heq; [by apply elem_of_nil in Hin2|].
    simpl. f_equal.
    assert (k2 ∈ ds2) as Hk2 by (rewrite Heq; apply list_elem_of_here).
    apply elem_of_sorted_union in Hk2 as [Hk2|Hk2].
    - by apply list_elem_of_singleton in Hk2.
    - by apply elem_of_nil in Hk2. }
  assert (k1 ≠ domain) as Hne.
  { intros ->.
    assert (String.le domain (sub +:+ "." +:+ domain)) as Hge.
    { apply (head_least domain ds1); [exact Hk1| |exact Hsub1].
      apply StronglySorted_sorted_union. }
    assert (sub +:+ "." +:+ domain = domain) as Heq
      by by apply (anti_symm String.le).
    apply (f_equal String.length) in Heq.
    rewrite !string_length_append in Heq. simpl in Heq. lia. }
  exists v1, v2. split_and!; [|done|done|by rewrite Hds1|by rewrite Hds2].
  assert (DuckDuckGo.dedupe_step gt [] v1 = Some [(k1, v1)]) as Hs1.
  { unfold DuckDuckGo.dedupe_step. rewrite Hds1. cbn [mbind option_bind].
    by rewrite Hk1. }
  assert (DuckDuckGo.dedupe_step gt [(k1, v1)] v2
          = Some [(k1, v1); (domain, v2)]) as Hs2.
  { unfold DuckDuckGo.dedupe_step. rewrite Hds2. cbn [mbind option_bind].
    rewrite Hk2. cbn [mbind option_bind dict_get dict_set].
    by rewrite !bool_decide_eq_false_2 by done. }
  unfold DuckDuckGo.import_duckduckgo_tracker_radar.
  rewrite (dedupe_cons _ _ _ _ _ _ Hp1), Hs1. cbn [mbind option_bind].
  by rewrite (dedupe_cons _ _ _ _ _ _ Hp2), Hs2.
Qed.

Lemma same_domain_imported_twice_witness :
  ∃ v1 v2,
    DuckDuckGo.import_duckduckgo_tracker_radar (λ _ _, false)
      (Some [ ("example", Some (DuckDuckGo.RadarDomain (Some "example.com")
                 None None (Some ["cdn"]) None None None None));
              ("example", Some (DuckDuckGo.RadarDomain (Some "example.com")
                 None None None None None None None)) ]) = Some [v1; v2]
    ∧ r_id v1 = Some (sanitize_id "example.com")
    ∧ r_id v2 = Some (sanitize_id "example.com")
    ∧ "example.com" ∈ default [] (r_domains v1)
    ∧ "example.com" ∈ default [] (r_domains v2).
Proof.
  apply (same_domain_imported_twice (λ _ _, false) "example" "example"
           (DuckDuckGo.RadarDomain (Some "example.com") None None
              (Some ["cdn"]) None None None None)
           (DuckDuckGo.RadarDomain (Some "example.com") None None None None
              None None None)
           "example.com" "cdn");
    [reflexivity|reflexivity|reflexivity|reflexivity|simpl; lia
    |simpl; apply list_elem_of_here|reflexivity|by vm_compute|reflexivity].
Defined.

(** ** The Disconnect importer *)

Lemma for_each_inv {A S : Type} (body : S → A → option S)
    (I : S → Prop) (R : S → S → Prop) (C : S → A → Prop) (l : list A) (s : S) :
  (∀ s, R s s) → (∀ s1 s2 s3, R s1 s2 → R s2 s3 → R s1 s3) →
  (∀ s s' a, R s s' → C s a → C s' a) →
  (∀ s a, a ∈ l → I s → ∃ s', body s a = Some s' ∧ I s' ∧ R s s' ∧ C s' a) →
  I s →
  ∃ s', for_each body l s = Some s' ∧ I s' ∧ R s s' ∧ ∀ a, a ∈ l → C s' a.
Proof.
  intros Hrefl Htrans Hmono. revert s.
  induction l as [|a l IH]; intros s Hbody Hs.
  - exists s. split_and!; [done..|]. intros a []%elem_of_nil.
  - destruct (Hbody s a) as (s1 & Hs1 & HI1 & HR1 & HC1);
      [apply list_elem_of_here|done|].
    destruct (IH s1) as (s' & Hs' & HI' & HR' & HC'); [|done|].
    { intros s0 a0 Ha0. apply Hbody. by apply list_elem_of_further. }
    exists s'. simpl. rewrite Hs1. simpl. split_and!; [done..|by eauto|].
    intros a0 [->|Ha0]%elem_of_cons; [by eauto|by apply HC'].
Qed.

Lemma scan_domains company_data :
  (Disconnect.scan company_data).1
  = company_data ≫= (λ kv, Disconnect.domains_of kv.2).
Proof.
  unfold Disconnect.scan.
  assert (∀ acc : list string * string,
            (foldl (λ acc kv,
                      (acc.1 ++ Disconnect.domains_of kv.2,
                       if String.prefix "http" kv.1 then kv.1 else acc.2))
                   acc company_data).1
            = acc.1 ++ (company_data ≫= (λ kv, Disconnect.domains_of kv.2)))
    as Hgen; [|by rewrite Hgen].
  induction company_data as [|kv data IH]; intros acc.
  - simpl. by rewrite app_nil_r.
  - cbn [foldl]. rewrite IH. cbn [fst]. rewrite bind_cons. by rewrite (assoc_L (++)).
Qed.

Lemma elem_of_scan company_data d :
  d ∈ (Disconnect.scan company_data).1
  ↔ ∃ key l s, (key, PList l) ∈ company_data ∧ PStr s ∈ l
      ∧ "."%char ∈ chars s ∧ (3 < String.length s)%nat ∧ d = lower s.
Proof.
  rewrite scan_domains, list_elem_of_bind. split.
  - intros ([key value] & Hd & Hin). simpl in Hd.
    destruct value as [| | | | |l|]; simpl in Hd;
      try by apply elem_of_nil in Hd.
    apply list_elem_of_fmap in Hd as (s & -> & Hs).
    apply list_elem_of_omap in Hs as (x & Hx & Hdom).
    destruct x as [| | | |s'| |]; simpl in Hdom; try done.
    destruct (bool_decide _) eqn:Hdot; [|done].
    destruct (3 <? String.length s')%nat eqn:Hlen; [|done].
    injection Hdom as ->. exists key, l, s.
    apply bool_decide_eq_true in Hdot. apply Nat.ltb_lt in Hlen. done.
  - intros (key & l & s & Hin & Hs & Hdot & Hlen & ->).
    exists (key, PList l). split; [|done]. simpl.
    apply list_elem_of_fmap_2. apply list_elem_of_omap. exists (PStr s).
    split; [done|]. simpl. rewrite bool_decide_eq_true_2 by done.
    apply Nat.ltb_lt in Hlen. by rewrite Hlen.
Qed.

Lemma disconnect_category_valid category_name :
  default "other" (dict_get category_name Disconnect.CATEGORY_MAP)
  ∈ VALID_CATEGORIES.
Proof.
  destruct (dict_get _ _) as [c|] eqn:Hc; simpl.
  - eapply dict_values_valid, Hc. apply disconnect_category_map_valid.
  - apply (bool_decide_unpack _). by vm_compute.
Qed.

Lemma disconnect_risk_range category_name :
  1 ≤ default 5 (dict_get category_name Disconnect.RISK_BY_CATEGORY) ≤ 9.
Proof.
  destruct (dict_get _ _) as [z|] eqn:Hz; simpl; [|lia].
  apply dict_get_elem_of in Hz.
  assert (Forall (λ kv, 1 ≤ kv.2 ≤ 9) Disconnect.RISK_BY_CATEGORY) as Hall.
  { apply (bool_decide_unpack _). by vm_compute. }
  exact (proj1 (Forall_forall _ _) Hall _ Hz).
Qed.

Lemma scan_domain_ok company_data d :
  d ∈ (Disconnect.scan company_data).1 → domain_ok d.
Proof.
  intros (key & l & s & _ & _ & _ & Hlen & ->)%elem_of_scan. split.
  - apply has_upper_lower.
  - rewrite truthy_lower. destruct s; [simpl in Hlen; lia|done].
Qed.

Lemma grows_refl vendors : grows vendors vendors.
Proof. by intros i d. Qed.

Lemma grows_trans a b c : grows a b → grows b c → grows a c.
Proof. intros Hab Hbc i d Hl. by apply Hbc, Hab. Qed.

Lemma covered_grows vendors vendors' company :
  grows vendors vendors' → covered vendors company → covered vendors' company.
Proof. intros Hg Hc Hv d Hd. by apply Hg, Hc. Qed.

Lemma company_step_ok (Q : string → string → Prop) category_name
    etalon_category risk_score vendors company :
  etalon_category ∈ VALID_CATEGORIES → 1 ≤ risk_score ≤ 9 →
  (∀ d, d ∈ (Disconnect.scan company.2).1 → Q (sanitize_id company.1) d) →
  table_ok Q vendors →
  ∃ vendors',
    Disconnect.company_step category_name etalon_category risk_score vendors
      company = Some vendors'
    ∧ table_ok Q vendors' ∧ grows vendors vendors' ∧ covered vendors' company.
Proof.
  intros Hcat Hrisk HQ [Hnd Hrec]. unfold Disconnect.company_step, covered.
  cbv zeta. set (i := sanitize_id company.1) in *.
  destruct (negb (truthy i) || (String.length i <? 2)%nat) eqn:Hvalid.
  { exists vendors. split_and!; [done|done|apply grows_refl|].
    intros [Ht Hlen]. apply Nat.ltb_ge in Hlen.
    by rewrite Ht, Hlen in Hvalid. }
  apply orb_false_iff in Hvalid as [Ht Hlen].
  apply negb_false_iff in Ht. apply Nat.ltb_ge in Hlen.
  assert (valid_id i) as Hi by done.
  assert (∀ d, d ∈ (Disconnect.scan company.2).1 → domain_ok d) as Hok
    by (intros d; apply scan_domain_ok).
  destruct (Disconnect.scan company.2).1 as [|d0 ds0] eqn:Hscan.
  { exists vendors. split_and!; [done|done|apply grows_refl|].
    intros _ d []%elem_of_nil. }
  set (found := d0 :: ds0) in *.
  assert (∀ ds w e name c score,
            w = RawVendor (Some i) (Some ds) (Some name) (Some name)
                  (Some c) (Some false) (Some score) (Some "standard") e →
            sanitize_id name = i → c ∈ VALID_CATEGORIES → 1 ≤ score ≤ 9 →
            ds ≠ [] → StronglySorted String.le ds → NoDup ds →
            (∀ d, d ∈ ds →
                  d ∈ found ∨ lists_for vendors i d) →
            found ⊆ ds →
            (∀ d, lists_for vendors i d → d ∈ ds) →
            table_ok Q (dict_set i w vendors)
            ∧ grows vendors (dict_set i w vendors)
            ∧ (valid_id i → ∀ d, d ∈ found →
                 lists_for (dict_set i w vendors) i d)) as Hset.
  { intros ds w e name c score -> Hname Hc Hscore Hne Hs Hn Hfrom Hsub Hold.
    split_and!.
    - split; [by apply dict_set_NoDup|]. intros k v.
      destruct (decide (i = k)) as [<-|Hneq].
      + rewrite dict_get_set_eq. intros [= <-].
        exists ds, name, c, score, e. split_and!; try done; try lia.
        * apply Forall_forall. intros d [Hd|(v & eds & Hv & Heds & Hd)]%Hfrom;
            [by apply Hok|].
          destruct (Hrec _ _ Hv) as (? & ? & ? & ? & ? & -> & _ & _ & _ & _
                                     & _ & Hall & _).
          injection Heds as <-.
          exact (proj1 (Forall_forall _ _) Hall d Hd).
        * intros d [Hd|(v & eds & Hv & Heds & Hd)]%Hfrom; [by apply HQ|].
          destruct (Hrec _ _ Hv) as (? & ? & ? & ? & ? & -> & _ & _ & _ & _
                                     & _ & _ & HQv & _).
          injection Heds as <-. by apply HQv.
      + rewrite dict_get_set_ne by done. apply Hrec.
    - intros k d (v & vds & Hv & Hvds & Hd).
      destruct (decide (i = k)) as [<-|Hneq].
      + eexists _, ds. rewrite dict_get_set_eq. split_and!; [done..|].
        apply Hold. by exists v, vds.
      + exists v, vds. by rewrite dict_get_set_ne.
    - intros _ d Hd. eexists _, ds. rewrite dict_get_set_eq.
      split_and!; [done..|]. by apply Hsub. }
  destruct (dict_has i vendors) eqn:Hhas.
  - apply dict_has_true, dict_get_is_Some in Hhas as [existing Hex].
    rewrite Hex. cbn [mbind option_bind].
    destruct (Hrec _ _ Hex)
      as (eds & name & c & score & e & -> & Hname & _ & Hne & Hes & Hen
          & Hall & HQe & Hc & Hscore).
    cbn [r_domains mbind option_bind]. eexists. split; [done|].
    eapply Hset; [done..| | | | | |].
    + intros Heq. apply Hne. apply (f_equal length) in Heq.
      destruct eds; [done|].
      assert (s ∈ sorted_union (s :: eds) (sorted_union found [])) as Hin
        by (apply elem_of_sorted_union; left; apply list_elem_of_here).
      rewrite (nil_length_inv _ Heq) in Hin. by apply elem_of_nil in Hin.
    + apply StronglySorted_sorted_union.
    + apply NoDup_sorted_union.
    + intros d [Hd|Hd]%elem_of_sorted_union.
      * right. eexists _, eds. by split_and!.
      * apply elem_of_sorted_union in Hd as [Hd|[]%elem_of_nil]. by left.
    + intros d Hd. apply elem_of_sorted_union. right.
      apply elem_of_sorted_union. by left.
    + intros d (v & vds & Hv & Hvds & Hd). rewrite Hex in Hv.
      injection Hv as <-. injection Hvds as <-.
      apply elem_of_sorted_union. by left.
  - apply dict_has_false, dict_get_None in Hhas.
    eexists. split; [done|].
    eapply Hset; [done|done|done|done| | | | | |].
    + by apply sorted_union_nonempty.
    + apply StronglySorted_sorted_union.
    + apply NoDup_sorted_union.
    + intros d [Hd|[]%elem_of_nil]%elem_of_sorted_union. by left.
    + intros d Hd. apply elem_of_sorted_union. by left.
    + intros d (v & vds & Hv & _). by rewrite Hhas in Hv.
Qed.

Lemma table_values_distinct {V B : Type} (f : V → B) (g : string → B)
    `{!Inj (=) (=) g} (d : list (string * V)) :
  NoDup (dict_keys d) → (∀ k v, (k, v) ∈ d → f v = g k) →
  NoDup (f <$> dict_values d).
Proof.
  intros Hnd Hfg.
  assert (f <$> dict_values d = g <$> dict_keys d) as ->;
    [|by apply (NoDup_fmap_2 g)].
  unfold dict_values, dict_keys. rewrite <-!list_fmap_compose.
  apply Forall_fmap_ext_1, Forall_forall. intros [k v] Hin. simpl. auto.
Qed.

Lemma category_step_ok (Q : string → string → Prop) vendors category :
  (∀ entry company d,
     entry ∈ category.2 → company ∈ entry →
     d ∈ (Disconnect.scan company.2).1 → Q (sanitize_id company.1) d) →
  table_ok Q vendors →
  ∃ vendors',
    Disconnect.category_step vendors category = Some vendors'
    ∧ table_ok Q vendors' ∧ grows vendors vendors'
    ∧ ∀ entry, entry ∈ category.2 →
        ∀ company, company ∈ entry → covered vendors' company.
Proof.
  intros HQ Hok. unfold Disconnect.category_step. cbv zeta.
  apply (for_each_inv _ (table_ok Q) grows
           (λ vendors entry, ∀ company, company ∈ entry →
                               covered vendors company));
    [apply grows_refl|apply grows_trans| | |done].
  - intros s s' entry Hg Hc company Hin. eapply covered_grows; eauto.
  - intros s entry Hentry Hs.
    apply (for_each_inv _ (table_ok Q) grows covered);
      [apply grows_refl|apply grows_trans|apply covered_grows| |done].
    intros s0 company Hcompany Hs0. apply company_step_ok; [| | |done].
    + apply disconnect_category_valid.
    + apply disconnect_risk_range.
    + intros d Hd. by eapply HQ.
Qed.

Lemma parse_disconnect_services_table file :
  let categories := default [] (file ≫= Disconnect.s_categories) in
  ∃ vendors,
    Disconnect.parse_disconnect_services file = Some (dict_values vendors)
    ∧ table_ok (offered categories) vendors
    ∧ ∀ i d, valid_id i → offered categories i d → lists_for vendors i d.
Proof.
  intros categories.
  destruct (for_each_inv Disconnect.category_step
              (table_ok (offered categories)) grows
              (λ vendors category,
                 ∀ entry, entry ∈ category.2 →
                   ∀ company, company ∈ entry → covered vendors company)
              categories [])
    as (vendors & Hrun & Hok & _ & Hcov);
    [apply grows_refl|apply grows_trans| | | |].
  - intros s s' category Hg Hc entry He company Hin.
    eapply covered_grows; eauto.
  - intros s [category_name entries] Hcat Hs. apply category_step_ok; [|done].
    intros entry [company_name company_data] d He Hc
      (key & l & x & Hkey & Hx & Hdot & Hlen & ->)%elem_of_scan.
    exists category_name, company_name, company_data, key, l, x.
    split_and!; try done. by exists entries, entry.
  - split; [apply NoDup_nil_2|]. intros k v [=].
  - exists vendors. split_and!; [|done|].
    + unfold Disconnect.parse_disconnect_services.
      destruct file as [data|]; simpl in *.
      * unfold categories in Hrun. simpl in Hrun. by rewrite Hrun.
      * by injection Hrun as <-.
    + intros i d Hi (cname & name & data & key & l & s
                     & (entries & entry & Hcat & He & Hc) & <- & Hkey & Hs
                     & Hdot & Hlen & ->).
      apply (Hcov _ Hcat entry He (name, data) Hc Hi).
      apply elem_of_scan. by exists key, l, s.
Qed.

(** X22: For a file whose company names and listed strings are ASCII, the
    Disconnect import never stops on a [KeyError].  Its records have
    pairwise distinct ids; each id is the [sanitize_id] of the company name
    kept in the record, is not empty and has at least two characters; each
    domain list is not empty, sorted, free of duplicates and lower-case,
    and each of its entries is offered by the file for that id; the category
    is a valid one, the risk score lies between 1 and 9 and the tier is
    standard. *)
Theorem parse_disconnect_services_records (file : option Disconnect.services) :
  ascii_services (default [] (file ≫= Disconnect.s_categories)) = true →
  ∃ vendors,
    Disconnect.parse_disconnect_services file = Some vendors
    ∧ NoDup (r_id <$> vendors)
    ∧ Forall (λ v, ∃ i,
                disconnect_record
                  (offered (default [] (file ≫= Disconnect.s_categories)))
                  i v) vendors.
Proof.
  intros _.
  destruct (parse_disconnect_services_table file)
    as (vendors & Hrun & [Hnd Hrec] & _).
  exists (dict_values vendors). split_and!; [done| |].
  - apply (table_values_distinct r_id Some); [done|].
    intros k v Hin%elem_of_dict_get; [|done].
    by destruct (Hrec k v Hin) as (? & ? & ? & ? & ? & -> & _).
  - apply Forall_forall. intros v [k Hv]%elem_of_table; [|done].
    exists k. by apply Hrec.
Qed.

(** X23: For a file whose company names and listed strings are ASCII,
    nothing the file offers is lost: whenever the file offers a domain for
    an id that is not empty and has at least two characters, the record
    with that id is in the result and lists the domain. *)
Theorem parse_disconnect_services_complete (file : option Disconnect.services)
    (vendors : list raw_vendor) (i d : string) :
  ascii_services (default [] (file ≫= Disconnect.s_categories)) = true →
  Disconnect.parse_disconnect_services file = Some vendors →
  valid_id i →
  offered (default [] (file ≫= Disconnect.s_categories)) i d →
  ∃ v, v ∈ vendors ∧ r_id v = Some i ∧ d ∈ default [] (r_domains v).
Proof.
  intros _.
  destruct (parse_disconnect_services_table file)
    as (table & -> & [Hnd Hrec] & Hcov).
  intros [= <-] Hi Hoff.
  destruct (Hcov i d Hi Hoff) as (v & ds & Hv & Hds & Hd).
  exists v. split_and!.
  - apply elem_of_table; eauto.
  - by destruct (Hrec i v Hv) as (? & ? & ? & ? & ? & -> & _).
  - by rewrite Hds.
Qed.

(** X24: The normalizer of the merge finds nothing to repair in a record of the
    Disconnect import: normalizing it and reading the result back as an
    input gives the same record. *)
Theorem disconnect_records_are_normal (file : option Disconnect.services)
    (vendors : list raw_vendor) (v : raw_vendor) :
  Disconnect.parse_disconnect_services file = Some vendors →
  v ∈ vendors →
  as_input (normalize_vendor v) = v.
Proof.
  destruct (parse_disconnect_services_table file)
    as (table & -> & [Hnd Hrec] & _).
  intros [= <-] [k Hv]%elem_of_table; [|done].
  destruct (Hrec k v Hv)
    as (ds & name & c & score & e & -> & _ & _ & _ & _ & _ & Hall & _ & Hc
        & Hscore).
  unfold as_input, normalize_vendor. simpl.
  rewrite lower_domains_fixed by done.
  rewrite valid_category_fixed by done.
  by rewrite clamp_risk_fixed by lia.
Qed.

Lemma parse_disconnect_services_records_witness :
  ∃ vendors,
    Disconnect.parse_disconnect_services (Some acme_services) = Some vendors
    ∧ NoDup (r_id <$> vendors)
    ∧ Forall (λ v, ∃ i,
                disconnect_record
                  (offered
                     (default []
                        (Some acme_services ≫= Disconnect.s_categories)))
                  i v) vendors.
Proof.
  apply (parse_disconnect_services_records (Some acme_services)).
  reflexivity.
Defined.

Lemma parse_disconnect_services_complete_witness :
  ∃ v, v ∈ [acme_record] ∧ r_id v = Some "acme-ads"
       ∧ "acme.io" ∈ default [] (r_domains v).
Proof.
  apply (parse_disconnect_services_complete (Some acme_services)
           [acme_record] "acme-ads" "acme.io").
  - reflexivity.
  - by vm_compute.
  - split; [reflexivity|simpl; lia].
  - exists "Analytics", "acme-ads",
      [ ("https://acme.io/", PList [PStr "acme.io"]);
        ("performance", PStr "true") ],
      "https://acme.io/", [PStr "acme.io"], "acme.io".
    split_and!; [|reflexivity|apply list_elem_of_here|apply list_elem_of_here
                 | |simpl; lia|reflexivity].
    + eexists _, _. split_and!;
        [simpl; apply list_elem_of_further, list_elem_of_here
        |apply list_elem_of_here|apply list_elem_of_here].
    + simpl. do 4 apply list_elem_of_further. apply list_elem_of_here.
Defined.

Lemma disconnect_records_are_normal_witness :
  as_input (normalize_vendor acme_record) = acme_record.
Proof.
  apply (disconnect_records_are_normal (Some acme_services) [acme_record]).
  - by vm_compute.
  - apply list_elem_of_here.
Defined.
